(** * sql-review-studio: the multi-engine analysis pipeline

    A shallow embedding of [backend/analyzer.go], [backend/engine_analyzer.go],
    the rule enforcement and the history requests of [backend/main.go], and
    the quoting of [backend/storage.go], with the properties of the analysis
    report, of the segmenters and of those helpers proved over it.

    Conventions of the embedding:
    - script text is a sequence of runes ([gostring]); scripts are taken to be
      well-formed UTF-8, so that [[]rune(s)] and [WriteRune] are the identity;
    - rule codes, messages and suggestions are byte strings ([string]);
    - Go [int] values are [Z] (slice lengths stay far below 2^63);
    - the caller's disabled-rule map is a mutable object: the functions that
      touch it live in a small state monad over the map's contents;
    - [unicode.ToUpper] and [unicode.ToLower] are parameters of the analyzers
      (the Unicode case tables are not repository code), and so is
      [strconv.Atoi] where the history requests read a number. *)

From Stdlib Require Import ZArith List Bool Lia Sorting.Sorted Permutation.
From stdpp Require Import gmap strings list pretty sorting.

Open Scope Z_scope.

(* ===================================================================== *)
(** * Runes and the [strings] functions the analyzers call *)
(* ===================================================================== *)

Module Strings.

Definition rune := Z.
Definition gostring := list rune.

(** An ASCII literal of the source as a rune sequence. *)
Definition runes (s : string) : gostring :=
  map (fun a => Z.of_N (Ascii.N_of_ascii a)) (String.list_ascii_of_string s).

Definition rune_eqb (a b : rune) : bool := Z.eqb a b.

Fixpoint gostring_eqb (a b : gostring) : bool :=
  match a, b with
  | [], [] => true
  | x :: a', y :: b' => rune_eqb x y && gostring_eqb a' b'
  | _, _ => false
  end.

Definition isEmpty (s : gostring) : bool :=
  match s with [] => true | _ => false end.

(** [unicode.IsSpace]: the White_Space property. *)
Definition unicode_IsSpace (r : rune) : bool :=
  ((9 <=? r) && (r <=? 13)) || (r =? 32) || (r =? 0x85) || (r =? 0xA0)
  || (r =? 0x1680) || ((0x2000 <=? r) && (r <=? 0x200a))
  || (r =? 0x2028) || (r =? 0x2029) || (r =? 0x202f) || (r =? 0x205f)
  || (r =? 0x3000).

Fixpoint TrimLeftSpace (s : gostring) : gostring :=
  match s with
  | [] => []
  | r :: t => if unicode_IsSpace r then TrimLeftSpace t else s
  end.

(** [strings.TrimSpace] *)
Definition TrimSpace (s : gostring) : gostring :=
  rev (TrimLeftSpace (rev (TrimLeftSpace s))).

(** [strings.Fields]: the maximal runs of non-space runes. [cur] is the run
    being read, reversed. *)
Fixpoint fieldsFrom (cur : gostring) (s : gostring) : list gostring :=
  match s with
  | [] => if isEmpty cur then [] else [rev cur]
  | r :: t =>
      if unicode_IsSpace r
      then (if isEmpty cur then fieldsFrom [] t else rev cur :: fieldsFrom [] t)
      else fieldsFrom (r :: cur) t
  end.

Definition Fields (s : gostring) : list gostring := fieldsFrom [] s.

(** [strings.HasPrefix] *)
Fixpoint HasPrefix (s prefix : gostring) : bool :=
  match prefix, s with
  | [], _ => true
  | p :: prefix', r :: s' => rune_eqb r p && HasPrefix s' prefix'
  | _ :: _, [] => false
  end.

(** [strings.HasSuffix] *)
Definition HasSuffix (s suffix : gostring) : bool :=
  HasPrefix (rev s) (rev suffix).

(** [strings.Contains] *)
Fixpoint Contains (s substr : gostring) : bool :=
  HasPrefix s substr ||
  match s with
  | [] => false
  | _ :: t => Contains t substr
  end.

(** [strings.Split(s, sep)] for a separator of one rune. *)
Fixpoint splitFrom (sep : rune) (cur : gostring) (s : gostring) : list gostring :=
  match s with
  | [] => [rev cur]
  | r :: t =>
      if rune_eqb r sep then rev cur :: splitFrom sep [] t
      else splitFrom sep (r :: cur) t
  end.

Definition Split (s : gostring) (sep : rune) : list gostring := splitFrom sep [] s.

(** [strings.SplitAfter(s, sep)] for a separator of one rune: every piece
    but the last keeps its separator. *)
Fixpoint splitAfterFrom (sep : rune) (cur : gostring) (s : gostring) : list gostring :=
  match s with
  | [] => [rev cur]
  | r :: t =>
      if rune_eqb r sep then rev (r :: cur) :: splitAfterFrom sep [] t
      else splitAfterFrom sep (r :: cur) t
  end.

Definition SplitAfter (s : gostring) (sep : rune) : list gostring :=
  splitAfterFrom sep [] s.

(** [strings.ReplaceAll(s, old, new)] for a non-empty [old]: occurrences are
    replaced left to right without overlap. [skip] counts the runes of a
    matched [old] still to pass over. *)
Fixpoint replaceFrom (skip : nat) (s old new : gostring) : gostring :=
  match s with
  | [] => []
  | r :: t =>
      match skip with
      | S k => replaceFrom k t old new
      | O =>
          if HasPrefix s old
          then new ++ replaceFrom (length old - 1) t old new
          else r :: replaceFrom O t old new
      end
  end.

Definition ReplaceAll (s old new : gostring) : gostring := replaceFrom O s old new.

(** [strings.Join] *)
Fixpoint Join (elems : list gostring) (sep : gostring) : gostring :=
  match elems with
  | [] => []
  | [e] => e
  | e :: rest => e ++ sep ++ Join rest sep
  end.

(** [sort.Strings]: ascending byte-wise order. *)
Fixpoint insertString (x : string) (l : list string) : list string :=
  match l with
  | [] => [x]
  | y :: t => if String.leb x y then x :: y :: t else y :: insertString x t
  end.

Definition sortStrings (l : list string) : list string :=
  fold_right insertString [] l.

(** [strconv.Itoa] *)
Definition Itoa (n : Z) : string := pretty n.

End Strings.
Export Strings.

(* ===================================================================== *)
(** * The part of package [regexp] the analyzers rely on *)
(* ===================================================================== *)

(** Patterns are kept as syntax trees; [ends r text i] lists the positions
    where a match of [r] that starts at position [i] of [text] can end, in
    the order a backtracking matcher tries them, which is the leftmost-first
    preference of package [regexp]. *)
Module Regexp.

Inductive regex : Type :=
| Empty
| Class (p : rune -> bool)
| Cat (r1 r2 : regex)
| Alt (r1 r2 : regex)
| Star (greedy : bool) (r : regex)
| BeginText
| BeginLine
| EndText
| WordBoundary.

Definition Plus (r : regex) : regex := Cat r (Star true r).
Definition PlusLazy (r : regex) : regex := Cat r (Star false r).
Definition Quest (r : regex) : regex := Alt r Empty.

Fixpoint Seq (rs : list regex) : regex :=
  match rs with
  | [] => Empty
  | [r] => r
  | r :: rest => Cat r (Seq rest)
  end.

Fixpoint OneOf (rs : list regex) : regex :=
  match rs with
  | [] => Class (fun _ => false)
  | [r] => r
  | r :: rest => Alt r (OneOf rest)
  end.

(** [syntax.IsWordChar]: ASCII only. *)
Definition IsWordChar (r : rune) : bool :=
  ((65 <=? r) && (r <=? 90)) || ((97 <=? r) && (r <=? 122))
  || ((48 <=? r) && (r <=? 57)) || (r =? 95).

(** [\s], [\d], [\w] and [.] under the flags [(?is)]; with [(?i)] the class
    [\w] also holds the two runes that fold to ASCII letters, U+017F and
    U+212A. *)
Definition perlSpace (r : rune) : bool :=
  (r =? 9) || (r =? 10) || (r =? 12) || (r =? 13) || (r =? 32).
Definition perlDigit (r : rune) : bool := (48 <=? r) && (r <=? 57).
Definition perlWordFold (r : rune) : bool :=
  IsWordChar r || (r =? 0x17F) || (r =? 0x212A).
Definition anyRune (_ : rune) : bool := true.

(** One literal rune under [(?i)]: the runes of its simple-folding orbit.
    For ASCII letters that is both cases, and U+212A for k, U+017F for s. *)
Definition foldsTo (c : rune) (r : rune) : bool :=
  (r =? c)
  || ((65 <=? c) && (c <=? 90) && (r =? c + 32))
  || ((97 <=? c) && (c <=? 122) && (r =? c - 32))
  || (((c =? 75) || (c =? 107)) && (r =? 0x212A))
  || (((c =? 83) || (c =? 115)) && (r =? 0x17F)).

(** A literal of the pattern under [(?i)]. *)
Definition Lit (s : string) : regex :=
  Seq (map (fun c => Class (foldsTo c)) (runes s)).

Fixpoint dedup (seen : list nat) (l : list nat) : list nat :=
  match l with
  | [] => []
  | x :: t =>
      if existsb (Nat.eqb x) seen then dedup seen t
      else x :: dedup (x :: seen) t
  end.

Definition runeBefore (text : gostring) (i : nat) : option rune :=
  match i with
  | O => None
  | S j => text !! j
  end.

Definition isWordAt (o : option rune) : bool :=
  match o with
  | Some r => IsWordChar r
  | None => false
  end.

(** Repetition: each round must consume input, and a round that starts at
    [i] ends within the text, so [length text - i + 1] rounds of fuel are
    never exhausted. *)
Fixpoint starEnds (greedy : bool) (one : nat -> list nat) (fuel : nat) (i : nat)
  : list nat :=
  match fuel with
  | O => [i]
  | S f =>
      let more :=
        flat_map (starEnds greedy one f) (List.filter (fun j => Nat.ltb i j) (one i)) in
      if greedy then more ++ [i] else i :: more
  end.

Fixpoint ends (r : regex) (text : gostring) (i : nat) : list nat :=
  match r with
  | Empty => [i]
  | Class p =>
      match text !! i with
      | Some c => if p c then [S i] else []
      | None => []
      end
  | Cat r1 r2 => dedup [] (flat_map (ends r2 text) (ends r1 text i))
  | Alt r1 r2 => dedup [] (ends r1 text i ++ ends r2 text i)
  | Star greedy r1 =>
      dedup [] (starEnds greedy (ends r1 text) (S (length text - i)) i)
  | BeginText => match i with O => [i] | S _ => [] end
  | BeginLine =>
      match runeBefore text i with
      | None => [i]
      | Some c => if c =? 10 then [i] else []
      end
  | EndText => if Nat.eqb i (length text) then [i] else []
  | WordBoundary =>
      if xorb (isWordAt (runeBefore text i)) (isWordAt (text !! i)) then [i] else []
  end.

(** The leftmost match that starts at or after [pos]: its start and end. *)
Fixpoint findFrom (r : regex) (text : gostring) (fuel : nat) (pos : nat)
  : option (nat * nat) :=
  match ends r text pos with
  | e :: _ => Some (pos, e)
  | [] =>
      match fuel with
      | O => None
      | S f => findFrom r text f (S pos)
      end
  end.

Definition find (r : regex) (text : gostring) (pos : nat) : option (nat * nat) :=
  if Nat.leb pos (length text) then findFrom r text (length text - pos) pos
  else None.

(** The method [Regexp.MatchString] *)
Definition MatchString (r : regex) (text : gostring) : bool :=
  match find r text 0 with
  | Some _ => true
  | None => false
  end.

(** The loop of the method [Regexp.allMatches] with [n < 0]: successive matches
    without overlap; an empty match right after the previous match is not
    delivered. [prevMatchEnd] is [None] for the initial -1. *)
Fixpoint allMatchesFrom (r : regex) (text : gostring) (fuel : nat)
    (pos : nat) (prevMatchEnd : option nat) : list (nat * nat) :=
  match fuel with
  | O => []
  | S f =>
      if Nat.leb pos (length text) then
        match find r text pos with
        | None => []
        | Some (b, e) =>
            let accept :=
              negb (Nat.eqb e pos &&
                    match prevMatchEnd with Some p => Nat.eqb b p | None => false end) in
            let pos' := if Nat.eqb e pos then S pos else e in
            let rest := allMatchesFrom r text f pos' (Some e) in
            if accept then (b, e) :: rest else rest
        end
      else []
  end.

(** [len(re.FindAllString(text, -1))] *)
Definition FindAllCount (r : regex) (text : gostring) : nat :=
  length (allMatchesFrom r text (S (S (length text))) 0 None).

End Regexp.
Export Regexp.

(* ===================================================================== *)
(** * The caller's disabled-rule map as a mutable object *)
(* ===================================================================== *)

(** [options.DisabledRules] is a Go map, shared by reference between
    [handleCheck] and the analyzers. The store holds the contents of that one
    map: [None] is the nil map, [Some s] a map whose key set is [s]. *)
Module MapState.

Definition Store : Type := option (gset string).

Definition M (A : Type) : Type := Store -> A * Store.

Definition ret {A : Type} (a : A) : M A := fun σ => (a, σ).

Definition bind {A B : Type} (m : M A) (k : A -> M B) : M B :=
  fun σ => let (a, σ') := m σ in k a σ'.

(** [m == nil] *)
Definition mapIsNil : M bool :=
  fun σ => (match σ with None => true | Some _ => false end, σ).

(** [len(m)] *)
Definition mapLen : M Z :=
  fun σ => (match σ with None => 0 | Some s => Z.of_nat (size s) end, σ).

(** [_, found := m[key]] *)
Definition mapFound (key : string) : M bool :=
  fun σ => (match σ with None => false | Some s => bool_decide (key ∈ s) end, σ).

(** [delete(m, key)]; a no-op on the nil map. *)
Definition mapDelete (key : string) : M unit :=
  fun σ => (tt, match σ with None => None | Some s => Some (s ∖ {[ key ]}) end).

(** The keys a [range] over the map visits. Go leaves the order of the
    visit unspecified; the one caller sorts the keys, so that the order does
    not show (see [disabledRulesToSlice_order]). *)
Definition mapKeys : M (list string) :=
  fun σ => (match σ with None => [] | Some s => elements s end, σ).

(** [for i, x := range l { s = body(i, x, s) }] *)
Fixpoint forRange {A S : Type} (body : nat -> A -> S -> M S) (i : nat)
    (l : list A) (s : S) : M S :=
  match l with
  | [] => ret s
  | x :: rest => bind (body i x s) (fun s' => forRange body (Datatypes.S i) rest s')
  end.

End MapState.
Export MapState.

Notation "'let*' x := m 'in' k" := (bind m (fun x => k))
  (at level 10, x name, m at level 100, k at level 200).

(* ===================================================================== *)
(** * Data model ([analyzer.go]) *)
(* ===================================================================== *)

Inductive IssueLevel : Type := LevelError | LevelWarning | LevelInfo.

Definition rulesVersion : string := "v1.3".

Record Issue : Type := {
  StatementIndex : Z;
  Level : IssueLevel;
  Rule : string;
  Message : string;
  Suggestion : string;
  Statement : gostring
}.

Record Summary : Type := {
  StatementCount : Z;
  ErrorCount : Z;
  WarningCount : Z;
  InfoCount : Z
}.

Record CheckResponse : Type := {
  RulesVersion : string;
  CheckedAt : string;
  ResponseSummary : Summary;
  Issues : list Issue;
  Advice : list string
}.

(* ===================================================================== *)
(** * Enforcement of the always-enabled rules ([main.go]) *)
(* ===================================================================== *)

Definition alwaysEnabledRules : gset string :=
  {[ "empty_input"; "missing_statement_terminator";
     "mongo_missing_statement_terminator"; "fullwidth_statement_terminator" ]}.

(** The loop of [enforceAlwaysEnabledRules] over the codes in the order
    [codes]; [removed] is the slice built so far. *)
Fixpoint enforceLoop (codes : list string) (removed : list string) : M (list string) :=
  match codes with
  | [] => ret removed
  | code :: rest =>
      let* found := mapFound code in
      if negb found then enforceLoop rest removed
      else
        let* _ := mapDelete code in
        enforceLoop rest (removed ++ [code])
  end.

(** [order] is the order in which [range alwaysEnabledRules] visits the
    keys: Go leaves it unspecified, so it is an argument. *)
Definition enforceAlwaysEnabledRules (order : list string) : M (list string) :=
  let* isNil := mapIsNil in
  let* n := mapLen in
  if isNil || (n =? 0) then ret []
  else
    let* removed := enforceLoop order [] in
    ret (sortStrings removed).

Definition disabledRulesToSlice : M (list string) :=
  let* items := mapKeys in
  ret (sortStrings items).

(* ===================================================================== *)
(** * The statement segmenter ([analyzer.go]) *)
(* ===================================================================== *)

(** [for i := 0; i < n; i++ { ... }] with a body that may itself advance
    [i]: [body i s] gives the value of [i] when the body ends and the new
    state, and the loop header then adds one. Every body below returns an
    index that is at least [i], so [n] rounds of fuel are never exhausted
    (see [forIndex_fuel]). *)
Fixpoint forIndex {S : Type} (fuel : nat) (n : nat) (body : nat -> S -> nat * S)
    (i : nat) (s : S) : S :=
  match fuel with
  | O => s
  | Datatypes.S f =>
      if Nat.ltb i n
      then let (i', s') := body i s in forIndex f n body (Datatypes.S i') s'
      else s
  end.

(** [runes[i]], and 0 past the end as for [next := rune(0)]. *)
Definition runeAt (rs : gostring) (i : nat) : rune := default 0 (rs !! i).

Definition semicolon : rune := 59.
Definition fullwidthSemicolon : rune := 0xFF1B.
Definition newline : rune := 10.

Definition isFullwidthSemicolon (ch : rune) : bool := ch =? fullwidthSemicolon.

Definition matchRunesAt (source : gostring) (index : nat) (target : gostring) : bool :=
  if isEmpty target || Nat.ltb (length source) (index + length target) then false
  else gostring_eqb (take (length target) (drop index source)) target.

(** The backslashes that directly precede position [index]. *)
Fixpoint escapeCount (rs : gostring) (index : nat) : nat :=
  match index with
  | O => O
  | Datatypes.S j =>
      if runeAt rs j =? 92 then Datatypes.S (escapeCount rs j) else O
  end.

Definition isEscapedByBackslash (rs : gostring) (index : nat) : bool :=
  Nat.odd (escapeCount rs index).

(** [strings.EqualFold(s, t)] for a [t] made of ASCII runes, as at its one
    call site: each rune of [s] has to lie in the folding orbit of the rune
    of [t] at the same place. *)
Fixpoint EqualFold (s t : gostring) : bool :=
  match s, t with
  | [], [] => true
  | x :: s', c :: t' => foldsTo c x && EqualFold s' t'
  | _, _ => false
  end.

Definition parseDelimiterDirective (line : gostring) : gostring * bool :=
  let trimmed := TrimSpace line in
  if isEmpty trimmed then ([], false)
  else
    match Fields trimmed with
    | part0 :: part1 :: _ =>
        if negb (EqualFold part0 (runes "DELIMITER")) then ([], false)
        else
          let delimiter := TrimSpace part1 in
          if isEmpty delimiter then (runes ";", true) else (delimiter, true)
    | _ => ([], false)
    end.

Definition detectLineTerminator (line : gostring) : bool * bool :=
  let trimmed := TrimSpace line in
  if HasSuffix trimmed [semicolon] then (true, false)
  else if HasSuffix trimmed [fullwidthSemicolon] then (true, true)
  else (false, false).

Definition hasStatementTerminatorSuffix (normalized : gostring) : bool :=
  let trimmed := TrimSpace normalized in
  HasSuffix trimmed [semicolon] || HasSuffix trimmed [fullwidthSemicolon].

(** The variables of [splitSQLStatements]. [inLineComment] is declared
    inside the loop over the lines; here it is a field that each line
    resets before its scan. *)
Record sqlSplit : Type := {
  items : list gostring;
  builder : gostring;
  delimiter : gostring;
  inSingleQuote : bool;
  inDoubleQuote : bool;
  inBacktick : bool;
  inBlockComment : bool;
  inLineComment : bool
}.

Definition setItemsBuilder (it : list gostring) (b : gostring) (st : sqlSplit) : sqlSplit :=
  {| items := it; builder := b; delimiter := delimiter st;
     inSingleQuote := inSingleQuote st; inDoubleQuote := inDoubleQuote st;
     inBacktick := inBacktick st; inBlockComment := inBlockComment st;
     inLineComment := inLineComment st |}.

Definition setDelimiter (d : gostring) (st : sqlSplit) : sqlSplit :=
  {| items := items st; builder := builder st; delimiter := d;
     inSingleQuote := inSingleQuote st; inDoubleQuote := inDoubleQuote st;
     inBacktick := inBacktick st; inBlockComment := inBlockComment st;
     inLineComment := inLineComment st |}.

Definition setQuotes (sq dq bt : bool) (st : sqlSplit) : sqlSplit :=
  {| items := items st; builder := builder st; delimiter := delimiter st;
     inSingleQuote := sq; inDoubleQuote := dq; inBacktick := bt;
     inBlockComment := inBlockComment st; inLineComment := inLineComment st |}.

Definition setComments (block line : bool) (st : sqlSplit) : sqlSplit :=
  {| items := items st; builder := builder st; delimiter := delimiter st;
     inSingleQuote := inSingleQuote st; inDoubleQuote := inDoubleQuote st;
     inBacktick := inBacktick st; inBlockComment := block; inLineComment := line |}.

(** [builder.WriteRune(ch)] *)
Definition writeRune (ch : rune) (st : sqlSplit) : sqlSplit :=
  setItemsBuilder (items st) (builder st ++ [ch]) st.

(** [piece := strings.TrimSpace(builder.String()); if piece != "" { items =
    append(items, piece) }; builder.Reset()] *)
Definition emitPiece (st : sqlSplit) : sqlSplit :=
  let piece := TrimSpace (builder st) in
  setItemsBuilder (if isEmpty piece then items st else items st ++ [piece]) [] st.

Definition outsideQuotes (st : sqlSplit) : bool :=
  negb (inSingleQuote st) && negb (inDoubleQuote st) && negb (inBacktick st).

(** One round of the loop over the runes of a line. *)
Definition splitStep (rs : gostring) (i : nat) (st : sqlSplit) : nat * sqlSplit :=
  let ch := runeAt rs i in
  let next := runeAt rs (i + 1) in
  if inLineComment st then
    if ch =? newline
    then (i, writeRune ch (setComments (inBlockComment st) false st))
    else (i, st)
  else if inBlockComment st then
    if (ch =? 42) && (next =? 47)
    then (Datatypes.S i, setComments false (inLineComment st) st)
    else (i, st)
  else if outsideQuotes st && (ch =? 45) && (next =? 45) then
    (Datatypes.S i, setComments (inBlockComment st) true st)
  else if outsideQuotes st && (ch =? 35) then
    (i, setComments (inBlockComment st) true st)
  else if outsideQuotes st && (ch =? 47) && (next =? 42) then
    (Datatypes.S i, setComments true (inLineComment st) st)
  else
    let sq :=
      if (ch =? 39) && negb (inDoubleQuote st) && negb (inBacktick st)
         && negb (isEscapedByBackslash rs i)
      then negb (inSingleQuote st) else inSingleQuote st in
    let dq :=
      if (ch =? 34) && negb sq && negb (inBacktick st)
         && negb (isEscapedByBackslash rs i)
      then negb (inDoubleQuote st) else inDoubleQuote st in
    let bt :=
      if (ch =? 96) && negb sq && negb dq
      then negb (inBacktick st) else inBacktick st in
    let st1 := setQuotes sq dq bt st in
    if outsideQuotes st1 && negb (isEmpty (delimiter st1)) then
      if matchRunesAt rs i (delimiter st1) then
        ((i + (length (delimiter st1) - 1))%nat, emitPiece st1)
      else if gostring_eqb (delimiter st1) [semicolon] && isFullwidthSemicolon ch then
        (i, emitPiece st1)
      else (i, writeRune ch st1)
    else (i, writeRune ch st1).

Definition scanLine (line : gostring) (st : sqlSplit) : sqlSplit :=
  forIndex (length line) (length line) (splitStep line) O
    (setComments (inBlockComment st) false st).

(** One round of the loop over the lines. *)
Definition splitLine (st : sqlSplit) (line : gostring) : sqlSplit :=
  if outsideQuotes st && negb (inBlockComment st) then
    match parseDelimiterDirective line with
    | (delim, true) => setDelimiter delim st
    | (_, false) => scanLine line st
    end
  else scanLine line st.

Definition splitInit : sqlSplit :=
  {| items := []; builder := []; delimiter := [semicolon];
     inSingleQuote := false; inDoubleQuote := false; inBacktick := false;
     inBlockComment := false; inLineComment := false |}.

Definition splitSQLStatements (content : gostring) : list gostring :=
  let lines :=
    match SplitAfter content newline with
    | [] => [content]
    | ls => ls
    end in
  let st := fold_left splitLine lines splitInit in
  let tail := TrimSpace (builder st) in
  if isEmpty tail then items st else items st ++ [tail].

(** The variables of [stripCommentsAndStrings]. *)
Record stripState : Type := {
  sOut : gostring;
  sSingle : bool;
  sDouble : bool;
  sBacktick : bool;
  sLine : bool;
  sBlock : bool
}.

Definition stripSet (out : gostring) (sq dq bt ln bl : bool) : stripState :=
  {| sOut := out; sSingle := sq; sDouble := dq; sBacktick := bt;
     sLine := ln; sBlock := bl |}.

(** A rune inside a quoted string is blanked, a line break is kept. *)
Definition blank (ch : rune) : rune := if ch =? newline then newline else 32.

Definition stripStep (rs : gostring) (i : nat) (st : stripState) : nat * stripState :=
  let ch := runeAt rs i in
  let next := runeAt rs (i + 1) in
  let '(out, sq, dq, bt) := (sOut st, sSingle st, sDouble st, sBacktick st) in
  if sLine st then
    if ch =? newline then (i, stripSet (out ++ [newline]) sq dq bt false (sBlock st))
    else (i, st)
  else if sBlock st then
    let '(i', bl) := if (ch =? 42) && (next =? 47) then (Datatypes.S i, false) else (i, true) in
    (i', stripSet (if ch =? newline then out ++ [newline] else out) sq dq bt false bl)
  else if negb sq && negb dq && negb bt && (ch =? 45) && (next =? 45) then
    (Datatypes.S i, stripSet out sq dq bt true false)
  else if negb sq && negb dq && negb bt && (ch =? 35) then
    (i, stripSet out sq dq bt true false)
  else if negb sq && negb dq && negb bt && (ch =? 47) && (next =? 42) then
    (Datatypes.S i, stripSet out sq dq bt false true)
  else if sq then
    (i, stripSet (out ++ [blank ch])
          (negb ((ch =? 39) && negb (isEscapedByBackslash rs i))) dq bt false false)
  else if dq then
    (i, stripSet (out ++ [blank ch]) sq
          (negb ((ch =? 34) && negb (isEscapedByBackslash rs i))) bt false false)
  else if bt then
    (i, stripSet (out ++ [blank ch]) sq dq (negb (ch =? 96)) false false)
  else if ch =? 39 then (i, stripSet (out ++ [32]) true dq bt false false)
  else if ch =? 34 then (i, stripSet (out ++ [32]) sq true bt false false)
  else if ch =? 96 then (i, stripSet (out ++ [32]) sq dq true false false)
  else (i, stripSet (out ++ [ch]) sq dq bt false false).

Definition stripCommentsAndStrings (content : gostring) : gostring :=
  sOut (forIndex (length content) (length content) (stripStep content) O
          (stripSet [] false false false false false)).

(* ===================================================================== *)
(** * The compiled patterns ([analyzer.go], [engine_analyzer.go]) *)
(* ===================================================================== *)

(** Every pattern of the source carries the flag [(?i)]; [(?s)] makes [.]
    match any rune, and only the two statement-start patterns carry [(?m)],
    under which [^] is [BeginLine]. *)

Definition reSp : regex := Class perlSpace.
Definition reAny : regex := Class anyRune.
Definition reQuote : regex := Class (fun r => (r =? 39) || (r =? 34)).
Definition reNotQuote : regex := Class (fun r => negb ((r =? 39) || (r =? 34))).

(** [(?is)^\s*UPDATE\s+.+?\s+SET\s+.+$] *)
Definition reUpdateNoWhere : regex :=
  Seq [BeginText; Star true reSp; Lit "UPDATE"; Plus reSp; PlusLazy reAny;
       Plus reSp; Lit "SET"; Plus reSp; Plus reAny; EndText].

(** [(?is)^\s*DELETE\s+FROM\s+.+$] *)
Definition reDeleteNoWhere : regex :=
  Seq [BeginText; Star true reSp; Lit "DELETE"; Plus reSp; Lit "FROM"; Plus reSp;
       Plus reAny; EndText].

(** [(?is)^\s*SELECT\s+\*\s+FROM\s+] *)
Definition reSelectStar : regex :=
  Seq [BeginText; Star true reSp; Lit "SELECT"; Plus reSp; Lit "*"; Plus reSp;
       Lit "FROM"; Plus reSp].

(** [(?is)^\s*SELECT\s+] *)
Definition reSelect : regex :=
  Seq [BeginText; Star true reSp; Lit "SELECT"; Plus reSp].

(** [(?is)\s+LIMIT\s+\d+] *)
Definition reLimit : regex :=
  Seq [Plus reSp; Lit "LIMIT"; Plus reSp; Plus (Class perlDigit)].

(** [(?is)^\s*DROP\s+(TABLE|DATABASE|VIEW|INDEX)\b] *)
Definition reDropObj : regex :=
  Seq [BeginText; Star true reSp; Lit "DROP"; Plus reSp;
       OneOf [Lit "TABLE"; Lit "DATABASE"; Lit "VIEW"; Lit "INDEX"]; WordBoundary].

(** [(?is)^\s*TRUNCATE\s+TABLE\b] *)
Definition reTruncate : regex :=
  Seq [BeginText; Star true reSp; Lit "TRUNCATE"; Plus reSp; Lit "TABLE"; WordBoundary].

(** [(?is)^\s*ALTER\s+TABLE\s+.+\s+DROP\s+COLUMN\b] *)
Definition reAlterDropCol : regex :=
  Seq [BeginText; Star true reSp; Lit "ALTER"; Plus reSp; Lit "TABLE"; Plus reSp;
       Plus reAny; Plus reSp; Lit "DROP"; Plus reSp; Lit "COLUMN"; WordBoundary].

(** [(?is)\bINTO\s+OUTFILE\b] *)
Definition reSelectIntoOut : regex :=
  Seq [WordBoundary; Lit "INTO"; Plus reSp; Lit "OUTFILE"; WordBoundary].

(** [(?is)LIKE\s+[q]%[^q]*[q]], where [q] stands for the single and the
    double quote *)
Definition reLikeLeadWild : regex :=
  Seq [Lit "LIKE"; Plus reSp; reQuote; Lit "%"; Star true reNotQuote; reQuote].

(** [(?is)ORDER\s+BY\s+RAND\s*\(] *)
Definition reOrderByRand : regex :=
  Seq [Lit "ORDER"; Plus reSp; Lit "BY"; Plus reSp; Lit "RAND"; Star true reSp; Lit "("].

(** [(?is)\bWHERE\s+1\s*=\s*1\b] *)
Definition reWhereOneEqOne : regex :=
  Seq [WordBoundary; Lit "WHERE"; Plus reSp; Lit "1"; Star true reSp; Lit "=";
       Star true reSp; Lit "1"; WordBoundary].

(** [(?is)^\s*INSERT\s+INTO\s+[\w.]+\s+VALUES\s*\(] *)
Definition reInsertNoCols : regex :=
  Seq [BeginText; Star true reSp; Lit "INSERT"; Plus reSp; Lit "INTO"; Plus reSp;
       Plus (Class (fun r => perlWordFold r || (r =? 46))); Plus reSp; Lit "VALUES";
       Star true reSp; Lit "("].

(** [(?is)^\s*CREATE\s+TABLE\s+] *)
Definition reCreateTable : regex :=
  Seq [BeginText; Star true reSp; Lit "CREATE"; Plus reSp; Lit "TABLE"; Plus reSp].

(** [(?is)^\s*CREATE\s+TABLE\s+IF\s+NOT\s+EXISTS\s+] *)
Definition reCreateIfNE : regex :=
  Seq [BeginText; Star true reSp; Lit "CREATE"; Plus reSp; Lit "TABLE"; Plus reSp;
       Lit "IF"; Plus reSp; Lit "NOT"; Plus reSp; Lit "EXISTS"; Plus reSp].

(** [(?is)^\s*(BEGIN|START\s+TRANSACTION)\b] *)
Definition reBeginTx : regex :=
  Seq [BeginText; Star true reSp;
       OneOf [Lit "BEGIN"; Seq [Lit "START"; Plus reSp; Lit "TRANSACTION"]];
       WordBoundary].

(** [(?is)^\s*COMMIT\b] *)
Definition reCommitTx : regex :=
  Seq [BeginText; Star true reSp; Lit "COMMIT"; WordBoundary].

(** [(?is)^\s*(UPDATE|DELETE|INSERT|ALTER|DROP|TRUNCATE)\b] *)
Definition reRiskWrite : regex :=
  Seq [BeginText; Star true reSp;
       OneOf [Lit "UPDATE"; Lit "DELETE"; Lit "INSERT"; Lit "ALTER"; Lit "DROP";
              Lit "TRUNCATE"];
       WordBoundary].

(** [(?is)\bCREATE\s+(?:DEFINER\s*=\s*[^\s]+\s+)?(?:PROCEDURE|FUNCTION|TRIGGER|EVENT)\b] *)
Definition reRoutineDefinition : regex :=
  Seq [WordBoundary; Lit "CREATE"; Plus reSp;
       Quest (Seq [Lit "DEFINER"; Star true reSp; Lit "="; Star true reSp;
                   Plus (Class (fun r => negb (perlSpace r))); Plus reSp]);
       OneOf [Lit "PROCEDURE"; Lit "FUNCTION"; Lit "TRIGGER"; Lit "EVENT"];
       WordBoundary].

(** [(?im)^\s*(SELECT|INSERT|UPDATE|DELETE|CREATE|ALTER|DROP|TRUNCATE|WITH|CALL|REPLACE|MERGE|BEGIN|START\s+TRANSACTION|COMMIT|ROLLBACK)\b] *)
Definition reStatementStart : regex :=
  Seq [BeginLine; Star true reSp;
       OneOf [Lit "SELECT"; Lit "INSERT"; Lit "UPDATE"; Lit "DELETE"; Lit "CREATE";
              Lit "ALTER"; Lit "DROP"; Lit "TRUNCATE"; Lit "WITH"; Lit "CALL";
              Lit "REPLACE"; Lit "MERGE"; Lit "BEGIN";
              Seq [Lit "START"; Plus reSp; Lit "TRANSACTION"];
              Lit "COMMIT"; Lit "ROLLBACK"];
       WordBoundary].

(** [(?im)^\s*(INSERT|UPDATE|DELETE|CREATE|ALTER|DROP|TRUNCATE|CALL|REPLACE|MERGE|BEGIN|START\s+TRANSACTION|COMMIT|ROLLBACK)\b] *)
Definition reHardStatementStart : regex :=
  Seq [BeginLine; Star true reSp;
       OneOf [Lit "INSERT"; Lit "UPDATE"; Lit "DELETE"; Lit "CREATE"; Lit "ALTER";
              Lit "DROP"; Lit "TRUNCATE"; Lit "CALL"; Lit "REPLACE"; Lit "MERGE";
              Lit "BEGIN"; Seq [Lit "START"; Plus reSp; Lit "TRANSACTION"];
              Lit "COMMIT"; Lit "ROLLBACK"];
       WordBoundary].

(** [(?is)(LIKE|ILIKE)\s+[q]%[^q]*[q]], with [q] as above *)
Definition rePostgresLikeLeadWild : regex :=
  Seq [OneOf [Lit "LIKE"; Lit "ILIKE"]; Plus reSp; reQuote; Lit "%";
       Star true reNotQuote; reQuote].

(* ===================================================================== *)
(** * Terminator heuristics and the MySQL analyzer ([analyzer.go]) *)
(* ===================================================================== *)

Definition severityWeight (level : IssueLevel) : Z :=
  match level with
  | LevelError => 3
  | LevelWarning => 2
  | _ => 1
  end.

(** The [less] function handed to [sort.SliceStable]. *)
Definition issueLess (a b : Issue) : bool :=
  if StatementIndex a =? StatementIndex b
  then severityWeight (Level b) <? severityWeight (Level a)
  else StatementIndex a <? StatementIndex b.

(** [sort.SliceStable]: the sorted arrangement in which elements that
    [less] does not order keep their relative order. The head of the slice
    is put before the first sorted element that is not less than it. *)
Fixpoint insertStable {A : Type} (less : A -> A -> bool) (x : A) (l : list A) : list A :=
  match l with
  | [] => [x]
  | y :: t => if less y x then y :: insertStable less x t else x :: y :: t
  end.

Definition SliceStable {A : Type} (less : A -> A -> bool) (l : list A) : list A :=
  fold_right (insertStable less) [] l.

Record missingTerminatorStatement : Type := {
  Index : Z;
  ItemStatement : gostring
}.

Record sqlHeuristicStatement : Type := {
  Text : gostring;
  Terminated : bool;
  FullwidthTerminator : bool
}.

(** [items[0].Index], read only where [len(items) > 0]. *)
Definition firstIndex (its : list missingTerminatorStatement) : Z :=
  match its with
  | it :: _ => Index it
  | [] => 0
  end.

Definition normalizeStatementWithTerminator (raw : gostring) : gostring :=
  let trimmed := TrimSpace raw in
  if isEmpty trimmed then [] else trimmed.

Definition joinIndices (its : list missingTerminatorStatement) : string :=
  String.concat "、" (map (fun it => Itoa (Index it)) its).

Definition buildMissingTerminatorIssueMessageWithSubject
    (its : list missingTerminatorStatement) (subject : string) : string :=
  match its with
  | [] => "多条 " +:+ subject +:+ " 语句疑似缺少结束符（;）"
  | [it] => "第 " +:+ Itoa (Index it) +:+ " 条 " +:+ subject +:+ " 语句疑似缺少结束符（;）"
  | _ => "第 " +:+ joinIndices its +:+ " 条 " +:+ subject +:+ " 语句疑似缺少结束符（;）"
  end.

Definition buildMissingTerminatorIssueMessage (its : list missingTerminatorStatement) : string :=
  buildMissingTerminatorIssueMessageWithSubject its "SQL".

Definition buildFullwidthTerminatorIssueMessageWithSubject
    (its : list missingTerminatorStatement) (subject : string) : string :=
  match its with
  | [] => "检测到中文结束符（；），请使用英文分号（;）"
  | [it] => "第 " +:+ Itoa (Index it) +:+ " 条 " +:+ subject +:+ " 语句使用了中文结束符（；）"
  | _ => "第 " +:+ joinIndices its +:+ " 条 " +:+ subject +:+ " 语句使用了中文结束符（；）"
  end.

Definition buildFullwidthTerminatorIssueMessage (its : list missingTerminatorStatement) : string :=
  buildFullwidthTerminatorIssueMessageWithSubject its "SQL".

Definition buildMissingTerminatorStatementSnippet (its : list missingTerminatorStatement)
  : gostring :=
  Join (List.filter (fun l => negb (isEmpty l)) (map ItemStatement its)) [newline].

(** The closure [flush] of [splitSQLByLineStartHeuristicDetailed] on the
    pair of [statements] and [builder]. *)
Definition flushHeuristic (terminated fullwidthTerminator : bool)
    (st : list sqlHeuristicStatement * gostring) : list sqlHeuristicStatement * gostring :=
  let statement := TrimSpace (snd st) in
  if isEmpty statement then (fst st, [])
  else
    (fst st ++ [{| Text := statement; Terminated := terminated;
                   FullwidthTerminator := fullwidthTerminator |}], []).

(** One round of its loop over the lines. *)
Definition heuristicLine (st : list sqlHeuristicStatement * gostring) (rawLine : gostring)
  : list sqlHeuristicStatement * gostring :=
  let line := TrimSpace rawLine in
  if isEmpty line then st
  else if HasPrefix line (runes "--") || HasPrefix line (runes "#") then st
  else
    let st1 :=
      if negb (isEmpty (snd st)) && MatchString reStatementStart line
      then flushHeuristic false false st else st in
    let st2 :=
      if negb (isEmpty (snd st1)) then (fst st1, snd st1 ++ [newline]) else st1 in
    let st3 := (fst st2, snd st2 ++ line) in
    let (terminated, fullwidthTerminator) := detectLineTerminator line in
    if terminated then flushHeuristic true fullwidthTerminator st3 else st3.

Definition splitSQLByLineStartHeuristicDetailed (content : gostring)
  : list sqlHeuristicStatement :=
  let normalized := ReplaceAll (ReplaceAll content [13; 10] [newline]) [13] [newline] in
  let lines := Split normalized newline in
  fst (flushHeuristic false false (fold_left heuristicLine lines ([], []))).

Definition splitSQLByLineStartHeuristic (content : gostring) : list gostring :=
  List.filter (fun t => negb (isEmpty t))
    (map (fun it => TrimSpace (Text it)) (splitSQLByLineStartHeuristicDetailed content)).

Definition hasLikelyMergedStatements (statements : list gostring) : bool :=
  existsb
    (fun statement =>
       let normalized := TrimSpace (stripCommentsAndStrings statement) in
       if isEmpty normalized then false
       else
         let allStarts := FindAllCount reStatementStart normalized in
         let hardStarts := FindAllCount reHardStatementStart normalized in
         Nat.leb 2 hardStarts || (Nat.leb 1 hardStarts && Nat.leb 2 allStarts))
    statements.

(** [for idx, statement := range detailed] collecting the statements that
    satisfy [pick] and are not blank, under their 1-based position. *)
Fixpoint collectStatements (pick : sqlHeuristicStatement -> bool) (idx : nat)
    (detailed : list sqlHeuristicStatement) : list missingTerminatorStatement :=
  match detailed with
  | [] => []
  | statement :: rest =>
      if negb (pick statement) then collectStatements pick (S idx) rest
      else
        let normalizedStatement := normalizeStatementWithTerminator (Text statement) in
        if isEmpty normalizedStatement then collectStatements pick (S idx) rest
        else
          {| Index := Z.of_nat idx + 1; ItemStatement := normalizedStatement |}
            :: collectStatements pick (S idx) rest
  end.

Definition detectFullwidthTerminatorStatements (content : gostring) (containsRoutine : bool)
  : list missingTerminatorStatement :=
  if containsRoutine then []
  else
    let detailed := splitSQLByLineStartHeuristicDetailed content in
    if Nat.eqb (length detailed) 0 then []
    else collectStatements FullwidthTerminator O detailed.

Definition excludeMissingTerminatorStatements
    (missing excludes : list missingTerminatorStatement) : list missingTerminatorStatement :=
  if Nat.eqb (length missing) 0 || Nat.eqb (length excludes) 0 then missing
  else
    let excluded : gset Z := list_to_set (map Index excludes) in
    List.filter (fun it => negb (bool_decide (Index it ∈ excluded))) missing.

(** The ASCII part of the Unicode case tables, enough to run the analyzers
    on scripts whose letters are ASCII. *)
Definition asciiToUpper (r : rune) : rune :=
  if (97 <=? r) && (r <=? 122) then r - 32 else r.
Definition asciiToLower (r : rune) : rune :=
  if (65 <=? r) && (r <=? 90) then r + 32 else r.

Definition mkIssue (idx : Z) (level : IssueLevel) (rule message suggestion : string)
    (statement : gostring) : Issue :=
  {| StatementIndex := idx; Level := level; Rule := rule; Message := message;
     Suggestion := suggestion; Statement := statement |}.

(** One round of the counting loop over the issues. *)
Definition countIssue (summary : Summary) (issue : Issue) : Summary :=
  match Level issue with
  | LevelError =>
      {| StatementCount := StatementCount summary; ErrorCount := ErrorCount summary + 1;
         WarningCount := WarningCount summary; InfoCount := InfoCount summary |}
  | LevelWarning =>
      {| StatementCount := StatementCount summary; ErrorCount := ErrorCount summary;
         WarningCount := WarningCount summary + 1; InfoCount := InfoCount summary |}
  | LevelInfo =>
      {| StatementCount := StatementCount summary; ErrorCount := ErrorCount summary;
         WarningCount := WarningCount summary; InfoCount := InfoCount summary + 1 |}
  end.

Definition summarizeIssues (statementCount : Z) (issues : list Issue) : Summary :=
  fold_left countIssue issues
    {| StatementCount := statementCount; ErrorCount := 0; WarningCount := 0; InfoCount := 0 |}.

Definition buildAdvice (summary : Summary) : list string :=
  (if 0 <? ErrorCount summary then ["存在高风险语句，建议阻断自动执行并人工复核"] else [])
  ++ (if 0 <? WarningCount summary then ["存在中风险项，建议补充执行计划与回滚预案"] else [])
  ++ (if (ErrorCount summary =? 0) && (WarningCount summary =? 0)
      then ["未发现明显高风险模式，仍建议做一次业务语义抽样复查"] else []).

(** The issue raised for a blank script; the MySQL and the PostgreSQL
    analyzer word it alike, the MongoDB analyzer differently. *)
Definition emptyInputIssue (message suggestion : string) : Issue :=
  mkIssue 0 LevelError "empty_input" message suggestion [].

Definition sqlEmptyInputIssue : Issue :=
  emptyInputIssue "SQL 内容为空" "请上传 SQL 文件或粘贴 SQL 语句后再检查".

Definition mongoEmptyInputIssue : Issue :=
  emptyInputIssue "脚本内容为空" "请上传脚本或粘贴 Mongo 操作语句后重试".

(** The closure [ruleEnabled] of [AnalyzeSQLWithOptions]. *)
Definition ruleEnabled (rule : string) : M bool :=
  let* isNil := mapIsNil in
  if isNil then ret true
  else
    let* found := mapFound rule in
    ret (negb found).

(** The closure [addIssue]; [issues] is the captured slice. *)
Definition addIssue (issue : Issue) (issues : list Issue) : M (list Issue) :=
  let* enabled := ruleEnabled (Rule issue) in
  ret (if enabled then issues ++ [issue] else issues).

(** A run of statements [if cond { addIssue(issue) }], in order. *)
Fixpoint addIssuesWhen (checks : list (bool * Issue)) (issues : list Issue)
  : M (list Issue) :=
  match checks with
  | [] => ret issues
  | (cond, issue) :: rest =>
      let* issues' := (if cond then addIssue issue issues else ret issues) in
      addIssuesWhen rest issues'
  end.

(** The variables the loop over the statements updates. *)
Record ruleScan : Type := {
  scanIssues : list Issue;
  containsRiskWrite : bool;
  hasBegin : bool;
  hasCommit : bool
}.

Section Analyzers.

Variables unicode_ToUpper unicode_ToLower : rune -> rune.

(** [strings.ToUpper], [strings.ToLower] *)
Definition ToUpper (s : gostring) : gostring := map unicode_ToUpper s.
Definition ToLower (s : gostring) : gostring := map unicode_ToLower s.

Definition detectMissingTerminatorStatements (content : gostring)
    (statements : list gostring) (containsRoutine : bool) : list missingTerminatorStatement :=
  if containsRoutine then []
  else
    let normalized := TrimSpace (stripCommentsAndStrings content) in
    if isEmpty normalized then []
    else if Contains (ToUpper normalized) (runes "DELIMITER ") then []
    else if hasLikelyMergedStatements statements then
      let detailed := splitSQLByLineStartHeuristicDetailed content in
      if Nat.leb (length detailed) 1 then []
      else collectStatements (fun statement => negb (Terminated statement)) O detailed
    else if Nat.leb 1 (length statements) && negb (hasStatementTerminatorSuffix normalized) then
      let last := normalizeStatementWithTerminator (List.last statements []) in
      if isEmpty last then []
      else [{| Index := Z.of_nat (length statements); ItemStatement := last |}]
    else [].

(** The rule checks of one statement of [AnalyzeSQLWithOptions], in source
    order; [i] is the 0-based position of the statement. *)
Definition sqlStatementChecks (i : nat) (stmt upper : gostring) : list (bool * Issue) :=
  let idx := Z.of_nat i + 1 in
  [ (MatchString reDropObj upper,
     mkIssue idx LevelError "dangerous_drop" "检测到 DROP 高风险语句"
       "生产建议禁用 DROP；确需执行请先做完整备份并审批" stmt);
    (MatchString reTruncate upper,
     mkIssue idx LevelError "dangerous_truncate" "检测到 TRUNCATE 语句"
       "TRUNCATE 回滚代价高，请确认窗口期与恢复方案" stmt);
    (MatchString reAlterDropCol upper,
     mkIssue idx LevelWarning "alter_drop_column" "检测到 ALTER TABLE DROP COLUMN"
       "请确认上下游代码兼容，并提前完成历史数据归档" stmt);
    (MatchString reUpdateNoWhere upper && negb (Contains upper (runes " WHERE ")),
     mkIssue idx LevelError "update_without_where" "UPDATE 缺少 WHERE 条件"
       "请添加精确 WHERE 条件，避免全表更新" stmt);
    (MatchString reDeleteNoWhere upper && negb (Contains upper (runes " WHERE ")),
     mkIssue idx LevelError "delete_without_where" "DELETE 缺少 WHERE 条件"
       "请添加 WHERE 条件，或改为分批删除并保留回滚点" stmt);
    (MatchString reWhereOneEqOne upper,
     mkIssue idx LevelWarning "where_1_eq_1" "检测到 WHERE 1=1，可能导致条件失效"
       "请核查动态 SQL 拼接逻辑，避免误更新/误删除" stmt);
    (MatchString reSelectStar upper,
     mkIssue idx LevelWarning "select_star" "SELECT * 可能带来性能和兼容风险"
       "建议显式列出字段，减少 I/O 并降低结构变更影响" stmt);
    (MatchString reSelect upper && negb (MatchString reLimit upper),
     mkIssue idx LevelInfo "select_without_limit" "SELECT 未检测到 LIMIT"
       "在线查询建议补充 LIMIT，避免大结果集拖慢库实例" stmt);
    (MatchString reLikeLeadWild stmt,
     mkIssue idx LevelWarning "like_leading_wildcard" "LIKE 前导通配符可能导致索引失效"
       "可考虑全文检索、倒排索引或改写匹配策略" stmt);
    (MatchString reOrderByRand upper,
     mkIssue idx LevelWarning "order_by_rand" "ORDER BY RAND() 在大表上性能差"
       "建议改用随机主键范围抽样或预生成随机池" stmt);
    (MatchString reSelectIntoOut upper,
     mkIssue idx LevelError "into_outfile" "检测到 INTO OUTFILE，存在数据外流风险"
       "请确认导出合规性、审计记录及数据库账号最小权限" stmt);
    (MatchString reInsertNoCols upper,
     mkIssue idx LevelInfo "insert_without_column_list" "INSERT 未显式字段列表"
       "建议 INSERT INTO t(col1,col2...) VALUES(...)，提高可维护性" stmt);
    (MatchString reCreateTable upper && negb (MatchString reCreateIfNE upper),
     mkIssue idx LevelInfo "create_table_without_if_not_exists"
       "CREATE TABLE 未使用 IF NOT EXISTS"
       "建议补充 IF NOT EXISTS，提升脚本重放幂等性" stmt) ].

(** One round of the loop over the statements of [AnalyzeSQLWithOptions]. *)
Definition sqlStatementRound (i : nat) (st : gostring) (acc : ruleScan) : M ruleScan :=
  let stmt := TrimSpace st in
  if isEmpty stmt then ret acc
  else
    let upper := ToUpper stmt in
    let* issues := addIssuesWhen (sqlStatementChecks i stmt upper) (scanIssues acc) in
    ret {| scanIssues := issues;
           containsRiskWrite := containsRiskWrite acc || MatchString reRiskWrite upper;
           hasBegin := hasBegin acc || MatchString reBeginTx upper;
           hasCommit := hasCommit acc || MatchString reCommitTx upper |}.

(** The checks of [AnalyzeSQLWithOptions] that precede the loop over the
    statements, in source order. *)
Definition sqlScriptChecks (content : gostring) (statements : list gostring)
    (containsRoutine : bool) : list (bool * Issue) :=
  let fullwidthTerminatorStatements :=
    detectFullwidthTerminatorStatements content containsRoutine in
  let missingTerminatorStatements :=
    excludeMissingTerminatorStatements
      (detectMissingTerminatorStatements content statements containsRoutine)
      fullwidthTerminatorStatements in
  [ (containsRoutine,
     mkIssue 0 LevelInfo "routine_definition_detected"
       "检测到存储过程/函数/触发器定义"
       "已按 DELIMITER 语法解析，请重点关注过程体中的写操作与权限控制" []);
    (Nat.ltb 0 (length fullwidthTerminatorStatements),
     mkIssue (firstIndex fullwidthTerminatorStatements) LevelError
       "fullwidth_statement_terminator"
       (buildFullwidthTerminatorIssueMessage fullwidthTerminatorStatements)
       "请将中文结束符（；）替换为英文半角分号（;），避免解析歧义"
       (buildMissingTerminatorStatementSnippet fullwidthTerminatorStatements));
    (Nat.ltb 0 (length missingTerminatorStatements),
     mkIssue (firstIndex missingTerminatorStatements) LevelError
       "missing_statement_terminator"
       (buildMissingTerminatorIssueMessage missingTerminatorStatements)
       "建议为每条语句补齐结束符，避免自动审查/执行阶段误拆分"
       (buildMissingTerminatorStatementSnippet missingTerminatorStatements));
    (Nat.ltb 60 (length statements),
     mkIssue 0 LevelWarning "too_many_statements"
       ("SQL 语句数量较多（" +:+ Itoa (Z.of_nat (length statements)) +:+ " 条）")
       "建议按业务模块拆分后分批审核，降低误判并方便回滚" []) ].

(** The check that follows the loop. *)
Definition sqlTransactionCheck (scan : ruleScan) (statements : list gostring)
  : list (bool * Issue) :=
  [ (containsRiskWrite scan && Nat.ltb 1 (length statements)
     && (negb (hasBegin scan) || negb (hasCommit scan)),
     mkIssue 0 LevelWarning "risky_writes_without_transaction"
       "检测到多条写语句但未发现完整事务边界"
       "建议用 BEGIN/COMMIT 包裹，保证批量变更一致性" []) ].

(** Lines 143 to 263 of [AnalyzeSQLWithOptions]: the slice [issues] as it
    stands when [sort.SliceStable] is reached. *)
Definition sqlEvaluate (content : gostring) (statements : list gostring)
    (containsRoutine : bool) : M (list Issue) :=
  let* issues :=
    addIssuesWhen (sqlScriptChecks content statements containsRoutine) [] in
  let* scan :=
    forRange sqlStatementRound O statements
      {| scanIssues := issues; containsRiskWrite := false; hasBegin := false;
         hasCommit := false |} in
  addIssuesWhen (sqlTransactionCheck scan statements) (scanIssues scan).

(** [now] is the reading of the clock, [time.Now().Format(time.RFC3339)]. *)
Definition AnalyzeSQLWithOptions (now : string) (content : gostring) : M CheckResponse :=
  let trimmed := TrimSpace content in
  if isEmpty trimmed then
    let* enabled := ruleEnabled "empty_input" in
    ret {| RulesVersion := rulesVersion; CheckedAt := now;
           ResponseSummary :=
             {| StatementCount := 0; ErrorCount := 1; WarningCount := 0; InfoCount := 0 |};
           Issues :=
             if enabled then [sqlEmptyInputIssue] else [];
           Advice := ["请输入待审核 SQL 后重试"] |}
  else
    let statements := splitSQLStatements content in
    let containsRoutine := MatchString reRoutineDefinition content in
    let* issues := sqlEvaluate content statements containsRoutine in
    let issues := SliceStable issueLess issues in
    let summary := fold_left countIssue issues
        {| StatementCount := Z.of_nat (length statements); ErrorCount := 0;
           WarningCount := 0; InfoCount := 0 |} in
    let advice :=
      buildAdvice summary
      ++ (if containsRoutine
          then ["检测到存储过程/函数定义，建议补充过程权限控制、异常处理与审计日志检查"]
          else []) in
    ret {| RulesVersion := rulesVersion; CheckedAt := now; ResponseSummary := summary;
           Issues := issues; Advice := advice |}.

Definition AnalyzeSQL (now : string) (content : gostring) : CheckResponse :=
  fst (AnalyzeSQLWithOptions now content None).

(* ===================================================================== *)
(** * Engine dispatch, PostgreSQL and MongoDB ([engine_analyzer.go]) *)
(* ===================================================================== *)

Definition DBEngine : Type := gostring.

Definition EngineMySQL : DBEngine := runes "mysql".
Definition EnginePostgreSQL : DBEngine := runes "postgresql".
Definition EngineMongoDB : DBEngine := runes "mongodb".

Definition postgresRulesVersion : string := "pg-v0.1".
Definition mongoRulesVersion : string := "mongo-v0.1".

Definition NormalizeEngine (raw : gostring) : DBEngine :=
  let trimmed := ToLower (TrimSpace raw) in
  if gostring_eqb trimmed (runes "pg") || gostring_eqb trimmed (runes "postgres")
     || gostring_eqb trimmed (runes "postgresql") then EnginePostgreSQL
  else if gostring_eqb trimmed (runes "mongo") || gostring_eqb trimmed (runes "mongodb")
  then EngineMongoDB
  else if gostring_eqb trimmed (runes "mysql") || gostring_eqb trimmed []
  then EngineMySQL
  else EngineMySQL.

(** The loop of [filterDisabledRules]; [filtered] is the slice built so far. *)
Fixpoint filterLoop (issues : list Issue) (filtered : list Issue) : M (list Issue) :=
  match issues with
  | [] => ret filtered
  | issue :: rest =>
      let* found := mapFound (Rule issue) in
      if found then filterLoop rest filtered
      else filterLoop rest (filtered ++ [issue])
  end.

Definition filterDisabledRules (result : CheckResponse) : M CheckResponse :=
  let* isNil := mapIsNil in
  let* n := mapLen in
  if isNil || (n =? 0) || Nat.eqb (length (Issues result)) 0 then ret result
  else
    let* filtered := filterLoop (Issues result) [] in
    ret {| RulesVersion := RulesVersion result; CheckedAt := CheckedAt result;
           ResponseSummary := ResponseSummary result; Issues := filtered;
           Advice := Advice result |}.

(** A run of statements [if cond { issues = append(issues, issue) }]. *)
Fixpoint appendIssuesWhen (checks : list (bool * Issue)) (issues : list Issue)
  : list Issue :=
  match checks with
  | [] => issues
  | (cond, issue) :: rest =>
      appendIssuesWhen rest (if cond then issues ++ [issue] else issues)
  end.

(** [for i, x := range l { s = body(i, x, s) }] without access to the map. *)
Fixpoint foldRange {A S : Type} (body : nat -> A -> S -> S) (i : nat) (l : list A) (s : S)
  : S :=
  match l with
  | [] => s
  | x :: rest => foldRange body (Datatypes.S i) rest (body i x s)
  end.

Definition zeroSummary : Summary :=
  {| StatementCount := 0; ErrorCount := 0; WarningCount := 0; InfoCount := 0 |}.

(** The rule checks of one statement of [AnalyzePostgresWithOptions]. *)
Definition pgStatementChecks (i : nat) (stmt upperTrim : gostring) : list (bool * Issue) :=
  let idx := Z.of_nat i + 1 in
  [ (MatchString reDropObj upperTrim,
     mkIssue idx LevelError "pg_dangerous_drop" "检测到 DROP 高风险语句"
       "生产建议禁用 DROP；确需执行请先备份并审批" stmt);
    (MatchString reTruncate upperTrim,
     mkIssue idx LevelError "pg_dangerous_truncate" "检测到 TRUNCATE 语句"
       "TRUNCATE 风险高，请确认恢复方案" stmt);
    (MatchString reUpdateNoWhere upperTrim && negb (Contains upperTrim (runes " WHERE ")),
     mkIssue idx LevelError "pg_update_without_where" "UPDATE 缺少 WHERE 条件"
       "请添加精确 WHERE 条件，避免全表更新" stmt);
    (MatchString reDeleteNoWhere upperTrim && negb (Contains upperTrim (runes " WHERE ")),
     mkIssue idx LevelError "pg_delete_without_where" "DELETE 缺少 WHERE 条件"
       "请添加 WHERE 条件，或改为分批删除" stmt);
    (MatchString reSelectStar upperTrim,
     mkIssue idx LevelWarning "pg_select_star" "SELECT * 可能带来性能和兼容风险"
       "建议显式列出字段" stmt);
    (MatchString reSelect upperTrim && negb (MatchString reLimit upperTrim),
     mkIssue idx LevelInfo "pg_select_without_limit" "SELECT 未检测到 LIMIT"
       "在线查询建议补充 LIMIT" stmt);
    (MatchString rePostgresLikeLeadWild stmt,
     mkIssue idx LevelWarning "pg_like_leading_wildcard"
       "LIKE/ILIKE 前导通配符可能导致索引失效" "可考虑全文检索或改写匹配策略" stmt);
    (HasPrefix upperTrim (runes "CREATE INDEX")
     && negb (Contains upperTrim (runes " CONCURRENTLY ")),
     mkIssue idx LevelWarning "pg_create_index_without_concurrently"
       "CREATE INDEX 未使用 CONCURRENTLY"
       "在线变更建议使用 CONCURRENTLY 以降低锁影响" stmt) ].

Definition pgStatementRound (i : nat) (st : gostring) (acc : ruleScan) : ruleScan :=
  let stmt := TrimSpace st in
  if isEmpty stmt then acc
  else
    let upper := ToUpper stmt in
    let upperTrim := TrimSpace upper in
    {| scanIssues := appendIssuesWhen (pgStatementChecks i stmt upperTrim) (scanIssues acc);
       containsRiskWrite := containsRiskWrite acc || MatchString reRiskWrite upperTrim;
       hasBegin := hasBegin acc || MatchString reBeginTx upperTrim;
       hasCommit := hasCommit acc || MatchString reCommitTx upperTrim |}.

(** The checks of [AnalyzePostgresWithOptions] that precede the loop over
    the statements, in source order. *)
Definition pgScriptChecks (content : gostring) (statements : list gostring)
  : list (bool * Issue) :=
  let fullwidthTerminatorStatements := detectFullwidthTerminatorStatements content false in
  let missingTerminatorStatements :=
    excludeMissingTerminatorStatements
      (detectMissingTerminatorStatements content statements false)
      fullwidthTerminatorStatements in
  [ (Nat.ltb 0 (length fullwidthTerminatorStatements),
     mkIssue (firstIndex fullwidthTerminatorStatements) LevelError
       "fullwidth_statement_terminator"
       (buildFullwidthTerminatorIssueMessage fullwidthTerminatorStatements)
       "请将中文结束符（；）替换为英文半角分号（;），避免解析歧义"
       (buildMissingTerminatorStatementSnippet fullwidthTerminatorStatements));
    (Nat.ltb 0 (length missingTerminatorStatements),
     mkIssue (firstIndex missingTerminatorStatements) LevelError
       "missing_statement_terminator"
       (buildMissingTerminatorIssueMessage missingTerminatorStatements)
       "建议为每条语句补齐结束符，避免自动审查/执行阶段误拆分"
       (buildMissingTerminatorStatementSnippet missingTerminatorStatements));
    (Nat.ltb 80 (length statements),
     mkIssue 0 LevelWarning "too_many_statements"
       ("SQL 语句数量较多（" +:+ Itoa (Z.of_nat (length statements)) +:+ " 条）")
       "建议分批审核与执行，降低发布风险" []) ].

(** The check that follows the loop. *)
Definition pgTransactionCheck (scan : ruleScan) (statements : list gostring)
  : list (bool * Issue) :=
  [ (containsRiskWrite scan && Nat.ltb 1 (length statements)
     && (negb (hasBegin scan) || negb (hasCommit scan)),
     mkIssue 0 LevelWarning "risky_writes_without_transaction"
       "检测到多条写语句但未发现完整事务边界"
       "建议使用 BEGIN/COMMIT 包裹，保证一致性" []) ].

(** Lines 107 to 194 of [AnalyzePostgresWithOptions]: the slice [issues] as
    it stands when [sort.SliceStable] is reached. *)
Definition pgEvaluate (content : gostring) (statements : list gostring) : list Issue :=
  let issues := appendIssuesWhen (pgScriptChecks content statements) [] in
  let scan :=
    foldRange pgStatementRound O statements
      {| scanIssues := issues; containsRiskWrite := false; hasBegin := false;
         hasCommit := false |} in
  appendIssuesWhen (pgTransactionCheck scan statements) (scanIssues scan).

Definition AnalyzePostgresWithOptions (now : string) (content : gostring) : M CheckResponse :=
  let trimmed := TrimSpace content in
  if isEmpty trimmed then
    let issues := [sqlEmptyInputIssue] in
    filterDisabledRules
      {| RulesVersion := postgresRulesVersion; CheckedAt := now;
         ResponseSummary := summarizeIssues 0 issues; Issues := issues;
         Advice := ["请输入待审核 SQL 后重试"] |}
  else
    let statements := splitSQLStatements content in
    let issues := SliceStable issueLess (pgEvaluate content statements) in
    let* result :=
      filterDisabledRules
        {| RulesVersion := postgresRulesVersion; CheckedAt := now;
           ResponseSummary := zeroSummary; Issues := issues; Advice := [] |} in
    let summary := summarizeIssues (Z.of_nat (length statements)) (Issues result) in
    ret {| RulesVersion := RulesVersion result; CheckedAt := CheckedAt result;
           ResponseSummary := summary; Issues := Issues result;
           Advice := buildAdvice summary |}.

Record mongoOperation : Type := {
  OpText : gostring;
  OpTerminated : bool;
  OpFullwidthTerminator : bool
}.

(** The variables of [parseMongoOperations]. *)
Record mongoScan : Type := {
  mItems : list mongoOperation;
  mBuilder : gostring;
  mSingle : bool;
  mDouble : bool;
  mBacktick : bool;
  mLine : bool;
  mBlock : bool;
  parenDepth : Z;
  braceDepth : Z;
  bracketDepth : Z
}.

Definition mongoSetOutput (its : list mongoOperation) (b : gostring) (st : mongoScan)
  : mongoScan :=
  {| mItems := its; mBuilder := b; mSingle := mSingle st; mDouble := mDouble st;
     mBacktick := mBacktick st; mLine := mLine st; mBlock := mBlock st;
     parenDepth := parenDepth st; braceDepth := braceDepth st;
     bracketDepth := bracketDepth st |}.

Definition mongoSetComments (line block : bool) (st : mongoScan) : mongoScan :=
  {| mItems := mItems st; mBuilder := mBuilder st; mSingle := mSingle st;
     mDouble := mDouble st; mBacktick := mBacktick st; mLine := line; mBlock := block;
     parenDepth := parenDepth st; braceDepth := braceDepth st;
     bracketDepth := bracketDepth st |}.

Definition mongoSetQuotes (sq dq bt : bool) (st : mongoScan) : mongoScan :=
  {| mItems := mItems st; mBuilder := mBuilder st; mSingle := sq; mDouble := dq;
     mBacktick := bt; mLine := mLine st; mBlock := mBlock st;
     parenDepth := parenDepth st; braceDepth := braceDepth st;
     bracketDepth := bracketDepth st |}.

Definition mongoSetDepths (p b k : Z) (st : mongoScan) : mongoScan :=
  {| mItems := mItems st; mBuilder := mBuilder st; mSingle := mSingle st;
     mDouble := mDouble st; mBacktick := mBacktick st; mLine := mLine st;
     mBlock := mBlock st; parenDepth := p; braceDepth := b; bracketDepth := k |}.

(** The closure [flush] of [parseMongoOperations]. *)
Definition mongoFlush (terminated fullwidthTerminator : bool) (st : mongoScan) : mongoScan :=
  let statement := TrimSpace (mBuilder st) in
  if isEmpty statement then mongoSetOutput (mItems st) [] st
  else
    mongoSetOutput
      (mItems st ++ [{| OpText := statement; OpTerminated := terminated;
                        OpFullwidthTerminator := fullwidthTerminator |}]) [] st.

Definition mongoUnquoted (st : mongoScan) : bool :=
  negb (mSingle st) && negb (mDouble st) && negb (mBacktick st).

Definition depthsZero (st : mongoScan) : bool :=
  (parenDepth st =? 0) && (braceDepth st =? 0) && (bracketDepth st =? 0).

(** The [switch ch] over the six bracket runes. *)
Definition trackDepth (ch : rune) (st : mongoScan) : mongoScan :=
  let '(p, b, k) := (parenDepth st, braceDepth st, bracketDepth st) in
  if ch =? 40 then mongoSetDepths (p + 1) b k st
  else if ch =? 41 then (if 0 <? p then mongoSetDepths (p - 1) b k st else st)
  else if ch =? 123 then mongoSetDepths p (b + 1) k st
  else if ch =? 125 then (if 0 <? b then mongoSetDepths p (b - 1) k st else st)
  else if ch =? 91 then mongoSetDepths p b (k + 1) st
  else if ch =? 93 then (if 0 <? k then mongoSetDepths p b (k - 1) st else st)
  else st.

(** One round of the loop over the runes. *)
Definition mongoStep (rs : gostring) (i : nat) (st : mongoScan) : nat * mongoScan :=
  let ch := runeAt rs i in
  let next := runeAt rs (i + 1) in
  if mLine st then
    if ch =? newline then
      let st1 := mongoSetComments false (mBlock st) st in
      (i, if mongoUnquoted st1 && depthsZero st1 then mongoFlush false false st1 else st1)
    else (i, st)
  else if mBlock st then
    if (ch =? 42) && (next =? 47)
    then (Datatypes.S i, mongoSetComments (mLine st) false st)
    else (i, st)
  else if mongoUnquoted st && (ch =? 47) && (next =? 47) then
    (Datatypes.S i, mongoSetComments true (mBlock st) st)
  else if mongoUnquoted st && (ch =? 47) && (next =? 42) then
    (Datatypes.S i, mongoSetComments (mLine st) true st)
  else
    let sq :=
      if (ch =? 39) && negb (mDouble st) && negb (mBacktick st)
         && negb (isEscapedByBackslash rs i)
      then negb (mSingle st) else mSingle st in
    let dq :=
      if (ch =? 34) && negb sq && negb (mBacktick st)
         && negb (isEscapedByBackslash rs i)
      then negb (mDouble st) else mDouble st in
    let bt :=
      if (ch =? 96) && negb sq && negb dq
      then negb (mBacktick st) else mBacktick st in
    let st1 := mongoSetQuotes sq dq bt st in
    if mongoUnquoted st1 then
      if isFullwidthSemicolon ch && depthsZero st1 then (i, mongoFlush true true st1)
      else
        let st2 := trackDepth ch st1 in
        if (ch =? semicolon) && depthsZero st2 then (i, mongoFlush true false st2)
        else if (ch =? newline) && depthsZero st2 then (i, mongoFlush false false st2)
        else (i, mongoSetOutput (mItems st2) (mBuilder st2 ++ [ch]) st2)
    else (i, mongoSetOutput (mItems st1) (mBuilder st1 ++ [ch]) st1).

Definition mongoInit : mongoScan :=
  {| mItems := []; mBuilder := []; mSingle := false; mDouble := false;
     mBacktick := false; mLine := false; mBlock := false;
     parenDepth := 0; braceDepth := 0; bracketDepth := 0 |}.

Definition parseMongoOperations (content : gostring) : list mongoOperation :=
  let normalized := ReplaceAll (ReplaceAll content [13; 10] [newline]) [13] [newline] in
  mItems (mongoFlush false false
            (forIndex (length normalized) (length normalized) (mongoStep normalized) O
               mongoInit)).

Definition compactScriptText (input : gostring) : gostring :=
  List.filter (fun r => negb ((r =? 32) || (r =? 9) || (r =? 10) || (r =? 13)))
    (TrimSpace input).

(** [for i, op := range mongoOps] collecting the operations that satisfy
    [pick] and are not blank, under their 1-based position. *)
Fixpoint collectOperations (pick : mongoOperation -> bool) (i : nat)
    (ops : list mongoOperation) : list missingTerminatorStatement :=
  match ops with
  | [] => []
  | op :: rest =>
      if negb (pick op) then collectOperations pick (S i) rest
      else
        let statement := normalizeStatementWithTerminator (OpText op) in
        if isEmpty statement then collectOperations pick (S i) rest
        else
          {| Index := Z.of_nat i + 1; ItemStatement := statement |}
            :: collectOperations pick (S i) rest
  end.

(** The rule checks of one operation of [AnalyzeMongoWithOptions]. *)
Definition mongoOperationChecks (i : nat) (op : mongoOperation) (compact : gostring)
  : list (bool * Issue) :=
  let idx := Z.of_nat i + 1 in
  let statement := TrimSpace (OpText op) in
  [ (Contains compact (runes ".updatemany({},"),
     mkIssue idx LevelError "mongo_update_many_without_filter"
       "updateMany 使用空过滤条件，可能全量更新" "请补充明确过滤条件" statement);
    (Contains compact (runes ".deletemany({})"),
     mkIssue idx LevelError "mongo_delete_many_without_filter"
       "deleteMany 使用空过滤条件，可能全量删除" "请补充明确过滤条件" statement);
    (Contains compact (runes ".find(") && negb (Contains compact (runes ".limit(")),
     mkIssue idx LevelInfo "mongo_find_without_limit" "find 查询未设置 limit"
       "在线查询建议加 limit，避免返回超大结果集" statement);
    (Contains compact (runes "$where"),
     mkIssue idx LevelWarning "mongo_where_operator"
       "检测到 $where，可能引入执行与安全风险"
       "优先使用结构化查询条件，避免 JS 表达式" statement);
    (Contains compact (runes ".aggregate(")
     && (Contains compact (runes "$out") || Contains compact (runes "$merge")),
     mkIssue idx LevelWarning "mongo_aggregate_out_merge"
       "聚合中使用 $out/$merge，存在数据覆盖风险"
       "请确认目标集合、幂等策略与回滚预案" statement) ].

Definition mongoOperationRound (i : nat) (op : mongoOperation) (issues : list Issue)
  : list Issue :=
  let compact := compactScriptText (ToLower (OpText op)) in
  if isEmpty compact then issues
  else appendIssuesWhen (mongoOperationChecks i op compact) issues.

(** The two item lists of [AnalyzeMongoWithOptions]. *)
Definition mongoFullwidthItems (mongoOps : list mongoOperation)
  : list missingTerminatorStatement :=
  collectOperations OpFullwidthTerminator O mongoOps.

Definition mongoMissingItems (mongoOps : list mongoOperation)
  : list missingTerminatorStatement :=
  if Nat.ltb 1 (length mongoOps)
  then collectOperations (fun op => negb (OpTerminated op)) O mongoOps
  else [].

(** The two terminator checks of [AnalyzeMongoWithOptions]. *)
Definition mongoScriptChecks (mongoOps : list mongoOperation) : list (bool * Issue) :=
  let fullwidthItems := mongoFullwidthItems mongoOps in
  let missingItems := mongoMissingItems mongoOps in
  [ (Nat.ltb 0 (length fullwidthItems),
     mkIssue (firstIndex fullwidthItems) LevelError "fullwidth_statement_terminator"
       (buildFullwidthTerminatorIssueMessageWithSubject fullwidthItems "Mongo")
       "请将中文结束符（；）替换为英文半角分号（;），避免解析歧义"
       (buildMissingTerminatorStatementSnippet fullwidthItems));
    (Nat.ltb 1 (length mongoOps) && Nat.ltb 0 (length missingItems),
     mkIssue (firstIndex missingItems) LevelError "mongo_missing_statement_terminator"
       (buildMissingTerminatorIssueMessageWithSubject missingItems "Mongo")
       "建议为每条 Mongo 语句补齐结束符 ;，避免脚本解析或执行阶段误拆分"
       (buildMissingTerminatorStatementSnippet missingItems)) ].

(** Lines 244 to 314 of [AnalyzeMongoWithOptions]: the slice [issues] as it
    stands when [sort.SliceStable] is reached. *)
Definition mongoEvaluate (mongoOps : list mongoOperation) : list Issue :=
  let issues := appendIssuesWhen (mongoScriptChecks mongoOps) [] in
  foldRange mongoOperationRound O mongoOps issues.

Definition AnalyzeMongoWithOptions (now : string) (content : gostring) : M CheckResponse :=
  let trimmed := TrimSpace content in
  if isEmpty trimmed then
    let issues := [mongoEmptyInputIssue] in
    filterDisabledRules
      {| RulesVersion := mongoRulesVersion; CheckedAt := now;
         ResponseSummary := summarizeIssues 0 issues; Issues := issues;
         Advice := ["请输入待审核脚本后重试"] |}
  else
    let mongoOps := parseMongoOperations content in
    let issues := SliceStable issueLess (mongoEvaluate mongoOps) in
    let* result :=
      filterDisabledRules
        {| RulesVersion := mongoRulesVersion; CheckedAt := now;
           ResponseSummary := zeroSummary; Issues := issues; Advice := [] |} in
    let summary := summarizeIssues (Z.of_nat (length mongoOps)) (Issues result) in
    ret {| RulesVersion := RulesVersion result; CheckedAt := CheckedAt result;
           ResponseSummary := summary; Issues := Issues result;
           Advice := buildAdvice summary |}.

Definition AnalyzeByEngine (now : string) (engine : DBEngine) (content : gostring)
  : M CheckResponse :=
  let normalized := NormalizeEngine engine in
  if gostring_eqb normalized EnginePostgreSQL then AnalyzePostgresWithOptions now content
  else if gostring_eqb normalized EngineMongoDB then AnalyzeMongoWithOptions now content
  else AnalyzeSQLWithOptions now content.

(* ===================================================================== *)
(** * The check request ([main.go]) *)
(* ===================================================================== *)

(** What [handleCheck] does between decoding the request and writing the
    response: [Forced] is the slice it logs, the other fields are those of
    [checkAPIResponse] that do not come from the history store. *)
Record checkOutcome : Type := {
  Forced : list string;
  HistoryWarning : string;
  DisabledRules : list string;
  Response : CheckResponse
}.

Definition handleCheck (order : list string) (now : string) (engine : DBEngine)
    (sqlContent : gostring) : M checkOutcome :=
  let* forcedRules := enforceAlwaysEnabledRules order in
  let* result := AnalyzeByEngine now engine sqlContent in
  let* disabledRulesSlice := disabledRulesToSlice in
  ret {| Forced := forcedRules;
         HistoryWarning :=
           if Nat.ltb 0 (length forcedRules)
           then "以下基础规则不可关闭，已自动启用：" +:+ String.concat ", " forcedRules
           else "";
         DisabledRules := disabledRulesSlice;
         Response := result |}.

End Analyzers.

(* ===================================================================== *)
(** * The rule catalogues ([analyzer.go], [engine_analyzer.go]) *)
(* ===================================================================== *)

Module RuleDefinition.

Record t : Type := {
  Code : string;
  Level : IssueLevel;
  Description : string;
  Category : string
}.

End RuleDefinition.

(** The composite literal [{Code: c, Level: l, Category: g, Description: d}]. *)
Definition ruleDef (code : string) (level : IssueLevel) (category description : string)
  : RuleDefinition.t :=
  {| RuleDefinition.Code := code; RuleDefinition.Level := level;
     RuleDefinition.Description := description; RuleDefinition.Category := category |}.

Definition BuiltInRules : list RuleDefinition.t :=
  [ ruleDef "empty_input" LevelError "输入校验" "输入为空";
    ruleDef "too_many_statements" LevelWarning "变更规模" "语句数过多，建议拆批执行";
    ruleDef "missing_statement_terminator" LevelError "脚本语法"
      "多条 SQL 场景疑似缺少结束符";
    ruleDef "fullwidth_statement_terminator" LevelError "脚本语法"
      "检测到中文结束符（；）";
    ruleDef "routine_definition_detected" LevelInfo "脚本语法"
      "检测到存储过程/函数/触发器定义，已按 DELIMITER 语法解析";
    ruleDef "dangerous_drop" LevelError "高危DDL" "检测到 DROP 高危对象删除";
    ruleDef "dangerous_truncate" LevelError "高危DDL" "检测到 TRUNCATE 全表清理";
    ruleDef "alter_drop_column" LevelWarning "DDL兼容"
      "检测到 DROP COLUMN 结构破坏性变更";
    ruleDef "update_without_where" LevelError "DML安全" "UPDATE 无 WHERE";
    ruleDef "delete_without_where" LevelError "DML安全" "DELETE 无 WHERE";
    ruleDef "where_1_eq_1" LevelWarning "条件有效性" "WHERE 1=1 可能掩盖条件缺失";
    ruleDef "select_star" LevelWarning "查询规范" "SELECT * 可维护性与性能风险";
    ruleDef "select_without_limit" LevelInfo "查询规范" "SELECT 未设置 LIMIT";
    ruleDef "like_leading_wildcard" LevelWarning "查询性能"
      "LIKE 前导 % 可能导致索引失效";
    ruleDef "order_by_rand" LevelWarning "查询性能" "ORDER BY RAND 大表开销高";
    ruleDef "into_outfile" LevelError "数据安全" "INTO OUTFILE 存在数据外流风险";
    ruleDef "insert_without_column_list" LevelInfo "可维护性" "INSERT 未显式列清单";
    ruleDef "create_table_without_if_not_exists" LevelInfo "幂等性"
      "CREATE TABLE 未使用 IF NOT EXISTS";
    ruleDef "risky_writes_without_transaction" LevelWarning "事务一致性"
      "多条写语句未显式事务包裹" ].

Definition BuiltInPostgresRules : list RuleDefinition.t :=
  [ ruleDef "empty_input" LevelError "输入校验" "输入为空";
    ruleDef "too_many_statements" LevelWarning "变更规模" "语句数过多，建议拆批执行";
    ruleDef "missing_statement_terminator" LevelError "脚本语法"
      "多条 SQL 场景疑似缺少结束符";
    ruleDef "fullwidth_statement_terminator" LevelError "脚本语法"
      "检测到中文结束符（；）";
    ruleDef "pg_dangerous_drop" LevelError "高危DDL" "检测到 DROP 高危对象删除";
    ruleDef "pg_dangerous_truncate" LevelError "高危DDL" "检测到 TRUNCATE 全表清理";
    ruleDef "pg_update_without_where" LevelError "DML安全" "UPDATE 无 WHERE";
    ruleDef "pg_delete_without_where" LevelError "DML安全" "DELETE 无 WHERE";
    ruleDef "pg_select_star" LevelWarning "查询规范" "SELECT * 可维护性与性能风险";
    ruleDef "pg_select_without_limit" LevelInfo "查询规范" "SELECT 未设置 LIMIT";
    ruleDef "pg_like_leading_wildcard" LevelWarning "查询性能"
      "LIKE/ILIKE 前导 % 可能导致索引失效";
    ruleDef "pg_create_index_without_concurrently" LevelWarning "DDL并发"
      "CREATE INDEX 未使用 CONCURRENTLY";
    ruleDef "risky_writes_without_transaction" LevelWarning "事务一致性"
      "多条写语句未显式事务包裹" ].

Definition BuiltInMongoRules : list RuleDefinition.t :=
  [ ruleDef "empty_input" LevelError "输入校验" "输入为空";
    ruleDef "mongo_update_many_without_filter" LevelError "写入安全"
      "updateMany 使用空过滤条件";
    ruleDef "mongo_delete_many_without_filter" LevelError "写入安全"
      "deleteMany 使用空过滤条件";
    ruleDef "mongo_missing_statement_terminator" LevelError "脚本语法"
      "多条 Mongo 语句疑似缺少结束符 ;";
    ruleDef "fullwidth_statement_terminator" LevelError "脚本语法"
      "检测到中文结束符（；）";
    ruleDef "mongo_find_without_limit" LevelInfo "查询规范" "find 查询未设置 limit";
    ruleDef "mongo_where_operator" LevelWarning "查询安全"
      "使用 $where 可能导致执行风险";
    ruleDef "mongo_aggregate_out_merge" LevelWarning "数据流向"
      "聚合中使用 $out/$merge 需审慎" ].

Definition SupportedEngines : list DBEngine :=
  [EngineMySQL; EnginePostgreSQL; EngineMongoDB].

Section Catalogues.

Variable unicode_ToLower : rune -> rune.

Definition RulesForEngine (engine : DBEngine) : string * list RuleDefinition.t :=
  let normalized := NormalizeEngine unicode_ToLower engine in
  if gostring_eqb normalized EnginePostgreSQL
  then (postgresRulesVersion, BuiltInPostgresRules)
  else if gostring_eqb normalized EngineMongoDB
  then (mongoRulesVersion, BuiltInMongoRules)
  else (rulesVersion, BuiltInRules).

End Catalogues.

(** [splitMongoOperations] *)
Definition splitMongoOperations (content : gostring) : list gostring :=
  let ops := parseMongoOperations content in
  let items :=
    map OpText (List.filter (fun op => negb (isEmpty (TrimSpace (OpText op)))) ops) in
  if Nat.eqb (length items) 0 then [TrimSpace content] else items.

(* ===================================================================== *)
(** * History requests ([main.go]) and the history store ([storage.go]) *)
(* ===================================================================== *)

(** [sort.Slice(normalized, func(i, j) { return normalized[i] < normalized[j] })]:
    the ascending arrangement of the identifiers. *)
Fixpoint insertInt64 (x : Z) (l : list Z) : list Z :=
  match l with
  | [] => [x]
  | y :: t => if x <? y then x :: y :: t else y :: insertInt64 x t
  end.

Definition sortInt64 (l : list Z) : list Z := fold_right insertInt64 [] l.

(** The loop of [normalizeHistoryIDs]; [seen] is the map of the identifiers
    met so far and [normalized] the slice built so far. *)
Fixpoint normalizeLoop (ids : list Z) (seen : gset Z) (normalized : list Z) : list Z :=
  match ids with
  | [] => normalized
  | id :: rest =>
      if id <=? 0 then normalizeLoop rest seen normalized
      else if bool_decide (id ∈ seen) then normalizeLoop rest seen normalized
      else normalizeLoop rest ({[ id ]} ∪ seen) (normalized ++ [id])
  end.

(** The nil slice and the empty slice are both the empty list: the caller
    reads the length of the result only. *)
Definition normalizeHistoryIDs (ids : list Z) : list Z :=
  if Nat.eqb (length ids) 0 then []
  else sortInt64 (normalizeLoop ids ∅ []).

Section Paging.

(** [strconv.Atoi], with [None] for an error. *)
Variable strconv_Atoi : gostring -> option Z.

Definition parseIntWithDefault (raw : gostring) (defaultValue : Z) : Z :=
  let trimmed := TrimSpace raw in
  if isEmpty trimmed then defaultValue
  else
    match strconv_Atoi trimmed with
    | None => defaultValue
    | Some value => value
    end.

(** The limit and the offset that the GET branch of [handleHistoryList]
    hands to the history store, from the two query parameters. *)
Definition historyPage (rawLimit rawOffset : gostring) : Z * Z :=
  let limit := parseIntWithDefault rawLimit 20 in
  let offset := parseIntWithDefault rawOffset 0 in
  let limit := if limit <=? 0 then 20 else limit in
  let limit := if 100 <? limit then 100 else limit in
  let offset := if offset <? 0 then 0 else offset in
  (limit, offset).

End Paging.

(** [sqlQuote]. The quote is a one-byte character, so that replacing it in
    the runes of the text and in its bytes comes to the same. *)
Definition sqlQuote (input : gostring) : gostring :=
  let escaped := ReplaceAll input [39] [39; 39] in
  [39] ++ escaped ++ [39].


(* ===================================================================== *)
(** * Vocabulary of the properties *)
(* ===================================================================== *)

(** The keys of the caller's map. *)
Definition requested (σ : Store) : gset string :=
  match σ with
  | None => ∅
  | Some s => s
  end.

(** A rule is enabled when the map does not hold its code. *)
Definition enabledIn (σ : Store) (rule : string) : bool :=
  match σ with
  | None => true
  | Some s => negb (bool_decide (rule ∈ s))
  end.

(** The issues whose rule is enabled. *)
Definition keep (σ : Store) (issues : list Issue) : list Issue :=
  List.filter (fun issue => enabledIn σ (Rule issue)) issues.

(** The issues of the checks whose condition holds. *)
Definition fired (checks : list (bool * Issue)) : list Issue :=
  map snd (List.filter fst checks).

(** The checks of a whole loop: those of round [i] on the first element,
    then those of the rounds that follow. *)
Fixpoint rangeChecks {A : Type} (f : nat -> A -> list (bool * Issue)) (i : nat)
    (l : list A) : list (bool * Issue) :=
  match l with
  | [] => []
  | x :: rest => f i x ++ rangeChecks f (S i) rest
  end.

Definition sqlRoundChecks (up : rune -> rune) (i : nat) (st : gostring)
  : list (bool * Issue) :=
  if isEmpty (TrimSpace st) then []
  else sqlStatementChecks i (TrimSpace st) (ToUpper up (TrimSpace st)).

Definition pgRoundChecks (up : rune -> rune) (i : nat) (st : gostring)
  : list (bool * Issue) :=
  if isEmpty (TrimSpace st) then []
  else pgStatementChecks i (TrimSpace st) (TrimSpace (ToUpper up (TrimSpace st))).

Definition mongoRoundChecks (low : rune -> rune) (i : nat) (op : mongoOperation)
  : list (bool * Issue) :=
  if isEmpty (compactScriptText (ToLower low (OpText op))) then []
  else mongoOperationChecks i op (compactScriptText (ToLower low (OpText op))).

(** A script is blank when nothing is left of it after trimming. *)
Definition isBlank (content : gostring) : bool := isEmpty (TrimSpace content).

(** The order the report is sorted by: ascending statement index, and
    descending severity within one index. *)
Definition issueOrder (a b : Issue) : Prop :=
  StatementIndex a < StatementIndex b
  \/ (StatementIndex a = StatementIndex b
      /\ severityWeight (Level b) <= severityWeight (Level a)).

Definition sameKey (idx w : Z) (issue : Issue) : bool :=
  (StatementIndex issue =? idx) && (severityWeight (Level issue) =? w).

(** The counts of a summary add up to the number of reported issues. *)
Definition countsMatch (r : CheckResponse) : Prop :=
  ErrorCount (ResponseSummary r) + WarningCount (ResponseSummary r)
  + InfoCount (ResponseSummary r) = Z.of_nat (length (Issues r)).

(** The check of [detectMissingTerminatorStatements] for a [DELIMITER]
    directive: the text [DELIMITER] and a space, in any letter case, outside
    comments and quoted strings. *)
Definition mentionsDelimiter (up : rune -> rune) (content : gostring) : bool :=
  Contains (ToUpper up (TrimSpace (stripCommentsAndStrings content))) (runes "DELIMITER ").

(** The issues of a call in the order in which the evaluation raised them,
    before they are sorted. *)
Definition evaluatedIssues (up low : rune -> rune) (engine : DBEngine)
    (content : gostring) : M (list Issue) :=
  let normalized := NormalizeEngine low engine in
  if gostring_eqb normalized EnginePostgreSQL then
    ret (if isBlank content then [sqlEmptyInputIssue]
         else pgEvaluate up content (splitSQLStatements content))
  else if gostring_eqb normalized EngineMongoDB then
    ret (if isBlank content then [mongoEmptyInputIssue]
         else mongoEvaluate low (parseMongoOperations content))
  else if isBlank content then ret [sqlEmptyInputIssue]
  else
    sqlEvaluate up content (splitSQLStatements content)
      (MatchString reRoutineDefinition content).

(** The number of statements a call counts. *)
Definition statementsOf (low : rune -> rune) (engine : DBEngine) (content : gostring) : Z :=
  if isBlank content then 0
  else if gostring_eqb (NormalizeEngine low engine) EngineMongoDB
  then Z.of_nat (length (parseMongoOperations content))
  else Z.of_nat (length (splitSQLStatements content)).

(** The subject the two terminator messages of an engine name. *)
Definition subjectOf (low : rune -> rune) (engine : DBEngine) : string :=
  if gostring_eqb (NormalizeEngine low engine) EngineMongoDB then "Mongo" else "SQL".

(** An issue reports the statements [its] for a full-width terminator, or
    for a missing terminator: its index, message and snippet are built from
    them. *)
Definition reportsFullwidth (issue : Issue) (its : list missingTerminatorStatement)
    (subject : string) : Prop :=
  its <> [] /\ StatementIndex issue = firstIndex its
  /\ Message issue = buildFullwidthTerminatorIssueMessageWithSubject its subject
  /\ Statement issue = buildMissingTerminatorStatementSnippet its.

Definition reportsMissing (issue : Issue) (its : list missingTerminatorStatement)
    (subject : string) : Prop :=
  its <> [] /\ StatementIndex issue = firstIndex its
  /\ Message issue = buildMissingTerminatorIssueMessageWithSubject its subject
  /\ Statement issue = buildMissingTerminatorStatementSnippet its.

(** The statements a call reports for a full-width terminator, and those
    it reports for a missing terminator. *)
Definition fullwidthItemsOf (up low : rune -> rune) (engine : DBEngine)
    (content : gostring) : list missingTerminatorStatement :=
  let normalized := NormalizeEngine low engine in
  if isBlank content then []
  else if gostring_eqb normalized EnginePostgreSQL then
    detectFullwidthTerminatorStatements content false
  else if gostring_eqb normalized EngineMongoDB then
    mongoFullwidthItems (parseMongoOperations content)
  else
    detectFullwidthTerminatorStatements content (MatchString reRoutineDefinition content).

Definition missingItemsOf (up low : rune -> rune) (engine : DBEngine)
    (content : gostring) : list missingTerminatorStatement :=
  let normalized := NormalizeEngine low engine in
  if isBlank content then []
  else if gostring_eqb normalized EnginePostgreSQL then
    excludeMissingTerminatorStatements
      (detectMissingTerminatorStatements up content (splitSQLStatements content) false)
      (detectFullwidthTerminatorStatements content false)
  else if gostring_eqb normalized EngineMongoDB then
    mongoMissingItems (parseMongoOperations content)
  else
    excludeMissingTerminatorStatements
      (detectMissingTerminatorStatements up content (splitSQLStatements content)
         (MatchString reRoutineDefinition content))
      (detectFullwidthTerminatorStatements content
         (MatchString reRoutineDefinition content)).

Definition fullwidthRule (rule : string) : Prop :=
  rule = "fullwidth_statement_terminator".

Definition missingRule (rule : string) : Prop :=
  rule = "missing_statement_terminator" \/ rule = "mongo_missing_statement_terminator".

(** How an evaluated issue relates to the statements of its call: a
    terminator issue reports [fw] or [ms]; any other issue is about the whole
    script or about the statement in place [StatementIndex], one of [n]. *)
Definition classified (fw ms : list missingTerminatorStatement) (subject : string)
    (n : Z) (issue : Issue) : Prop :=
  (~ fullwidthRule (Rule issue) /\ ~ missingRule (Rule issue)
   /\ (StatementIndex issue = 0 \/ 1 <= StatementIndex issue <= n))
  \/ (fullwidthRule (Rule issue) /\ reportsFullwidth issue fw subject)
  \/ (missingRule (Rule issue) /\ reportsMissing issue ms subject).

(** The facts about a report that the properties build on: its time stamp,
    its issues, its statement count, and when its counts add up. *)
Definition reportOf (up low : rune -> rune) (now : string) (engine : DBEngine)
    (content : gostring) (σ : Store) (r : CheckResponse) : Prop :=
  CheckedAt r = now
  /\ Issues r
     = keep σ (SliceStable issueLess (fst (evaluatedIssues up low engine content σ)))
  /\ StatementCount (ResponseSummary r) = statementsOf low engine content
  /\ (isBlank content = false \/ enabledIn σ "empty_input" = true -> countsMatch r).

(** A statement that [parseMongoOperations] marks as closed by a full-width
    semicolon is marked as terminated. *)
Definition opClosed (op : mongoOperation) : Prop :=
  OpFullwidthTerminator op = true -> OpTerminated op = true.

(** The report of a blank script: no statement, and the one issue
    [empty_input] of severity error. *)
Definition emptyInputReport (r : CheckResponse) : Prop :=
  StatementCount (ResponseSummary r) = 0
  /\ exists issue : Issue,
       Issues r = [issue] /\ Rule issue = "empty_input" /\ Level issue = LevelError.

(** Scripts and states that the examples below run the analyzers on. *)
Definition scriptTwoSelects : gostring :=
  runes "SELECT 1" ++ [newline] ++ runes "SELECT 2" ++ [fullwidthSemicolon].

Definition scriptRoutine : gostring := runes "CREATE FUNCTION f()".

Definition scriptDelimiter : gostring :=
  runes "DELIMITER $$" ++ [newline] ++ runes "SELECT 1".

Definition onlyEmptyInputDisabled : Store := Some {[ "empty_input" ]}.

Definition someRulesDisabled : Store :=
  Some {[ "empty_input"; "select_star"; "fullwidth_statement_terminator" ]}.

Definition splitAtDefault : sqlSplit :=
  {| items := []; builder := runes "a"; delimiter := [semicolon];
     inSingleQuote := false; inDoubleQuote := false; inBacktick := false;
     inBlockComment := false; inLineComment := false |}.

Definition splitAtCustom : sqlSplit :=
  {| items := []; builder := runes "a"; delimiter := runes "$$";
     inSingleQuote := false; inDoubleQuote := false; inBacktick := false;
     inBlockComment := false; inLineComment := false |}.

(** The analyzers on scripts whose letters are ASCII. *)
Definition analyzeAscii (engine : DBEngine) (content : gostring) (σ : Store) : CheckResponse :=
  fst (AnalyzeByEngine asciiToUpper asciiToLower "" engine content σ).

Definition checkAscii (engine : DBEngine) (content : gostring) (σ : Store) : checkOutcome :=
  fst (handleCheck asciiToUpper asciiToLower (elements alwaysEnabledRules) "" engine
         content σ).

(** The second issue of the report on [scriptTwoSelects], and the first of
    the report on [scriptDelimiter]. *)
Definition issueOfTwoSelects : Issue :=
  nth 1 (Issues (analyzeAscii EngineMySQL scriptTwoSelects None)) sqlEmptyInputIssue.

Definition issueOfDelimiter : Issue :=
  nth 0 (Issues (analyzeAscii EngineMySQL scriptDelimiter None)) sqlEmptyInputIssue.

(** The order of [sort.Strings]. *)
Definition stringLe (a b : string) : Prop := String.leb a b = true.

(** A script given line by line. *)
Definition scriptOf (lines : list string) : gostring := Join (map runes lines) [newline].

(** The helpers of the repository's tests. *)
Definition hasRule (issues : list Issue) (code : string) : bool :=
  existsb (fun issue => String.eqb (Rule issue) code) issues.

Definition getIssueByRule (issues : list Issue) (code : string) : option Issue :=
  List.find (fun issue => String.eqb (Rule issue) code) issues.

Definition scriptTabDirective : gostring :=
  runes "DELIMITER" ++ [9] ++ runes "$$" ++ [newline] ++ runes "SELECT 1".

#[local] Set Warnings "-clear-no-such-hyp".

(* ===================================================================== *)
(** * More vocabulary of the properties *)
(* ===================================================================== *)

Definition IssueLevel_eqb (a b : IssueLevel) : bool :=
  match a, b with
  | LevelError, LevelError | LevelWarning, LevelWarning | LevelInfo, LevelInfo => true
  | _, _ => false
  end.

(** The number of issues of one severity. *)
Definition countLevel (level : IssueLevel) (issues : list Issue) : Z :=
  Z.of_nat (length (List.filter (fun issue => IssueLevel_eqb (Level issue) level) issues)).

(** A catalogue lists an issue when it defines the issue's rule code with
    the issue's severity. *)
Definition listed (rules : list RuleDefinition.t) (issue : Issue) : Prop :=
  exists def : RuleDefinition.t,
    In def rules /\ RuleDefinition.Code def = Rule issue
    /\ RuleDefinition.Level def = Level issue.

Definition listedb (rules : list RuleDefinition.t) (issue : Issue) : bool :=
  existsb
    (fun def => String.eqb (RuleDefinition.Code def) (Rule issue)
                && IssueLevel_eqb (RuleDefinition.Level def) (Level issue))
    rules.

(** The texts of the statements a call counts, in order. *)
Definition statementTextsOf (low : rune -> rune) (engine : DBEngine) (content : gostring)
  : list gostring :=
  if gostring_eqb (NormalizeEngine low engine) EngineMongoDB
  then map OpText (parseMongoOperations content)
  else splitSQLStatements content.

(** The three flags of a scan. *)
Definition scanFlags (scan : ruleScan) : bool * bool * bool :=
  (containsRiskWrite scan, hasBegin scan, hasCommit scan).

(** The lines of advice of [buildAdvice], and the one [AnalyzeSQLWithOptions]
    adds for a routine definition. *)
Definition adviceHighRisk : string := "存在高风险语句，建议阻断自动执行并人工复核".
Definition adviceMediumRisk : string := "存在中风险项，建议补充执行计划与回滚预案".
Definition adviceNoRisk : string := "未发现明显高风险模式，仍建议做一次业务语义抽样复查".
Definition adviceRoutine : string :=
  "检测到存储过程/函数定义，建议补充过程权限控制、异常处理与审计日志检查".

(** A text that is not empty and has no white space at either end. *)
Definition trimmedText (s : gostring) : Prop :=
  match s with
  | [] => False
  | first :: _ =>
      unicode_IsSpace first = false /\ unicode_IsSpace (List.last s 0) = false
  end.

(** What [detectLineTerminator] reads off the last rune of a trimmed text. *)
Definition terminatorOf (s : gostring) : bool * bool :=
  if List.last s 0 =? semicolon then (true, false)
  else if List.last s 0 =? fullwidthSemicolon then (true, true)
  else (false, false).

(** An operation of [parseMongoOperations] with a trimmed text and
    consistent flags. *)
Definition wellFormedOperation (op : mongoOperation) : Prop :=
  trimmedText (OpText op) /\ opClosed op.

(** A statement of the line-start heuristic whose flags are those of its
    text. *)
Definition flagsFollowText (st : sqlHeuristicStatement) : Prop :=
  trimmedText (Text st)
  /\ (Terminated st, FullwidthTerminator st) = detectLineTerminator (Text st).

(** What the loop of the heuristic keeps: the statements cut so far are as
    above, and the builder is empty or holds a trimmed text whose last line
    is not terminated. *)
Definition heuristicInvariant (st : list sqlHeuristicStatement * gostring) : Prop :=
  Forall flagsFollowText (fst st)
  /\ (snd st = [] \/ (trimmedText (snd st) /\ terminatorOf (snd st) = (false, false))).

(** The routine exemption of the two terminator checks: only the MySQL
    analyzer applies it. *)
Definition routineExempt (low : rune -> rune) (engine : DBEngine) (content : gostring)
  : bool :=
  negb (gostring_eqb (NormalizeEngine low engine) EnginePostgreSQL)
  && MatchString reRoutineDefinition content.

(** The number of line breaks of a text. *)
Definition lineBreaks (s : gostring) : nat :=
  length (List.filter (fun r => r =? newline) s).

(** A rune that is none of the three quote characters and not [#]. *)
Definition plainRune (r : rune) : Prop := r <> 39 /\ r <> 34 /\ r <> 96 /\ r <> 35.

(** A rune that is not white space. *)
Definition unspaced (r : rune) : Prop := unicode_IsSpace r = false.

(** The text a scan has handed out and the text it still holds. *)
Definition sqlText (st : sqlSplit) : gostring := concat (items st) ++ builder st.

Definition mongoText (st : mongoScan) : gostring :=
  concat (map OpText (mItems st)) ++ mBuilder st.

(** The text of a statement as the rules of an engine match it: in upper
    case, and trimmed once more by the PostgreSQL analyzer. *)
Definition matchedText (up low : rune -> rune) (engine : DBEngine) (statement : gostring)
  : gostring :=
  if gostring_eqb (NormalizeEngine low engine) EnginePostgreSQL
  then TrimSpace (ToUpper up statement)
  else ToUpper up statement.

(** Some statement of the script matches the pattern. *)
Definition someStatement (up low : rune -> rune) (engine : DBEngine) (content : gostring)
    (re : regex) : bool :=
  existsb (fun statement => MatchString re (matchedText up low engine statement))
    (splitSQLStatements content).

(** A scan of [splitSQLStatements] that is inside a quoted string which the
    rune [quote] closes, and outside comments. *)
Definition insideQuotes (st : sqlSplit) (quote : rune) : Prop :=
  inBlockComment st = false
  /\ ((quote = 39 /\ inSingleQuote st = true /\ inDoubleQuote st = false
       /\ inBacktick st = false)
      \/ (quote = 34 /\ inSingleQuote st = false /\ inDoubleQuote st = true
          /\ inBacktick st = false)
      \/ (quote = 96 /\ inSingleQuote st = false /\ inDoubleQuote st = false
          /\ inBacktick st = true)).

(** What a finding is about: the place and the rule of an issue. *)
Definition finding (issue : Issue) : Z * string := (StatementIndex issue, Rule issue).

(** An issue about one statement, and an issue about the script: the
    second has index 0 or is one of the terminator issues. *)
Definition statementFinding (issue : Issue) : Prop :=
  1 <= StatementIndex issue /\ ~ fullwidthRule (Rule issue) /\ ~ missingRule (Rule issue).

Definition scriptFinding (issue : Issue) : Prop :=
  StatementIndex issue = 0 \/ fullwidthRule (Rule issue) \/ missingRule (Rule issue).

(** How SQL reads the body of a string literal, after the opening quote:
    two quotes in a row stand for one quote of the text, and a quote on its
    own closes the literal. The result is the text and what follows the
    literal; [None] when the literal is not closed. *)
Fixpoint readLiteralBody (s : gostring) : option (gostring * gostring) :=
  match s with
  | [] => None
  | r :: t =>
      if r =? 39 then
        match t with
        | r' :: t' =>
            if r' =? 39
            then match readLiteralBody t' with
                 | Some (text, rest) => Some (39 :: text, rest)
                 | None => None
                 end
            else Some ([], t)
        | [] => Some ([], [])
        end
      else
        match readLiteralBody t with
        | Some (text, rest) => Some (r :: text, rest)
        | None => None
        end
  end.

Definition readLiteral (s : gostring) : option (gostring * gostring) :=
  match s with
  | r :: t => if r =? 39 then readLiteralBody t else None
  | [] => None
  end.

(* ===================================================================== *)
(** * More scripts and states for the examples *)
(* ===================================================================== *)

(** Decimal numerals without sign, enough of [strconv.Atoi] to run
    [historyPage] on the examples. *)
Fixpoint decimalDigits (acc : Z) (s : gostring) : option Z :=
  match s with
  | [] => Some acc
  | r :: t =>
      if (48 <=? r) && (r <=? 57) then decimalDigits (10 * acc + (r - 48)) t else None
  end.

Definition decimalAtoi (s : gostring) : option Z :=
  if isEmpty s then None else decimalDigits 0 s.

Definition scriptTwoOperations : gostring :=
  runes "db.a.find()" ++ [newline] ++ runes "db.b.find();".

Definition scriptTwoWrites : gostring :=
  runes "UPDATE t SET a = 1 WHERE id = 1;" ++ [newline]
  ++ runes "DELETE FROM t WHERE id = 2;".

(** A scan that has read [SELECT '] and is inside the string. *)
Definition splitInsideString : sqlSplit :=
  {| items := []; builder := runes "SELECT '"; delimiter := [semicolon];
     inSingleQuote := true; inDoubleQuote := false; inBacktick := false;
     inBlockComment := false; inLineComment := false |}.

(** The first issue of the report on [scriptTwoSelects], and the first issue
    of what [handleCheck] answers for it with some rules disabled. *)
Definition firstOfTwoSelects : Issue :=
  nth 0 (Issues (analyzeAscii EngineMySQL scriptTwoSelects None)) sqlEmptyInputIssue.

Definition firstOfCheck : Issue :=
  nth 0 (Issues (Response (checkAscii EngineMySQL scriptTwoSelects someRulesDisabled)))
    sqlEmptyInputIssue.

Definition scriptTerminated : gostring :=
  runes "SELECT * FROM t;" ++ [newline] ++ runes "SELECT 2 LIMIT 1;".

Definition firstOfTerminated : Issue :=
  nth 0 (Issues (analyzeAscii EngineMySQL scriptTerminated None)) sqlEmptyInputIssue.

(* ===================================================================== *)
(** * The scanners never run out of fuel *)
(* ===================================================================== *)

Section ForIndex.

Context {S : Type} (n : nat) (body : nat -> S -> nat * S).
Hypothesis body_advances : forall i s, (i <= fst (body i s))%nat.

(** Once the fuel covers the distance to [n], more fuel changes nothing. *)
Lemma forIndex_fuel_irrelevant (fuel1 : nat) : forall (fuel2 i : nat) (s : S),
  (n - i <= fuel1)%nat -> (n - i <= fuel2)%nat ->
  forIndex fuel1 n body i s = forIndex fuel2 n body i s.
Proof.
  induction fuel1 as [|fuel1 IH]; intros fuel2 i s H1 H2.
  - assert (Hge : (i <? n)%nat = false) by (apply Nat.ltb_ge; lia).
    destruct fuel2; cbn [forIndex]; [|rewrite Hge]; reflexivity.
  - cbn [forIndex]. destruct (Nat.ltb i n) eqn:Hlt.
    + apply Nat.ltb_lt in Hlt as Hlt'.
      destruct fuel2 as [|fuel2]; [lia|].
      cbn [forIndex]. rewrite Hlt.
      pose proof (body_advances i s) as Hadv.
      destruct (body i s) as [i' s'] eqn:Hb. cbn [fst] in Hadv.
      apply IH; lia.
    + destruct fuel2; cbn [forIndex]; [|rewrite Hlt]; reflexivity.
Qed.

Lemma forIndex_fuel (fuel : nat) (i : nat) (s : S) :
  (n - i <= fuel)%nat ->
  forIndex fuel n body i s = forIndex (n - i) n body i s.
Proof. intros H. apply forIndex_fuel_irrelevant; lia. Qed.

(** With enough fuel the loop stops only because the index reached [n]. *)
Lemma forIndex_unfold (fuel : nat) (i : nat) (s : S) :
  (n - i <= fuel)%nat -> (i < n)%nat ->
  forIndex fuel n body i s =
  forIndex fuel n body (Datatypes.S (fst (body i s))) (snd (body i s)).
Proof.
  intros Hle Hlt.
  destruct fuel as [|fuel]; [lia|].
  pose proof (body_advances i s) as Hadv.
  remember (forIndex (Datatypes.S fuel) n body (Datatypes.S (fst (body i s)))
              (snd (body i s))) as rhs eqn:Hrhs.
  cbn [forIndex]. apply Nat.ltb_lt in Hlt as Hlt'. rewrite Hlt'.
  destruct (body i s) as [i' s'] eqn:Hb. cbn [fst snd] in Hrhs, Hadv. subst rhs.
  apply forIndex_fuel_irrelevant; lia.
Qed.

Lemma forIndex_done (fuel : nat) (i : nat) (s : S) :
  (n <= i)%nat -> forIndex fuel n body i s = s.
Proof.
  intros Hge. apply Nat.ltb_ge in Hge.
  destruct fuel; cbn [forIndex]; [|rewrite Hge]; reflexivity.
Qed.

End ForIndex.

Lemma splitStep_advances (rs : gostring) (i : nat) (st : sqlSplit) :
  (i <= fst (splitStep rs i st))%nat.
Proof.
  unfold splitStep.
  repeat match goal with
         | |- context [if ?c then _ else _] => destruct c
         end; cbn [fst]; lia.
Qed.

Lemma stripStep_advances (rs : gostring) (i : nat) (st : stripState) :
  (i <= fst (stripStep rs i st))%nat.
Proof.
  unfold stripStep.
  repeat match goal with
         | |- context [if ?c then _ else _] => destruct c
         end; cbn [fst]; lia.
Qed.

Lemma mongoStep_advances (rs : gostring) (i : nat) (st : mongoScan) :
  (i <= fst (mongoStep rs i st))%nat.
Proof.
  unfold mongoStep.
  repeat match goal with
         | |- context [if ?c then _ else _] => destruct c
         end; cbn [fst]; lia.
Qed.

(** The three scanners run with as much fuel as their input has runes; any
    larger amount gives the same result, so none of them stops for lack of
    fuel. *)
Lemma scanLine_fuel (line : gostring) (st : sqlSplit) (fuel : nat) :
  (length line <= fuel)%nat ->
  forIndex fuel (length line) (splitStep line) O
    (setComments (inBlockComment st) false st)
  = scanLine line st.
Proof.
  intros Hle. unfold scanLine.
  apply forIndex_fuel_irrelevant; [apply splitStep_advances|lia|lia].
Qed.

Lemma stripCommentsAndStrings_fuel (content : gostring) (fuel : nat) :
  (length content <= fuel)%nat ->
  sOut (forIndex fuel (length content) (stripStep content) O
          (stripSet [] false false false false false))
  = stripCommentsAndStrings content.
Proof.
  intros Hle. unfold stripCommentsAndStrings. f_equal.
  apply forIndex_fuel_irrelevant; [apply stripStep_advances|lia|lia].
Qed.

Lemma mongoScan_fuel (normalized : gostring) (fuel : nat) :
  (length normalized <= fuel)%nat ->
  forIndex fuel (length normalized) (mongoStep normalized) O mongoInit
  = forIndex (length normalized) (length normalized) (mongoStep normalized) O mongoInit.
Proof.
  intros Hle. apply forIndex_fuel_irrelevant; [apply mongoStep_advances|lia|lia].
Qed.

(* ===================================================================== *)
(** * What the map operations do to the store *)
(* ===================================================================== *)

Lemma bind_step {A B : Type} (m : M A) (k : A -> M B) (σ σ' : Store) (a : A) :
  m σ = (a, σ') -> bind m k σ = k a σ'.
Proof. intros H. unfold bind. rewrite H. reflexivity. Qed.

Lemma bind_run {A B : Type} (m : M A) (k : A -> M B) (σ : Store) (a : A) :
  m σ = (a, σ) -> bind m k σ = k a σ.
Proof. intros H. unfold bind. rewrite H. reflexivity. Qed.

Lemma ruleEnabled_run (rule : string) (σ : Store) :
  ruleEnabled rule σ = (enabledIn σ rule, σ).
Proof. destruct σ; reflexivity. Qed.

Lemma addIssue_run (issue : Issue) (issues : list Issue) (σ : Store) :
  addIssue issue issues σ =
  (if enabledIn σ (Rule issue) then issues ++ [issue] else issues, σ).
Proof.
  unfold addIssue. rewrite (bind_run _ _ _ _ (ruleEnabled_run _ _)). reflexivity.
Qed.

Lemma keep_app (σ : Store) (l1 l2 : list Issue) :
  keep σ (l1 ++ l2) = keep σ l1 ++ keep σ l2.
Proof. unfold keep. apply List.filter_app. Qed.

Lemma fired_app (c1 c2 : list (bool * Issue)) : fired (c1 ++ c2) = fired c1 ++ fired c2.
Proof. unfold fired. rewrite List.filter_app, map_app. reflexivity. Qed.

Lemma addIssuesWhen_run (checks : list (bool * Issue)) : forall (issues : list Issue) (σ : Store),
  addIssuesWhen checks issues σ = (issues ++ keep σ (fired checks), σ).
Proof.
  induction checks as [|[cond issue] rest IH]; intros issues σ.
  - cbn. rewrite app_nil_r. reflexivity.
  - cbn [addIssuesWhen]. destruct cond.
    + rewrite (bind_run _ _ _ _ (addIssue_run _ _ _)). rewrite IH.
      unfold fired, keep. cbn [List.filter fst map snd].
      destruct (enabledIn σ (Rule issue)); [rewrite <- app_assoc|]; reflexivity.
    + unfold bind, ret. rewrite IH. reflexivity.
Qed.

Lemma appendIssuesWhen_fired (checks : list (bool * Issue)) : forall issues : list Issue,
  appendIssuesWhen checks issues = issues ++ fired checks.
Proof.
  induction checks as [|[cond issue] rest IH]; intros issues.
  - cbn. rewrite app_nil_r. reflexivity.
  - cbn [appendIssuesWhen]. rewrite IH. unfold fired. cbn [List.filter fst].
    destruct cond; cbn [map snd]; [rewrite <- app_assoc|]; reflexivity.
Qed.

Lemma filterLoop_run (issues : list Issue) : forall (filtered : list Issue) (σ : Store),
  filterLoop issues filtered σ = (filtered ++ keep σ issues, σ).
Proof.
  induction issues as [|issue rest IH]; intros filtered σ.
  - cbn. rewrite app_nil_r. reflexivity.
  - cbn [filterLoop]. unfold bind at 1. unfold mapFound at 1.
    unfold keep. cbn [List.filter]. fold (keep σ rest).
    destruct σ as [s|]; cbn [enabledIn].
    + destruct (bool_decide (Rule issue ∈ s)); cbn [negb]; rewrite IH.
      * reflexivity.
      * rewrite <- app_assoc. reflexivity.
    + rewrite IH. rewrite <- app_assoc. reflexivity.
Qed.

Lemma keep_all (σ : Store) (issues : list Issue) :
  (forall rule, enabledIn σ rule = true) -> keep σ issues = issues.
Proof.
  intros H. unfold keep. induction issues as [|x l IH]; [reflexivity|].
  cbn. rewrite H, IH. reflexivity.
Qed.

Lemma enabledIn_no_keys (σ : Store) (rule : string) :
  fst (mapIsNil σ) || (fst (mapLen σ) =? 0) = true -> enabledIn σ rule = true.
Proof.
  destruct σ as [s|]; cbn; [|reflexivity].
  intros H. apply Z.eqb_eq in H.
  assert (Hs : size s = O) by lia.
  apply size_empty_inv in Hs. apply leibniz_equiv in Hs. subst s.
  rewrite bool_decide_eq_false_2; [reflexivity|]. apply not_elem_of_empty.
Qed.

Lemma filterDisabledRules_run (result : CheckResponse) (σ : Store) :
  filterDisabledRules result σ =
  ({| RulesVersion := RulesVersion result; CheckedAt := CheckedAt result;
      ResponseSummary := ResponseSummary result; Issues := keep σ (Issues result);
      Advice := Advice result |}, σ).
Proof.
  unfold filterDisabledRules.
  unfold bind at 1. unfold mapIsNil at 1.
  unfold bind at 1. unfold mapLen at 1.
  destruct (_ || _ || _) eqn:Hc.
  - unfold ret. f_equal.
    assert (Hk : keep σ (Issues result) = Issues result).
    { apply orb_true_iff in Hc as [Hc|Hc].
      - apply keep_all. intros rule. apply enabledIn_no_keys.
        destruct σ; exact Hc.
      - apply Nat.eqb_eq in Hc. destruct (Issues result); [reflexivity|discriminate]. }
    rewrite Hk. destruct result; reflexivity.
  - unfold bind. rewrite filterLoop_run. reflexivity.
Qed.

(* ===================================================================== *)
(** * Stable sorting *)
(* ===================================================================== *)

Lemma insertStable_Permutation {A : Type} (less : A -> A -> bool) (x : A) (l : list A) :
  Permutation (insertStable less x l) (x :: l).
Proof.
  induction l as [|y t IH]; cbn [insertStable]; [reflexivity|].
  destruct (less y x); [|reflexivity].
  rewrite IH. apply perm_swap.
Qed.

Lemma SliceStable_Permutation {A : Type} (less : A -> A -> bool) (l : list A) :
  Permutation (SliceStable less l) l.
Proof.
  induction l as [|x t IH]; cbn; [reflexivity|].
  rewrite insertStable_Permutation. apply perm_skip, IH.
Qed.

Lemma SliceStable_In {A : Type} (less : A -> A -> bool) (l : list A) (x : A) :
  In x (SliceStable less l) <-> In x l.
Proof.
  split; apply Permutation_in;
    [apply SliceStable_Permutation | symmetry; apply SliceStable_Permutation].
Qed.

Lemma SliceStable_length {A : Type} (less : A -> A -> bool) (l : list A) :
  length (SliceStable less l) = length l.
Proof. apply Permutation_length, SliceStable_Permutation. Qed.

Lemma issueLess_false_order (a b : Issue) : issueLess b a = false -> issueOrder a b.
Proof.
  unfold issueLess, issueOrder. intros H.
  destruct (StatementIndex b =? StatementIndex a) eqn:E.
  - apply Z.eqb_eq in E. apply Z.ltb_ge in H. right. split; [lia|lia].
  - apply Z.eqb_neq in E. apply Z.ltb_ge in H. left. lia.
Qed.

Lemma issueLess_true_order (a b : Issue) : issueLess a b = true -> issueOrder a b.
Proof.
  unfold issueLess, issueOrder. intros H.
  destruct (StatementIndex a =? StatementIndex b) eqn:E.
  - apply Z.eqb_eq in E. apply Z.ltb_lt in H. right. split; [lia|lia].
  - apply Z.ltb_lt in H. left. lia.
Qed.

Lemma issueOrder_trans (a b c : Issue) : issueOrder a b -> issueOrder b c -> issueOrder a c.
Proof. unfold issueOrder. intros [H1|[H1 H1']] [H2|[H2 H2']]; lia. Qed.

Lemma insertStable_sorted (x : Issue) (l : list Issue) :
  StronglySorted issueOrder l -> StronglySorted issueOrder (insertStable issueLess x l).
Proof.
  induction l as [|y t IH]; intros Hs; cbn [insertStable].
  - repeat constructor.
  - inversion Hs as [|? ? Ht Hy]; subst.
    destruct (issueLess y x) eqn:E.
    + constructor; [apply IH, Ht|].
      rewrite List.Forall_forall. intros z Hz.
      apply (Permutation_in _ (insertStable_Permutation issueLess x t)) in Hz.
      destruct Hz as [<-|Hz].
      * apply issueLess_true_order, E.
      * rewrite List.Forall_forall in Hy. apply Hy, Hz.
    + constructor; [exact Hs|].
      apply issueLess_false_order in E.
      constructor; [exact E|].
      rewrite List.Forall_forall in Hy |- *. intros z Hz.
      eapply issueOrder_trans; [exact E|apply Hy, Hz].
Qed.

Lemma SliceStable_sorted (l : list Issue) :
  StronglySorted issueOrder (SliceStable issueLess l).
Proof.
  induction l as [|x t IH]; cbn; [constructor|].
  apply insertStable_sorted, IH.
Qed.

Lemma issueLess_keys_differ (a b : Issue) (idx w : Z) :
  issueLess a b = true -> sameKey idx w b = true -> sameKey idx w a = false.
Proof.
  unfold issueLess, sameKey. intros H Hb.
  apply andb_true_iff in Hb as [Hb1 Hb2].
  apply Z.eqb_eq in Hb1, Hb2.
  destruct (StatementIndex a =? StatementIndex b) eqn:E.
  - apply Z.ltb_lt in H. apply Z.eqb_eq in E.
    apply andb_false_iff. right. apply Z.eqb_neq. lia.
  - apply Z.eqb_neq in E. apply andb_false_iff. left. apply Z.eqb_neq. lia.
Qed.

Lemma insertStable_filter_key (idx w : Z) (x : Issue) (l : list Issue) :
  List.filter (sameKey idx w) (insertStable issueLess x l) =
  List.filter (sameKey idx w) (x :: l).
Proof.
  induction l as [|y t IH]; cbn [insertStable]; [reflexivity|].
  destruct (issueLess y x) eqn:E; [|reflexivity].
  cbn [List.filter] in *. rewrite IH.
  destruct (sameKey idx w x) eqn:Ex; [|reflexivity].
  rewrite (issueLess_keys_differ _ _ _ _ E Ex). reflexivity.
Qed.

(** Stability: the issues of one key come out in the order they went in. *)
Lemma SliceStable_filter_key (idx w : Z) (l : list Issue) :
  List.filter (sameKey idx w) (SliceStable issueLess l) = List.filter (sameKey idx w) l.
Proof.
  induction l as [|x t IH]; cbn [SliceStable fold_right]; [reflexivity|].
  fold (SliceStable issueLess t).
  rewrite insertStable_filter_key. cbn [List.filter]. rewrite IH. reflexivity.
Qed.

Lemma StronglySorted_filter_bool {A : Type} (R : A -> A -> Prop) (p : A -> bool)
    (l : list A) :
  StronglySorted R l -> StronglySorted R (List.filter p l).
Proof.
  induction 1 as [|x l Hs IH Hx]; cbn; [constructor|].
  destruct (p x); [|exact IH].
  constructor; [exact IH|].
  rewrite List.Forall_forall in Hx |- *. intros y Hy.
  apply List.filter_In in Hy as [Hy _]. apply Hx, Hy.
Qed.

Lemma filter_comm {A : Type} (p q : A -> bool) (l : list A) :
  List.filter p (List.filter q l) = List.filter q (List.filter p l).
Proof.
  induction l as [|x t IH]; cbn; [reflexivity|].
  destruct (p x) eqn:Ep, (q x) eqn:Eq; cbn; rewrite ?Ep, ?Eq, IH; reflexivity.
Qed.

Lemma keep_idem (σ : Store) (l : list Issue) : keep σ (keep σ l) = keep σ l.
Proof.
  unfold keep. induction l as [|x t IH]; cbn; [reflexivity|].
  destruct (enabledIn σ (Rule x)) eqn:E; cbn; rewrite ?E, IH; reflexivity.
Qed.

Lemma keep_In (σ : Store) (l : list Issue) (x : Issue) :
  In x (keep σ l) <-> In x l /\ enabledIn σ (Rule x) = true.
Proof. unfold keep. apply List.filter_In. Qed.

(* ===================================================================== *)
(** * Counting the issues of a report *)
(* ===================================================================== *)

Lemma countIssue_total (summary : Summary) (issue : Issue) :
  let s' := countIssue summary issue in
  StatementCount s' = StatementCount summary
  /\ ErrorCount s' + WarningCount s' + InfoCount s'
     = ErrorCount summary + WarningCount summary + InfoCount summary + 1.
Proof. unfold countIssue. destruct (Level issue); cbn; split; lia. Qed.

Lemma fold_countIssue (issues : list Issue) : forall summary : Summary,
  let s' := fold_left countIssue issues summary in
  StatementCount s' = StatementCount summary
  /\ ErrorCount s' + WarningCount s' + InfoCount s'
     = ErrorCount summary + WarningCount summary + InfoCount summary
       + Z.of_nat (length issues).
Proof.
  induction issues as [|x t IH]; intros summary; cbn [fold_left length].
  - cbn. split; lia.
  - specialize (IH (countIssue summary x)). cbn zeta in IH.
    destruct IH as [IH1 IH2].
    destruct (countIssue_total summary x) as [H1 H2].
    cbn zeta. split; [congruence|]. rewrite IH2, H2. lia.
Qed.

Lemma summarizeIssues_total (n : Z) (issues : list Issue) :
  let s := summarizeIssues n issues in
  StatementCount s = n
  /\ ErrorCount s + WarningCount s + InfoCount s = Z.of_nat (length issues).
Proof.
  unfold summarizeIssues.
  destruct (fold_countIssue issues
              {| StatementCount := n; ErrorCount := 0; WarningCount := 0; InfoCount := 0 |})
    as [H1 H2].
  cbn in *. split; [exact H1|]. rewrite H2. lia.
Qed.

(* ===================================================================== *)
(** * What each analyzer returns, and that it leaves the map alone *)
(* ===================================================================== *)

Section Properties.

Variables up low : rune -> rune.

Lemma fired_In (checks : list (bool * Issue)) (issue : Issue) :
  In issue (fired checks) <-> In (true, issue) checks.
Proof.
  unfold fired. rewrite in_map_iff. split.
  - intros [[c i] [<- H]]. apply List.filter_In in H as [H Hc].
    cbn in Hc. subst c. exact H.
  - intros H. exists (true, issue). split; [reflexivity|].
    apply List.filter_In. split; [exact H|reflexivity].
Qed.

Lemma rangeChecks_In {A : Type} (f : nat -> A -> list (bool * Issue)) (l : list A) :
  forall (i : nat) (entry : bool * Issue),
    In entry (rangeChecks f i l) ->
    exists (k : nat) (x : A), l !! k = Some x /\ In entry (f (i + k)%nat x).
Proof.
  induction l as [|x rest IH]; intros i entry H; cbn [rangeChecks] in H; [contradiction|].
  apply in_app_or in H as [H|H].
  - exists O, x. split; [reflexivity|]. rewrite Nat.add_0_r. exact H.
  - apply IH in H as (k & y & Hk & Hy).
    exists (S k), y. split; [exact Hk|].
    replace (i + S k)%nat with (S i + k)%nat by lia. exact Hy.
Qed.

Lemma sqlStatementRound_run (i : nat) (st : gostring) (acc : ruleScan) (σ : Store) :
  exists acc' : ruleScan,
    sqlStatementRound up i st acc σ = (acc', σ)
    /\ scanIssues acc' = scanIssues acc ++ keep σ (fired (sqlRoundChecks up i st)).
Proof.
  unfold sqlStatementRound, sqlRoundChecks.
  destruct (isEmpty (TrimSpace st)).
  - exists acc. split; [reflexivity|]. cbn. rewrite app_nil_r. reflexivity.
  - eexists. rewrite (bind_run _ _ _ _ (addIssuesWhen_run _ _ _)).
    split; reflexivity.
Qed.

Lemma sqlRange_run (statements : list gostring) :
  forall (i : nat) (acc : ruleScan) (σ : Store),
  exists scan : ruleScan,
    forRange (sqlStatementRound up) i statements acc σ = (scan, σ)
    /\ scanIssues scan
       = scanIssues acc ++ keep σ (fired (rangeChecks (sqlRoundChecks up) i statements)).
Proof.
  induction statements as [|st rest IH]; intros i acc σ; cbn [forRange rangeChecks].
  - exists acc. split; [reflexivity|]. cbn. rewrite app_nil_r. reflexivity.
  - destruct (sqlStatementRound_run i st acc σ) as (acc' & Hrun & Hacc).
    rewrite (bind_run _ _ _ _ Hrun).
    destruct (IH (S i) acc' σ) as (scan & Hscan & Hissues).
    exists scan. split; [exact Hscan|].
    rewrite Hissues, Hacc, fired_app, keep_app, app_assoc. reflexivity.
Qed.

(** The issues the MySQL evaluation raises are the enabled ones among the
    checks that fire, in source order. *)
Lemma sqlEvaluate_run (content : gostring) (statements : list gostring)
    (containsRoutine : bool) (σ : Store) :
  exists scan : ruleScan,
    sqlEvaluate up content statements containsRoutine σ =
    (keep σ (fired (sqlScriptChecks up content statements containsRoutine
                    ++ rangeChecks (sqlRoundChecks up) O statements
                    ++ sqlTransactionCheck scan statements)), σ).
Proof.
  unfold sqlEvaluate.
  rewrite (bind_run _ _ _ _ (addIssuesWhen_run _ _ _)).
  destruct (sqlRange_run statements O
              {| scanIssues := [] ++ keep σ (fired (sqlScriptChecks up content statements
                                                      containsRoutine));
                 containsRiskWrite := false; hasBegin := false; hasCommit := false |} σ)
    as (scan & Hscan & Hissues).
  exists scan. rewrite (bind_run _ _ _ _ Hscan), addIssuesWhen_run, Hissues.
  cbn [scanIssues app]. rewrite !fired_app, !keep_app, app_assoc. reflexivity.
Qed.

Lemma pgRange_fired (statements : list gostring) : forall (i : nat) (acc : ruleScan),
  scanIssues (foldRange (pgStatementRound up) i statements acc)
  = scanIssues acc ++ fired (rangeChecks (pgRoundChecks up) i statements).
Proof.
  induction statements as [|st rest IH]; intros i acc; cbn [foldRange rangeChecks].
  - cbn. rewrite app_nil_r. reflexivity.
  - rewrite IH, fired_app, app_assoc. f_equal.
    unfold pgStatementRound, pgRoundChecks.
    destruct (isEmpty (TrimSpace st)).
    + cbn. rewrite app_nil_r. reflexivity.
    + cbn [scanIssues]. apply appendIssuesWhen_fired.
Qed.

Lemma pgEvaluate_fired (content : gostring) (statements : list gostring) :
  exists scan : ruleScan,
    pgEvaluate up content statements =
    fired (pgScriptChecks up content statements
           ++ rangeChecks (pgRoundChecks up) O statements
           ++ pgTransactionCheck scan statements).
Proof.
  unfold pgEvaluate. eexists.
  rewrite appendIssuesWhen_fired, pgRange_fired. cbn [scanIssues].
  rewrite appendIssuesWhen_fired. cbn [app].
  rewrite !fired_app, app_assoc. reflexivity.
Qed.

Lemma mongoRange_fired (ops : list mongoOperation) : forall (i : nat) (issues : list Issue),
  foldRange (mongoOperationRound low) i ops issues
  = issues ++ fired (rangeChecks (mongoRoundChecks low) i ops).
Proof.
  induction ops as [|op rest IH]; intros i issues; cbn [foldRange rangeChecks].
  - cbn. rewrite app_nil_r. reflexivity.
  - rewrite IH, fired_app, app_assoc. f_equal.
    unfold mongoOperationRound, mongoRoundChecks.
    destruct (isEmpty (compactScriptText (ToLower low (OpText op)))).
    + cbn. rewrite app_nil_r. reflexivity.
    + apply appendIssuesWhen_fired.
Qed.

Lemma mongoEvaluate_fired (ops : list mongoOperation) :
  mongoEvaluate low ops =
  fired (mongoScriptChecks ops ++ rangeChecks (mongoRoundChecks low) O ops).
Proof.
  unfold mongoEvaluate.
  rewrite mongoRange_fired, appendIssuesWhen_fired, fired_app. reflexivity.
Qed.

Lemma keep_SliceStable_kept (σ : Store) (l : list Issue) :
  keep σ (SliceStable issueLess (keep σ l)) = SliceStable issueLess (keep σ l).
Proof.
  unfold keep at 1. apply forallb_filter_id.
  apply forallb_forall. intros x Hx.
  apply SliceStable_In in Hx. apply keep_In in Hx as [_ Hx]. exact Hx.
Qed.

Lemma sqlEvaluate_kept (content : gostring) (statements : list gostring)
    (containsRoutine : bool) (σ : Store) :
  snd (sqlEvaluate up content statements containsRoutine σ) = σ
  /\ keep σ (fst (sqlEvaluate up content statements containsRoutine σ))
     = fst (sqlEvaluate up content statements containsRoutine σ).
Proof.
  destruct (sqlEvaluate_run content statements containsRoutine σ) as (scan & ->).
  cbn [fst snd]. split; [reflexivity|apply keep_idem].
Qed.

Lemma AnalyzeSQLWithOptions_run (now : string) (engine : DBEngine) (content : gostring)
    (σ : Store) :
  gostring_eqb (NormalizeEngine low engine) EnginePostgreSQL = false ->
  gostring_eqb (NormalizeEngine low engine) EngineMongoDB = false ->
  exists r : CheckResponse,
    AnalyzeSQLWithOptions up now content σ = (r, σ) /\ reportOf up low now engine content σ r.
Proof.
  intros Hpg Hmongo.
  unfold AnalyzeSQLWithOptions, reportOf, countsMatch, evaluatedIssues, statementsOf, isBlank.
  rewrite Hpg, Hmongo.
  destruct (isEmpty (TrimSpace content)) eqn:Hblank.
  - rewrite (bind_run _ _ _ _ (ruleEnabled_run _ _)).
    eexists. split; [reflexivity|]. cbn [CheckedAt Issues ResponseSummary StatementCount].
    split; [reflexivity|]. split.
    + cbn. destruct (enabledIn σ "empty_input"); reflexivity.
    + split; [reflexivity|]. intros [H|H]; [discriminate|]. rewrite H. reflexivity.
  - destruct (sqlEvaluate_kept content (splitSQLStatements content)
                (MatchString reRoutineDefinition content) σ) as [Hσ Hkept].
    destruct (sqlEvaluate up content (splitSQLStatements content)
                (MatchString reRoutineDefinition content) σ) as [issues σ'] eqn:Hrun.
    cbn [fst snd] in Hσ, Hkept. subst σ'.
    rewrite (bind_run _ _ _ _ Hrun).
    eexists. split; [reflexivity|].
    cbn [CheckedAt Issues ResponseSummary fst].
    split; [reflexivity|]. split.
    + rewrite <- Hkept. symmetry. apply keep_SliceStable_kept.
    + destruct (summarizeIssues_total (Z.of_nat (length (splitSQLStatements content)))
                  (SliceStable issueLess issues)) as [H1 H2].
      split; [exact H1|]. intros _. exact H2.
Qed.

Lemma AnalyzePostgresWithOptions_run (now : string) (engine : DBEngine) (content : gostring)
    (σ : Store) :
  gostring_eqb (NormalizeEngine low engine) EnginePostgreSQL = true ->
  exists r : CheckResponse,
    AnalyzePostgresWithOptions up now content σ = (r, σ) /\ reportOf up low now engine content σ r.
Proof.
  intros Hpg.
  assert (Hmongo : gostring_eqb (NormalizeEngine low engine) EngineMongoDB = false).
  { unfold NormalizeEngine in *.
    repeat match goal with
           | H : context [if ?c then _ else _] |- _ => destruct c
           end; first [reflexivity | discriminate]. }
  unfold AnalyzePostgresWithOptions, reportOf, evaluatedIssues, statementsOf, isBlank.
  rewrite Hpg, Hmongo.
  destruct (isEmpty (TrimSpace content)) eqn:Hblank.
  - rewrite filterDisabledRules_run.
    eexists. split; [reflexivity|]. cbn [CheckedAt Issues ResponseSummary StatementCount].
    split; [reflexivity|]. split; [reflexivity|]. split; [reflexivity|].
    intros [H|H]; [discriminate|]. unfold countsMatch. cbn. rewrite H. reflexivity.
  - rewrite (bind_run _ _ _ _ (filterDisabledRules_run _ _)).
    eexists. split; [reflexivity|].
    cbn [CheckedAt Issues ResponseSummary fst ret].
    split; [reflexivity|]. split; [reflexivity|].
    destruct (summarizeIssues_total (Z.of_nat (length (splitSQLStatements content)))
                (keep σ (SliceStable issueLess
                           (pgEvaluate up content (splitSQLStatements content)))))
      as [H1 H2].
    split; [exact H1|]. intros _. exact H2.
Qed.

Lemma AnalyzeMongoWithOptions_run (now : string) (engine : DBEngine) (content : gostring)
    (σ : Store) :
  gostring_eqb (NormalizeEngine low engine) EnginePostgreSQL = false ->
  gostring_eqb (NormalizeEngine low engine) EngineMongoDB = true ->
  exists r : CheckResponse,
    AnalyzeMongoWithOptions low now content σ = (r, σ) /\ reportOf up low now engine content σ r.
Proof.
  intros Hpg Hmongo.
  unfold AnalyzeMongoWithOptions, reportOf, evaluatedIssues, statementsOf, isBlank.
  rewrite Hpg, Hmongo.
  destruct (isEmpty (TrimSpace content)) eqn:Hblank.
  - rewrite filterDisabledRules_run.
    eexists. split; [reflexivity|]. cbn [CheckedAt Issues ResponseSummary StatementCount].
    split; [reflexivity|]. split; [reflexivity|]. split; [reflexivity|].
    intros [H|H]; [discriminate|]. unfold countsMatch. cbn. rewrite H. reflexivity.
  - rewrite (bind_run _ _ _ _ (filterDisabledRules_run _ _)).
    eexists. split; [reflexivity|].
    cbn [CheckedAt Issues ResponseSummary fst ret].
    split; [reflexivity|]. split; [reflexivity|].
    destruct (summarizeIssues_total (Z.of_nat (length (parseMongoOperations content)))
                (keep σ (SliceStable issueLess
                           (mongoEvaluate low (parseMongoOperations content)))))
      as [H1 H2].
    split; [exact H1|]. intros _. exact H2.
Qed.

(** Every call returns a report, built from the evaluated issues, and hands
    the map back as it received it. *)
Lemma AnalyzeByEngine_run (now : string) (engine : DBEngine) (content : gostring)
    (σ : Store) :
  exists r : CheckResponse,
    AnalyzeByEngine up low now engine content σ = (r, σ)
    /\ reportOf up low now engine content σ r.
Proof.
  unfold AnalyzeByEngine.
  destruct (gostring_eqb (NormalizeEngine low engine) EnginePostgreSQL) eqn:Hpg.
  - apply AnalyzePostgresWithOptions_run, Hpg.
  - destruct (gostring_eqb (NormalizeEngine low engine) EngineMongoDB) eqn:Hmongo.
    + apply AnalyzeMongoWithOptions_run; assumption.
    + apply AnalyzeSQLWithOptions_run; assumption.
Qed.

(* ===================================================================== *)
(** * The reported statements and the checks that raise issues *)
(* ===================================================================== *)

Lemma collectStatements_In (pick : sqlHeuristicStatement -> bool)
    (detailed : list sqlHeuristicStatement) :
  forall (i : nat) (item : missingTerminatorStatement),
    In item (collectStatements pick i detailed) ->
    exists (k : nat) (st : sqlHeuristicStatement),
      detailed !! k = Some st /\ pick st = true /\ Index item = Z.of_nat (i + k) + 1.
Proof.
  induction detailed as [|st rest IH]; intros i item H; cbn [collectStatements] in H;
    [contradiction|].
  assert (Hrest : In item (collectStatements pick (S i) rest) ->
                  exists k st0, (st :: rest) !! k = Some st0 /\ pick st0 = true
                                /\ Index item = Z.of_nat (i + k) + 1).
  { intros H'. apply IH in H' as (k & st0 & Hk & Hp & Hi).
    exists (S k), st0. split; [exact Hk|]. split; [exact Hp|]. rewrite Hi. lia. }
  destruct (pick st) eqn:Hpick; cbn [negb] in H; [|auto].
  destruct (isEmpty (normalizeStatementWithTerminator (Text st))); [auto|].
  destruct H as [<-|H]; [|auto].
  exists O, st. split; [reflexivity|]. split; [exact Hpick|]. cbn [Index]. lia.
Qed.

Lemma collectOperations_In (pick : mongoOperation -> bool) (ops : list mongoOperation) :
  forall (i : nat) (item : missingTerminatorStatement),
    In item (collectOperations pick i ops) ->
    exists (k : nat) (op : mongoOperation),
      ops !! k = Some op /\ pick op = true /\ Index item = Z.of_nat (i + k) + 1.
Proof.
  induction ops as [|op rest IH]; intros i item H; cbn [collectOperations] in H;
    [contradiction|].
  assert (Hrest : In item (collectOperations pick (S i) rest) ->
                  exists k op0, (op :: rest) !! k = Some op0 /\ pick op0 = true
                                /\ Index item = Z.of_nat (i + k) + 1).
  { intros H'. apply IH in H' as (k & op0 & Hk & Hp & Hi).
    exists (S k), op0. split; [exact Hk|]. split; [exact Hp|]. rewrite Hi. lia. }
  destruct (pick op) eqn:Hpick; cbn [negb] in H; [|auto].
  destruct (isEmpty (normalizeStatementWithTerminator (OpText op))); [auto|].
  destruct H as [<-|H]; [|auto].
  exists O, op. split; [reflexivity|]. split; [exact Hpick|]. cbn [Index]. lia.
Qed.

Lemma firstIndex_In (its : list missingTerminatorStatement) :
  its <> [] -> exists item, In item its /\ Index item = firstIndex its.
Proof.
  destruct its as [|it rest]; [congruence|]. intros _.
  exists it. split; [left|]; reflexivity.
Qed.

Lemma nonempty_length {A : Type} (l : list A) : Nat.ltb 0 (length l) = true -> l <> [].
Proof. destruct l; [discriminate|congruence]. Qed.

Lemma excludeMissing_In (missing excludes : list missingTerminatorStatement)
    (item : missingTerminatorStatement) :
  In item (excludeMissingTerminatorStatements missing excludes) ->
  In item missing /\ forall e, In e excludes -> Index e <> Index item.
Proof.
  unfold excludeMissingTerminatorStatements.
  destruct (Nat.eqb (length missing) 0) eqn:Hm; cbn [orb].
  - destruct missing; [contradiction|discriminate].
  - destruct (Nat.eqb (length excludes) 0) eqn:He.
    + destruct excludes; [|discriminate]. intros H. split; [exact H|]. intros e [].
    + intros H. apply List.filter_In in H as [H Hx]. split; [exact H|].
      intros e Hin Heq. apply negb_true_iff, bool_decide_eq_false in Hx.
      apply Hx. apply elem_of_list_to_set, list_elem_of_In, in_map_iff.
      exists e. split; [exact Heq|exact Hin].
Qed.

Lemma excludeMissing_nil (excludes : list missingTerminatorStatement) :
  excludeMissingTerminatorStatements [] excludes = [].
Proof. reflexivity. Qed.

Lemma detectFullwidth_In (content : gostring) (containsRoutine : bool)
    (item : missingTerminatorStatement) :
  In item (detectFullwidthTerminatorStatements content containsRoutine) ->
  containsRoutine = false
  /\ 1 <= Index item <= Z.of_nat (length (splitSQLByLineStartHeuristicDetailed content)).
Proof.
  unfold detectFullwidthTerminatorStatements.
  destruct containsRoutine; [contradiction|].
  destruct (Nat.eqb _ 0); [contradiction|].
  intros H. apply collectStatements_In in H as (k & st & Hk & _ & Hi).
  apply lookup_lt_Some in Hk. split; [reflexivity|]. lia.
Qed.

Lemma detectMissing_In (content : gostring) (statements : list gostring)
    (containsRoutine : bool) (item : missingTerminatorStatement) :
  In item (detectMissingTerminatorStatements up content statements containsRoutine) ->
  containsRoutine = false /\ mentionsDelimiter up content = false
  /\ (1 <= Index item <= Z.of_nat (length (splitSQLByLineStartHeuristicDetailed content))
      \/ 1 <= Index item <= Z.of_nat (length statements)).
Proof.
  unfold detectMissingTerminatorStatements, mentionsDelimiter.
  destruct containsRoutine; [contradiction|].
  destruct (isEmpty (TrimSpace (stripCommentsAndStrings content))); [contradiction|].
  destruct (Contains _ _); [contradiction|].
  intros H. split; [reflexivity|]. split; [reflexivity|].
  destruct (hasLikelyMergedStatements statements).
  - destruct (Nat.leb _ 1); [contradiction|].
    apply collectStatements_In in H as (k & st & Hk & _ & Hi).
    apply lookup_lt_Some in Hk. left. lia.
  - destruct (Nat.leb 1 (length statements)) eqn:Hlen; cbn [andb] in H; [|contradiction].
    destruct (negb _); [|contradiction].
    destruct (isEmpty _); [contradiction|].
    destruct H as [<-|[]]. cbn [Index]. apply Nat.leb_le in Hlen. right. lia.
Qed.

Lemma detectMissing_exempt (content : gostring) (statements : list gostring)
    (containsRoutine : bool) :
  containsRoutine = true \/ mentionsDelimiter up content = true ->
  detectMissingTerminatorStatements up content statements containsRoutine = [].
Proof.
  intros H.
  destruct (detectMissingTerminatorStatements up content statements containsRoutine)
    as [|item rest] eqn:E; [reflexivity|].
  assert (Hin : In item (detectMissingTerminatorStatements up content statements
                           containsRoutine)) by (rewrite E; left; reflexivity).
  apply detectMissing_In in Hin as (H1 & H2 & _).
  destruct H as [H|H]; congruence.
Qed.

Lemma forIndex_invariant {S : Type} (P : S -> Prop) (n : nat) (body : nat -> S -> nat * S) :
  (forall i s, P s -> P (snd (body i s))) ->
  forall (fuel i : nat) (s : S), P s -> P (forIndex fuel n body i s).
Proof.
  intros Hbody. induction fuel as [|fuel IH]; intros i s Hs; cbn [forIndex]; [exact Hs|].
  destruct (Nat.ltb i n); [|exact Hs].
  specialize (Hbody i s Hs). destruct (body i s) as [i' s']. apply IH, Hbody.
Qed.

Lemma mongoFlush_closed (terminated fullwidth : bool) (st : mongoScan) :
  (fullwidth = true -> terminated = true) ->
  Forall opClosed (mItems st) -> Forall opClosed (mItems (mongoFlush terminated fullwidth st)).
Proof.
  intros Hflags Hst. unfold mongoFlush.
  destruct (isEmpty (TrimSpace (mBuilder st))); cbn [mItems mongoSetOutput]; [exact Hst|].
  apply Forall_app. split; [exact Hst|]. constructor; [|constructor]. exact Hflags.
Qed.

Lemma trackDepth_items (ch : rune) (st : mongoScan) :
  mItems (trackDepth ch st) = mItems st.
Proof.
  unfold trackDepth.
  repeat match goal with
         | |- context [if ?c then _ else _] => destruct c
         end; reflexivity.
Qed.

Lemma mongoStep_closed (rs : gostring) (i : nat) (st : mongoScan) :
  Forall opClosed (mItems st) -> Forall opClosed (mItems (snd (mongoStep rs i st))).
Proof.
  intros Hst. unfold mongoStep.
  repeat match goal with
         | |- context [if ?c then _ else _] => destruct c
         end; cbn [snd];
    repeat first
      [ exact Hst
      | apply mongoFlush_closed; [intros; first [reflexivity | discriminate | assumption]|]
      | rewrite trackDepth_items
      | progress cbn [mItems mongoSetOutput mongoSetComments mongoSetQuotes] ].
Qed.

Lemma parseMongoOperations_closed (content : gostring) :
  Forall opClosed (parseMongoOperations content).
Proof.
  unfold parseMongoOperations.
  apply mongoFlush_closed; [discriminate|].
  apply (forIndex_invariant (fun st => Forall opClosed (mItems st))).
  - intros i s. apply mongoStep_closed.
  - constructor.
Qed.

Lemma mongoItems_range (ops : list mongoOperation) (item : missingTerminatorStatement) :
  In item (mongoFullwidthItems ops) \/ In item (mongoMissingItems ops) ->
  1 <= Index item <= Z.of_nat (length ops).
Proof.
  unfold mongoFullwidthItems, mongoMissingItems. intros [H|H].
  - apply collectOperations_In in H as (k & op & Hk & _ & Hi).
    apply lookup_lt_Some in Hk. lia.
  - destruct (Nat.ltb 1 (length ops)); [|contradiction].
    apply collectOperations_In in H as (k & op & Hk & _ & Hi).
    apply lookup_lt_Some in Hk. lia.
Qed.

Lemma mongoItems_disjoint (content : gostring) (a b : missingTerminatorStatement) :
  In a (mongoFullwidthItems (parseMongoOperations content)) ->
  In b (mongoMissingItems (parseMongoOperations content)) ->
  Index a <> Index b.
Proof.
  unfold mongoFullwidthItems, mongoMissingItems. intros Ha Hb Heq.
  destruct (Nat.ltb 1 _); [|contradiction].
  apply collectOperations_In in Ha as (k & op & Hk & Hfw & Hi).
  apply collectOperations_In in Hb as (k' & op' & Hk' & Hterm & Hi').
  assert (k = k') by lia. subst k'.
  rewrite Hk in Hk'. injection Hk' as <-.
  pose proof (parseMongoOperations_closed content) as Hclosed.
  rewrite List.Forall_forall in Hclosed.
  assert (Hin : In op (parseMongoOperations content)).
  { apply list_elem_of_In. eapply list_elem_of_lookup_2, Hk. }
  specialize (Hclosed op Hin Hfw). rewrite Hclosed in Hterm. discriminate.
Qed.

(** An entry of a table of checks is settled by reading the index and the
    rule of its issue. *)
Ltac ordinary_entry H :=
  injection H as _ <-; cbn [StatementIndex Rule mkIssue];
  split; [reflexivity|];
  split; [intros E; discriminate E | intros [E|E]; discriminate E].

Lemma sqlStatementChecks_facts (i : nat) (stmt upper : gostring) (c : bool) (issue : Issue) :
  In (c, issue) (sqlStatementChecks i stmt upper) ->
  StatementIndex issue = Z.of_nat i + 1
  /\ ~ fullwidthRule (Rule issue) /\ ~ missingRule (Rule issue).
Proof.
  unfold sqlStatementChecks, fullwidthRule, missingRule. cbn zeta. cbn [In]. intros H.
  repeat (destruct H as [H|H]; [ordinary_entry H|]). contradiction.
Qed.

Lemma pgStatementChecks_facts (i : nat) (stmt upper : gostring) (c : bool) (issue : Issue) :
  In (c, issue) (pgStatementChecks i stmt upper) ->
  StatementIndex issue = Z.of_nat i + 1
  /\ ~ fullwidthRule (Rule issue) /\ ~ missingRule (Rule issue).
Proof.
  unfold pgStatementChecks, fullwidthRule, missingRule. cbn zeta. cbn [In]. intros H.
  repeat (destruct H as [H|H]; [ordinary_entry H|]). contradiction.
Qed.

Lemma mongoOperationChecks_facts (i : nat) (op : mongoOperation) (compact : gostring)
    (c : bool) (issue : Issue) :
  In (c, issue) (mongoOperationChecks i op compact) ->
  StatementIndex issue = Z.of_nat i + 1
  /\ ~ fullwidthRule (Rule issue) /\ ~ missingRule (Rule issue).
Proof.
  unfold mongoOperationChecks, fullwidthRule, missingRule. cbn zeta. cbn [In]. intros H.
  repeat (destruct H as [H|H]; [ordinary_entry H|]). contradiction.
Qed.

Lemma classified_script_level (fw ms : list missingTerminatorStatement) (subject : string)
    (n : Z) (issue : Issue) :
  StatementIndex issue = 0 -> ~ fullwidthRule (Rule issue) -> ~ missingRule (Rule issue) ->
  classified fw ms subject n issue.
Proof. intros H0 H1 H2. left. auto. Qed.

Lemma classified_round {A : Type} (f : nat -> A -> list (bool * Issue)) (l : list A)
    (fw ms : list missingTerminatorStatement) (subject : string) (issue : Issue) :
  (forall i x c issue, In (c, issue) (f i x) ->
     StatementIndex issue = Z.of_nat i + 1
     /\ ~ fullwidthRule (Rule issue) /\ ~ missingRule (Rule issue)) ->
  In (true, issue) (rangeChecks f O l) ->
  classified fw ms subject (Z.of_nat (length l)) issue.
Proof.
  intros Hf H. apply rangeChecks_In in H as (k & x & Hk & Hin).
  apply Hf in Hin as (Hi & H1 & H2). apply lookup_lt_Some in Hk.
  left. split; [exact H1|]. split; [exact H2|]. right. lia.
Qed.

Lemma sqlRoundChecks_facts (i : nat) (st : gostring) (c : bool) (issue : Issue) :
  In (c, issue) (sqlRoundChecks up i st) ->
  StatementIndex issue = Z.of_nat i + 1
  /\ ~ fullwidthRule (Rule issue) /\ ~ missingRule (Rule issue).
Proof.
  unfold sqlRoundChecks. destruct (isEmpty _); [contradiction|].
  apply sqlStatementChecks_facts.
Qed.

Lemma pgRoundChecks_facts (i : nat) (st : gostring) (c : bool) (issue : Issue) :
  In (c, issue) (pgRoundChecks up i st) ->
  StatementIndex issue = Z.of_nat i + 1
  /\ ~ fullwidthRule (Rule issue) /\ ~ missingRule (Rule issue).
Proof.
  unfold pgRoundChecks. destruct (isEmpty _); [contradiction|].
  apply pgStatementChecks_facts.
Qed.

Lemma mongoRoundChecks_facts (i : nat) (op : mongoOperation) (c : bool) (issue : Issue) :
  In (c, issue) (mongoRoundChecks low i op) ->
  StatementIndex issue = Z.of_nat i + 1
  /\ ~ fullwidthRule (Rule issue) /\ ~ missingRule (Rule issue).
Proof.
  unfold mongoRoundChecks. destruct (isEmpty _); [contradiction|].
  apply mongoOperationChecks_facts.
Qed.

Ltac script_level_entry H :=
  injection H as _ <-; apply classified_script_level; cbn [StatementIndex Rule mkIssue];
  [reflexivity | intros E; discriminate E | intros [E|E]; discriminate E].

Ltac fullwidth_entry H :=
  let Hc := fresh "Hc" in
  injection H as Hc <-; right; left; split; [reflexivity|];
  split; [apply nonempty_length; exact Hc|]; repeat split; reflexivity.

Ltac missing_entry H :=
  let Hc := fresh "Hc" in
  injection H as Hc <-; right; right; split; [first [left; reflexivity | right; reflexivity]|];
  split; [apply nonempty_length; exact Hc|]; repeat split; reflexivity.

Lemma sqlScriptChecks_classified (content : gostring) (containsRoutine : bool)
    (n : Z) (issue : Issue) :
  In (true, issue) (sqlScriptChecks up content (splitSQLStatements content) containsRoutine) ->
  classified
    (detectFullwidthTerminatorStatements content containsRoutine)
    (excludeMissingTerminatorStatements
       (detectMissingTerminatorStatements up content (splitSQLStatements content)
          containsRoutine)
       (detectFullwidthTerminatorStatements content containsRoutine))
    "SQL" n issue.
Proof.
  unfold sqlScriptChecks. cbn zeta. cbn [In]. intros H.
  destruct H as [H|[H|[H|[H|[]]]]].
  - script_level_entry H.
  - fullwidth_entry H.
  - missing_entry H.
  - script_level_entry H.
Qed.

Lemma pgScriptChecks_classified (content : gostring) (n : Z) (issue : Issue) :
  In (true, issue) (pgScriptChecks up content (splitSQLStatements content)) ->
  classified
    (detectFullwidthTerminatorStatements content false)
    (excludeMissingTerminatorStatements
       (detectMissingTerminatorStatements up content (splitSQLStatements content) false)
       (detectFullwidthTerminatorStatements content false))
    "SQL" n issue.
Proof.
  unfold pgScriptChecks. cbn zeta. cbn [In]. intros H.
  destruct H as [H|[H|[H|[]]]].
  - fullwidth_entry H.
  - missing_entry H.
  - script_level_entry H.
Qed.

Lemma mongoScriptChecks_classified (ops : list mongoOperation) (n : Z) (issue : Issue) :
  In (true, issue) (mongoScriptChecks ops) ->
  classified (mongoFullwidthItems ops) (mongoMissingItems ops) "Mongo" n issue.
Proof.
  unfold mongoScriptChecks. cbn zeta. cbn [In]. intros H.
  destruct H as [H|[H|[]]].
  - fullwidth_entry H.
  - injection H as Hc <-. apply andb_true_iff in Hc as [_ Hc].
    right; right. split; [right; reflexivity|].
    split; [apply nonempty_length; exact Hc|]. repeat split; reflexivity.
Qed.

Lemma normalized_exclusive (engine : DBEngine) :
  gostring_eqb (NormalizeEngine low engine) EnginePostgreSQL = true ->
  gostring_eqb (NormalizeEngine low engine) EngineMongoDB = false.
Proof.
  unfold NormalizeEngine.
  repeat match goal with
         | |- context [if ?c then _ else _] => destruct c
         end; intros H; first [reflexivity | discriminate H].
Qed.

(** Every issue a call evaluates is classified against the statements of
    that call. *)
Lemma evaluated_classified (engine : DBEngine) (content : gostring) (σ : Store)
    (issue : Issue) :
  In issue (fst (evaluatedIssues up low engine content σ)) ->
  classified (fullwidthItemsOf up low engine content) (missingItemsOf up low engine content)
    (subjectOf low engine) (statementsOf low engine content) issue.
Proof.
  unfold evaluatedIssues, fullwidthItemsOf, missingItemsOf, subjectOf, statementsOf.
  destruct (gostring_eqb (NormalizeEngine low engine) EnginePostgreSQL) eqn:Hpg.
  - rewrite (normalized_exclusive engine Hpg).
    destruct (isBlank content); cbn [ret fst]; intros H.
    + destruct H as [<-|[]]. apply classified_script_level;
        [reflexivity | intros E; discriminate E | intros [E|E]; discriminate E].
    + destruct (pgEvaluate_fired content (splitSQLStatements content)) as (scan & Heq).
      rewrite Heq in H. apply fired_In in H.
      apply in_app_or in H as [H|H]; [apply pgScriptChecks_classified, H|].
      apply in_app_or in H as [H|H].
      * eapply classified_round; [|exact H]. intros. eapply pgRoundChecks_facts; eauto.
      * destruct H as [H|[]]. script_level_entry H.
  - destruct (gostring_eqb (NormalizeEngine low engine) EngineMongoDB) eqn:Hmongo.
    + destruct (isBlank content); cbn [ret fst]; intros H.
      * destruct H as [<-|[]]. apply classified_script_level;
          [reflexivity | intros E; discriminate E | intros [E|E]; discriminate E].
      * rewrite mongoEvaluate_fired in H. apply fired_In in H.
        apply in_app_or in H as [H|H]; [apply mongoScriptChecks_classified, H|].
        eapply classified_round; [|exact H]. intros. eapply mongoRoundChecks_facts; eauto.
    + destruct (isBlank content); cbn [ret fst]; intros H.
      * destruct H as [<-|[]]. apply classified_script_level;
          [reflexivity | intros E; discriminate E | intros [E|E]; discriminate E].
      * destruct (sqlEvaluate_run content (splitSQLStatements content)
                    (MatchString reRoutineDefinition content) σ) as (scan & Heq).
        rewrite Heq in H. cbn [fst] in H. apply keep_In in H as [H _].
        apply fired_In in H.
        apply in_app_or in H as [H|H]; [apply sqlScriptChecks_classified, H|].
        apply in_app_or in H as [H|H].
        -- eapply classified_round; [|exact H]. intros. eapply sqlRoundChecks_facts; eauto.
        -- destruct H as [H|[]]. script_level_entry H.
Qed.

Lemma report_In (now : string) (engine : DBEngine) (content : gostring) (σ : Store)
    (r : CheckResponse) (issue : Issue) :
  reportOf up low now engine content σ r ->
  In issue (Issues r) ->
  In issue (fst (evaluatedIssues up low engine content σ))
  /\ enabledIn σ (Rule issue) = true.
Proof.
  intros (_ & Hissues & _) H. rewrite Hissues in H.
  apply keep_In in H as [H He]. apply SliceStable_In in H. auto.
Qed.

Lemma report_classified (now : string) (engine : DBEngine) (content : gostring) (σ : Store)
    (r : CheckResponse) (issue : Issue) :
  reportOf up low now engine content σ r ->
  In issue (Issues r) ->
  classified (fullwidthItemsOf up low engine content) (missingItemsOf up low engine content)
    (subjectOf low engine) (statementsOf low engine content) issue.
Proof.
  intros Hr H. eapply evaluated_classified, report_In; eauto.
Qed.

(* ===================================================================== *)
(** * Properties of the report *)
(* ===================================================================== *)

(** C10. [AnalyzeByEngine] never changes the caller's disabled-rule map:
    for every engine, script and map, the contents of the map after the call
    are its contents before the call. *)
Theorem AnalyzeByEngine_leaves_disabled_rules (now : string) (engine : DBEngine)
    (content : gostring) (σ : Store) :
  snd (AnalyzeByEngine up low now engine content σ) = σ.
Proof.
  destruct (AnalyzeByEngine_run now engine content σ) as (r & Hrun & _).
  rewrite Hrun. reflexivity.
Qed.

(** C9. Two calls with the same engine, script and disabled-rule map return
    the same rules version, summary, issues and advice, whatever the clock
    reads at either call; only [CheckedAt] can differ. *)
Theorem AnalyzeByEngine_deterministic (now1 now2 : string) (engine : DBEngine)
    (content : gostring) (σ : Store) :
  let r1 := fst (AnalyzeByEngine up low now1 engine content σ) in
  let r2 := fst (AnalyzeByEngine up low now2 engine content σ) in
  RulesVersion r1 = RulesVersion r2
  /\ ResponseSummary r1 = ResponseSummary r2
  /\ Issues r1 = Issues r2
  /\ Advice r1 = Advice r2
  /\ CheckedAt r1 = now1 /\ CheckedAt r2 = now2.
Proof.
  unfold AnalyzeByEngine.
  destruct (gostring_eqb (NormalizeEngine low engine) EnginePostgreSQL);
    [|destruct (gostring_eqb (NormalizeEngine low engine) EngineMongoDB)].
  - unfold AnalyzePostgresWithOptions.
    destruct (isEmpty (TrimSpace content)).
    + rewrite !filterDisabledRules_run. cbn. repeat split; reflexivity.
    + rewrite !(bind_run _ _ _ _ (filterDisabledRules_run _ _)).
      cbn. repeat split; reflexivity.
  - unfold AnalyzeMongoWithOptions.
    destruct (isEmpty (TrimSpace content)).
    + rewrite !filterDisabledRules_run. cbn. repeat split; reflexivity.
    + rewrite !(bind_run _ _ _ _ (filterDisabledRules_run _ _)).
      cbn. repeat split; reflexivity.
  - unfold AnalyzeSQLWithOptions.
    destruct (isEmpty (TrimSpace content)).
    + rewrite !(bind_run _ _ _ _ (ruleEnabled_run _ _)). cbn. repeat split; reflexivity.
    + destruct (sqlEvaluate up content (splitSQLStatements content)
                  (MatchString reRoutineDefinition content) σ) as [issues σ'] eqn:Hrun.
      unfold bind. rewrite Hrun. cbn. repeat split; reflexivity.
Qed.

Lemma Permutation_filter_bool {A : Type} (p : A -> bool) (l l' : list A) :
  Permutation l l' -> Permutation (List.filter p l) (List.filter p l').
Proof.
  induction 1 as [|x l l' _ IH|x y l|l1 l2 l3 _ IH1 _ IH2]; cbn.
  - constructor.
  - destruct (p x); [apply perm_skip|]; exact IH.
  - destruct (p x), (p y); try reflexivity. apply perm_swap.
  - etransitivity; eassumption.
Qed.

(** C8. The issues of every report are sorted by ascending statement index
    and, within one index, by descending severity; they are the enabled
    issues of the evaluation, and issues of equal index and severity keep the
    order in which the evaluation raised them. *)
Theorem issues_sorted_and_stable (now : string) (engine : DBEngine)
    (content : gostring) (σ : Store) :
  let r := fst (AnalyzeByEngine up low now engine content σ) in
  let evaluated := keep σ (fst (evaluatedIssues up low engine content σ)) in
  StronglySorted issueOrder (Issues r)
  /\ Permutation (Issues r) evaluated
  /\ forall idx w : Z,
       List.filter (sameKey idx w) (Issues r) = List.filter (sameKey idx w) evaluated.
Proof.
  destruct (AnalyzeByEngine_run now engine content σ) as (r & Hrun & _ & Hissues & _).
  rewrite Hrun. cbn [fst]. rewrite Hissues. split; [|split].
  - apply StronglySorted_filter_bool, SliceStable_sorted.
  - apply Permutation_filter_bool, SliceStable_Permutation.
  - intros idx w. unfold keep.
    rewrite filter_comm, SliceStable_filter_key, filter_comm. reflexivity.
Qed.

(** The counts of the summary add up to the number of issues whenever the
    script is not blank, or [empty_input] is not disabled. *)
Lemma summary_counts_issues (now : string) (engine : DBEngine) (content : gostring)
    (σ : Store) :
  isBlank content = false \/ enabledIn σ "empty_input" = true ->
  countsMatch (fst (AnalyzeByEngine up low now engine content σ)).
Proof.
  destruct (AnalyzeByEngine_run now engine content σ) as (r & Hrun & _ & _ & _ & Hcount).
  rewrite Hrun. exact Hcount.
Qed.

(** C2 (where the code departs from it). For a blank script and a map that
    disables [empty_input], every engine returns a summary that counts one
    error next to an empty list of issues, so the counts do not add up to the
    number of issues. *)
Theorem blank_script_counts_a_dropped_issue (now : string) (engine : DBEngine)
    (content : gostring) (s : gset string) :
  isBlank content = true -> "empty_input" ∈ s ->
  let r := fst (AnalyzeByEngine up low now engine content (Some s)) in
  Issues r = [] /\ ErrorCount (ResponseSummary r) = 1 /\ ~ countsMatch r.
Proof.
  intros Hblank Hin. unfold isBlank in Hblank.
  assert (Hoff : enabledIn (Some s) "empty_input" = false).
  { cbn. rewrite bool_decide_eq_true_2 by exact Hin. reflexivity. }
  assert (Hgoal : forall r : CheckResponse,
             Issues r = [] -> ErrorCount (ResponseSummary r) = 1 ->
             WarningCount (ResponseSummary r) = 0 -> InfoCount (ResponseSummary r) = 0 ->
             Issues r = [] /\ ErrorCount (ResponseSummary r) = 1 /\ ~ countsMatch r).
  { intros r H1 H2 H3 H4. split; [exact H1|]. split; [exact H2|].
    unfold countsMatch. rewrite H1, H2, H3, H4. cbn. lia. }
  cbn zeta. unfold AnalyzeByEngine.
  destruct (gostring_eqb (NormalizeEngine low engine) EnginePostgreSQL);
    [|destruct (gostring_eqb (NormalizeEngine low engine) EngineMongoDB)].
  - unfold AnalyzePostgresWithOptions. rewrite Hblank, filterDisabledRules_run.
    apply Hgoal; cbn [fst Issues ResponseSummary]; try reflexivity.
    unfold keep. cbn [List.filter]. cbn [sqlEmptyInputIssue emptyInputIssue mkIssue Rule].
    rewrite Hoff. reflexivity.
  - unfold AnalyzeMongoWithOptions. rewrite Hblank, filterDisabledRules_run.
    apply Hgoal; cbn [fst Issues ResponseSummary]; try reflexivity.
    unfold keep. cbn [List.filter]. cbn [mongoEmptyInputIssue emptyInputIssue mkIssue Rule].
    rewrite Hoff. reflexivity.
  - unfold AnalyzeSQLWithOptions. rewrite Hblank.
    rewrite (bind_run _ _ _ _ (ruleEnabled_run _ _)), Hoff.
    apply Hgoal; reflexivity.
Qed.

Lemma blank_report (now : string) (engine : DBEngine) (content : gostring) (σ : Store) :
  isBlank content = true -> enabledIn σ "empty_input" = true ->
  emptyInputReport (fst (AnalyzeByEngine up low now engine content σ)).
Proof.
  intros Hblank Hon.
  destruct (AnalyzeByEngine_run now engine content σ) as (r & Hrun & _ & Hissues & Hn & _).
  rewrite Hrun. cbn [fst]. unfold emptyInputReport.
  rewrite Hn, Hissues. unfold statementsOf, evaluatedIssues. rewrite Hblank.
  split; [reflexivity|].
  assert (Hone : forall issue : Issue, Rule issue = "empty_input" ->
             keep σ (SliceStable issueLess [issue]) = [issue]).
  { intros issue Hrule. cbn. rewrite Hrule, Hon. reflexivity. }
  destruct (gostring_eqb (NormalizeEngine low engine) EnginePostgreSQL);
    [|destruct (gostring_eqb (NormalizeEngine low engine) EngineMongoDB)];
    cbn [ret fst]; rewrite Hone by reflexivity; eexists; repeat split; reflexivity.
Qed.

(* ===================================================================== *)
(** * Enforcement of the always-enabled rules *)
(* ===================================================================== *)

Lemma stringLe_trans (x : string) : forall y z : string,
  stringLe x y -> stringLe y z -> stringLe x z.
Proof.
  unfold stringLe, String.leb.
  induction x as [|a x IH]; intros [|b y] [|c z]; cbn; try congruence.
  unfold Ascii.compare.
  destruct (N.compare_spec (Ascii.N_of_ascii a) (Ascii.N_of_ascii b)) as [Hab|Hab|Hab];
    destruct (N.compare_spec (Ascii.N_of_ascii b) (Ascii.N_of_ascii c)) as [Hbc|Hbc|Hbc];
    destruct (N.compare_spec (Ascii.N_of_ascii a) (Ascii.N_of_ascii c)) as [Hac|Hac|Hac];
    try congruence; try lia.
  apply IH.
Qed.

Lemma stringLe_antisym (x y : string) : stringLe x y -> stringLe y x -> x = y.
Proof. apply String.leb_antisym. Qed.

Lemma insertString_Permutation (x : string) (l : list string) :
  insertString x l ≡ₚ x :: l.
Proof.
  induction l as [|y t IH]; cbn [insertString]; [reflexivity|].
  destruct (String.leb x y); [reflexivity|].
  rewrite IH. apply perm_swap.
Qed.

Lemma sortStrings_Permutation (l : list string) : sortStrings l ≡ₚ l.
Proof.
  induction l as [|x t IH]; cbn; [reflexivity|].
  rewrite insertString_Permutation. apply perm_skip, IH.
Qed.

Lemma sortStrings_In (l : list string) (c : string) : In c (sortStrings l) <-> In c l.
Proof.
  split; apply Permutation_in;
    [apply sortStrings_Permutation | symmetry; apply sortStrings_Permutation].
Qed.

Lemma insertString_sorted (x : string) (l : list string) :
  StronglySorted stringLe l -> StronglySorted stringLe (insertString x l).
Proof.
  induction l as [|y t IH]; intros Hs; cbn [insertString].
  - repeat constructor.
  - inversion Hs as [|? ? Ht Hy]; subst.
    destruct (String.leb x y) eqn:E.
    + constructor; [exact Hs|]. constructor; [exact E|].
      rewrite List.Forall_forall in Hy |- *. intros z Hz.
      eapply stringLe_trans; [exact E|apply Hy, Hz].
    + constructor; [apply IH, Ht|].
      rewrite List.Forall_forall in Hy |- *. intros z Hz.
      apply (Permutation_in _ (insertString_Permutation x t)) in Hz.
      destruct Hz as [<-|Hz]; [|apply Hy, Hz].
      destruct (String.leb_total x y) as [H|H]; [congruence|exact H].
Qed.

Lemma sortStrings_sorted (l : list string) : StronglySorted stringLe (sortStrings l).
Proof.
  induction l as [|x t IH]; cbn; [constructor|]. apply insertString_sorted, IH.
Qed.

(** The sorted slice does not depend on the order in which a range over a
    map produced its elements. *)
Lemma sortStrings_order_irrelevant (l l' : list string) :
  l ≡ₚ l' -> sortStrings l = sortStrings l'.
Proof.
  intros Hperm.
  apply (@StronglySorted_unique string stringLe stringLe_antisym).
  - apply sortStrings_sorted.
  - apply sortStrings_sorted.
  - rewrite !sortStrings_Permutation. exact Hperm.
Qed.

Lemma enforceLoop_run (codes : list string) : forall (removed : list string) (s : gset string),
  exists removed' : list string,
    enforceLoop codes removed (Some s) = (removed', Some (s ∖ list_to_set codes))
    /\ (forall c, In c removed' <-> In c removed \/ (In c codes /\ c ∈ s))
    /\ (NoDup removed -> (forall c, In c removed -> c ∉ s) -> NoDup removed').
Proof.
  induction codes as [|code rest IH]; intros removed s; cbn [enforceLoop].
  - exists removed. split; [|split].
    + unfold ret. do 2 f_equal. cbn. set_solver.
    + intros c. cbn. tauto.
    + auto.
  - unfold bind at 1. unfold mapFound at 1.
    destruct (bool_decide (code ∈ s)) eqn:Hfound; cbn [negb].
    + apply bool_decide_eq_true in Hfound.
      unfold bind at 1. unfold mapDelete at 1.
      destruct (IH (removed ++ [code]) (s ∖ {[code]})) as (removed' & Hrun & Hmem & Hnodup).
      exists removed'. split; [|split].
      * rewrite Hrun. do 2 f_equal. cbn. set_solver.
      * intros c. rewrite Hmem, in_app_iff. cbn [In].
        destruct (decide (c = code)) as [->|Hne]; [tauto|].
        split.
        -- intros [[H|[H|[]]]|[H1 H2]]; [auto|congruence|].
           right. split; [auto|set_solver].
        -- intros [H|[[H|H] H2]]; [auto|congruence|].
           right. split; [auto|set_solver].
      * intros Hnd Hout. apply Hnodup.
        -- apply NoDup_app. split; [exact Hnd|]. split; [|apply NoDup_singleton].
           intros c Hc Hc'. apply list_elem_of_In in Hc.
           apply list_elem_of_singleton in Hc'. subst c. apply (Hout code Hc), Hfound.
        -- intros c Hc. apply in_app_or in Hc as [Hc|[<-|[]]].
           ++ specialize (Hout c Hc). set_solver.
           ++ set_solver.
    + apply bool_decide_eq_false in Hfound.
      destruct (IH removed s) as (removed' & Hrun & Hmem & Hnodup).
      exists removed'. split; [|split].
      * rewrite Hrun. do 2 f_equal. cbn. set_solver.
      * intros c. rewrite Hmem. cbn [In].
        split; [tauto|].
        intros [H|[[H|H] H2]]; [auto| |auto]. subst c. contradiction.
      * exact Hnodup.
Qed.

Lemma enforce_unfold (order : list string) (σ : Store) :
  enforceAlwaysEnabledRules order σ =
  match σ with
  | None => ([], None)
  | Some s =>
      if Z.of_nat (size s) =? 0 then ([], Some s)
      else (sortStrings (fst (enforceLoop order [] (Some s))),
            snd (enforceLoop order [] (Some s)))
  end.
Proof.
  destruct σ as [s|]; [|reflexivity].
  unfold enforceAlwaysEnabledRules, bind, mapIsNil, mapLen, ret. cbn [orb].
  destruct (Z.of_nat (size s) =? 0); [reflexivity|].
  destruct (enforceLoop order [] (Some s)); reflexivity.
Qed.

(** What [enforceAlwaysEnabledRules] returns and what it leaves in the map. *)
Lemma enforce_run (order : list string) (σ : Store) :
  exists (forced : list string) (σ' : Store),
    enforceAlwaysEnabledRules order σ = (forced, σ')
    /\ requested σ' = requested σ ∖ list_to_set order
    /\ forall c, In c forced <-> In c order /\ c ∈ requested σ.
Proof.
  rewrite enforce_unfold.
  destruct σ as [s|].
  - destruct (Z.of_nat (size s) =? 0) eqn:Hsize.
    + apply Z.eqb_eq in Hsize.
      assert (Hs : size s = O) by lia.
      apply size_empty_inv, leibniz_equiv in Hs. subst s.
      exists [], (Some ∅). split; [reflexivity|]. split.
      * cbn. set_solver.
      * intros c. cbn. set_solver.
    + destruct (enforceLoop_run order [] s) as (removed & Hrun & Hmem & _).
      exists (sortStrings removed), (Some (s ∖ list_to_set order)).
      rewrite Hrun. split; [reflexivity|].
      split; [reflexivity|].
      intros c. rewrite sortStrings_In, Hmem. cbn. tauto.
  - exists [], None. split; [reflexivity|]. split.
    + cbn. set_solver.
    + intros c. cbn. set_solver.
Qed.

(** The result of [enforceAlwaysEnabledRules] is the same for every order
    in which the range visits the always-enabled codes. *)
Lemma enforce_order_irrelevant (order order' : list string) (σ : Store) :
  order ≡ₚ order' ->
  enforceAlwaysEnabledRules order σ = enforceAlwaysEnabledRules order' σ.
Proof.
  intros Hperm. rewrite !enforce_unfold.
  destruct σ as [s|]; [|reflexivity].
  destruct (Z.of_nat (size s) =? 0); [reflexivity|].
  destruct (enforceLoop_run order [] s) as (r1 & Hrun1 & Hmem1 & Hnd1).
  destruct (enforceLoop_run order' [] s) as (r2 & Hrun2 & Hmem2 & Hnd2).
  rewrite Hrun1, Hrun2. cbn [fst snd]. f_equal.
  - apply sortStrings_order_irrelevant.
    apply NoDup_Permutation.
    + apply Hnd1; [constructor|intros c []].
    + apply Hnd2; [constructor|intros c []].
    + intros c. rewrite !list_elem_of_In, Hmem1, Hmem2.
      rewrite <- !list_elem_of_In, Hperm. tauto.
  - f_equal. f_equal. apply set_eq. intros c.
    rewrite !elem_of_list_to_set, Hperm. reflexivity.
Qed.

Lemma disabledRulesToSlice_run (σ : Store) :
  exists slice : list string,
    disabledRulesToSlice σ = (slice, σ) /\ forall c, In c slice <-> c ∈ requested σ.
Proof.
  unfold disabledRulesToSlice, bind, mapKeys, ret.
  eexists. split; [reflexivity|].
  intros c. rewrite sortStrings_In.
  destruct σ as [s|]; cbn.
  - rewrite <- list_elem_of_In. apply elem_of_elements.
  - set_solver.
Qed.

(** Whatever order the range over the map takes, the sorted slice is the
    same. *)
Lemma disabledRulesToSlice_order (s : gset string) (keys : list string) :
  keys ≡ₚ elements s -> sortStrings keys = fst (disabledRulesToSlice (Some s)).
Proof. intros Hperm. cbn. apply sortStrings_order_irrelevant, Hperm. Qed.

Lemma order_keys (order : list string) (c : string) :
  order ≡ₚ elements alwaysEnabledRules ->
  (In c order <-> c ∈ alwaysEnabledRules)
  /\ list_to_set (C:=gset string) order = alwaysEnabledRules.
Proof.
  intros Hperm. split.
  - rewrite <- list_elem_of_In, Hperm. apply elem_of_elements.
  - apply set_eq. intros x. rewrite elem_of_list_to_set, Hperm. apply elem_of_elements.
Qed.

Lemma enabledIn_requested (σ : Store) (rule : string) :
  rule ∉ requested σ -> enabledIn σ rule = true.
Proof.
  destruct σ as [s|]; cbn; [|reflexivity].
  intros H. rewrite bool_decide_eq_false_2 by exact H. reflexivity.
Qed.

(** [handleCheck] in terms of its three steps. *)
Lemma handleCheck_run (order : list string) (now : string) (engine : DBEngine)
    (content : gostring) (σ : Store) :
  exists (forced slice : list string) (σ' : Store) (r : CheckResponse) (out : checkOutcome),
    enforceAlwaysEnabledRules order σ = (forced, σ')
    /\ AnalyzeByEngine up low now engine content σ' = (r, σ')
    /\ disabledRulesToSlice σ' = (slice, σ')
    /\ handleCheck up low order now engine content σ = (out, σ')
    /\ Forced out = forced /\ DisabledRules out = slice /\ Response out = r.
Proof.
  destruct (enforce_run order σ) as (forced & σ' & Henf & _).
  destruct (AnalyzeByEngine_run now engine content σ') as (r & Hrun & _).
  destruct (disabledRulesToSlice_run σ') as (slice & Hslice & _).
  exists forced, slice, σ', r. eexists.
  split; [exact Henf|]. split; [exact Hrun|]. split; [exact Hslice|].
  unfold handleCheck.
  rewrite (bind_step _ _ _ _ _ Henf), (bind_run _ _ _ _ Hrun), (bind_run _ _ _ _ Hslice).
  split; [reflexivity|]. cbn. repeat split; reflexivity.
Qed.

(** C1. Whatever map of disabled rules the caller sends, every code of the
    always-enabled rule set in it is taken out of the map before the
    evaluation begins and is reported back as forced; the disabled rules of
    the response hold no always-enabled code, and hold every other code the
    caller sent. This holds for every order in which the range over the
    always-enabled rule set visits its codes. *)
Theorem always_enabled_rules_enforced (order : list string) (now : string)
    (engine : DBEngine) (content : gostring) (σ : Store) :
  order ≡ₚ elements alwaysEnabledRules ->
  let atEvaluation := snd (enforceAlwaysEnabledRules order σ) in
  let out := fst (handleCheck up low order now engine content σ) in
  (forall code, code ∈ alwaysEnabledRules ->
     (code ∉ requested atEvaluation) /\ ~ In code (DisabledRules out))
  /\ (forall code, In code (Forced out) <-> code ∈ alwaysEnabledRules /\ code ∈ requested σ)
  /\ (forall code, In code (DisabledRules out) <->
        code ∈ requested σ /\ code ∉ alwaysEnabledRules).
Proof.
  intros Hperm.
  destruct (handleCheck_run order now engine content σ)
    as (forced & slice & σ' & r & out & Henf & _ & Hslice & Hrun & Hf & Hd & _).
  destruct (enforce_run order σ) as (forced0 & σ0 & Henf0 & Hreq & Hforced).
  rewrite Henf in Henf0. injection Henf0 as <- <-.
  destruct (disabledRulesToSlice_run σ') as (slice0 & Hslice0 & Hmem).
  rewrite Hslice in Hslice0. injection Hslice0 as <-.
  cbn zeta. rewrite Henf, Hrun. cbn [fst snd]. rewrite Hf, Hd.
  destruct (order_keys order "" Hperm) as [_ Hset].
  rewrite Hset in Hreq.
  split; [|split].
  - intros code Hcode.
    assert (Hout : code ∉ requested σ') by (rewrite Hreq; set_solver).
    split; [exact Hout|]. rewrite Hmem. exact Hout.
  - intros code. rewrite Hforced.
    destruct (order_keys order code Hperm) as [Hin _]. rewrite Hin. reflexivity.
  - intros code. rewrite Hmem, Hreq. set_solver.
Qed.

(** C4. For every engine, a blank script analyzed with no rule disabled has
    zero statements and exactly one issue, [empty_input] of severity error;
    and a check request gets the same report whatever rules the caller asks
    to disable, since [empty_input] is forced back on before the analysis. *)
Theorem blank_script_reports_empty_input (order : list string) (now : string)
    (engine : DBEngine) (content : gostring) (σ : Store) :
  isBlank content = true ->
  order ≡ₚ elements alwaysEnabledRules ->
  (requested σ = ∅ ->
   emptyInputReport (fst (AnalyzeByEngine up low now engine content σ)))
  /\ emptyInputReport (Response (fst (handleCheck up low order now engine content σ))).
Proof.
  intros Hblank Hperm. split.
  - intros Hnone. apply blank_report; [exact Hblank|].
    apply enabledIn_requested. rewrite Hnone. apply not_elem_of_empty.
  - destruct (handleCheck_run order now engine content σ)
      as (forced & slice & σ' & r & out & Henf & Hana & _ & Hrun & _ & _ & Hr).
    destruct (enforce_run order σ) as (forced0 & σ0 & Henf0 & Hreq & _).
    rewrite Henf in Henf0. injection Henf0 as <- <-.
    rewrite Hrun. cbn [fst]. rewrite Hr.
    replace r with (fst (AnalyzeByEngine up low now engine content σ'))
      by (rewrite Hana; reflexivity).
    apply blank_report; [exact Hblank|].
    apply enabledIn_requested. rewrite Hreq.
    destruct (order_keys order "" Hperm) as [_ ->].
    unfold alwaysEnabledRules. set_solver.
Qed.

(* ===================================================================== *)
(** * Terminator issues and statement indices *)
(* ===================================================================== *)

Lemma not_both_rules (rule : string) : fullwidthRule rule -> missingRule rule -> False.
Proof. unfold fullwidthRule, missingRule. intros -> [E|E]; discriminate E. Qed.

Lemma fullwidthItems_range (engine : DBEngine) (content : gostring)
    (item : missingTerminatorStatement) :
  In item (fullwidthItemsOf up low engine content) ->
  1 <= Index item <= statementsOf low engine content
  \/ (gostring_eqb (NormalizeEngine low engine) EngineMongoDB = false
      /\ 1 <= Index item
         <= Z.of_nat (length (splitSQLByLineStartHeuristicDetailed content))).
Proof.
  unfold fullwidthItemsOf, statementsOf.
  destruct (isBlank content); [contradiction|].
  destruct (gostring_eqb (NormalizeEngine low engine) EnginePostgreSQL) eqn:Hpg.
  - rewrite (normalized_exclusive engine Hpg).
    intros H. apply detectFullwidth_In in H as [_ H]. right. auto.
  - destruct (gostring_eqb (NormalizeEngine low engine) EngineMongoDB).
    + intros H. left. apply mongoItems_range. left. exact H.
    + intros H. apply detectFullwidth_In in H as [_ H]. right. auto.
Qed.

Lemma missingItems_range (engine : DBEngine) (content : gostring)
    (item : missingTerminatorStatement) :
  In item (missingItemsOf up low engine content) ->
  1 <= Index item <= statementsOf low engine content
  \/ (gostring_eqb (NormalizeEngine low engine) EngineMongoDB = false
      /\ 1 <= Index item
         <= Z.of_nat (length (splitSQLByLineStartHeuristicDetailed content))).
Proof.
  unfold missingItemsOf, statementsOf.
  destruct (isBlank content); [contradiction|].
  destruct (gostring_eqb (NormalizeEngine low engine) EnginePostgreSQL) eqn:Hpg.
  - rewrite (normalized_exclusive engine Hpg).
    intros H. apply excludeMissing_In in H as [H _].
    apply detectMissing_In in H as (_ & _ & [H|H]); [right|left]; auto.
  - destruct (gostring_eqb (NormalizeEngine low engine) EngineMongoDB).
    + intros H. left. apply mongoItems_range. right. exact H.
    + intros H. apply excludeMissing_In in H as [H _].
      apply detectMissing_In in H as (_ & _ & [H|H]); [right|left]; auto.
Qed.

(** C3, as the code has it. Every issue of a report has statement index 0,
    or a 1-based index into the statements counted by the summary; the
    exception is a terminator issue of the MySQL or PostgreSQL analyzer,
    whose index may instead be a 1-based position in the line-start
    re-segmentation of the script. *)
Theorem statement_index_in_range (now : string) (engine : DBEngine)
    (content : gostring) (σ : Store) (issue : Issue) :
  let r := fst (AnalyzeByEngine up low now engine content σ) in
  In issue (Issues r) ->
  StatementIndex issue = 0
  \/ 1 <= StatementIndex issue <= StatementCount (ResponseSummary r)
  \/ (gostring_eqb (NormalizeEngine low engine) EngineMongoDB = false
      /\ (fullwidthRule (Rule issue) \/ missingRule (Rule issue))
      /\ 1 <= StatementIndex issue
         <= Z.of_nat (length (splitSQLByLineStartHeuristicDetailed content))).
Proof.
  destruct (AnalyzeByEngine_run now engine content σ) as (r & Hrun & Hr).
  cbn zeta. rewrite Hrun. cbn [fst]. intros Hin.
  pose proof (report_classified _ _ _ _ _ _ Hr Hin) as Hcl.
  destruct Hr as (_ & _ & Hn & _). rewrite Hn.
  destruct Hcl as [(_ & _ & [H|H])|[(Hrule & Hne & Hidx & _)|(Hrule & Hne & Hidx & _)]].
  - left. exact H.
  - right. left. exact H.
  - apply firstIndex_In in Hne as (item & Hitem & Hi). rewrite Hidx, <- Hi.
    apply fullwidthItems_range in Hitem as [H|[H1 H2]]; [right; left; exact H|].
    right. right. auto.
  - apply firstIndex_In in Hne as (item & Hitem & Hi). rewrite Hidx, <- Hi.
    apply missingItems_range in Hitem as [H|[H1 H2]]; [right; left; exact H|].
    right. right. auto.
Qed.

Lemma terminatorItems_disjoint (engine : DBEngine) (content : gostring)
    (a b : missingTerminatorStatement) :
  In a (fullwidthItemsOf up low engine content) ->
  In b (missingItemsOf up low engine content) ->
  Index a <> Index b.
Proof.
  unfold fullwidthItemsOf, missingItemsOf.
  destruct (isBlank content); [contradiction|].
  destruct (gostring_eqb (NormalizeEngine low engine) EnginePostgreSQL);
    [|destruct (gostring_eqb (NormalizeEngine low engine) EngineMongoDB)].
  - intros Ha Hb. apply excludeMissing_In in Hb as [_ Hb]. apply Hb, Ha.
  - apply mongoItems_disjoint.
  - intros Ha Hb. apply excludeMissing_In in Hb as [_ Hb]. apply Hb, Ha.
Qed.

(** C5. In every report, an issue [fullwidth_statement_terminator] reports
    the statements that end in a full-width semicolon and an issue
    [missing_statement_terminator] or [mongo_missing_statement_terminator]
    reports the statements that miss a terminator, and no statement index
    belongs to both lists. *)
Theorem terminator_reports_exclusive (now : string) (engine : DBEngine)
    (content : gostring) (σ : Store) :
  let r := fst (AnalyzeByEngine up low now engine content σ) in
  let fw := fullwidthItemsOf up low engine content in
  let ms := missingItemsOf up low engine content in
  (forall issue, In issue (Issues r) -> fullwidthRule (Rule issue) ->
     reportsFullwidth issue fw (subjectOf low engine))
  /\ (forall issue, In issue (Issues r) -> missingRule (Rule issue) ->
        reportsMissing issue ms (subjectOf low engine))
  /\ (forall a b, In a fw -> In b ms -> Index a <> Index b).
Proof.
  destruct (AnalyzeByEngine_run now engine content σ) as (r & Hrun & Hr).
  cbn zeta. rewrite Hrun. cbn [fst]. split; [|split].
  - intros issue Hin Hrule.
    destruct (report_classified _ _ _ _ _ _ Hr Hin) as [(Hno & _)|[(_ & H)|(Hms & _)]].
    + contradiction.
    + exact H.
    + destruct (not_both_rules _ Hrule Hms).
  - intros issue Hin Hrule.
    destruct (report_classified _ _ _ _ _ _ Hr Hin) as [(_ & Hno & _)|[(Hfw & _)|(_ & H)]].
    + contradiction.
    + destruct (not_both_rules _ Hfw Hrule).
    + exact H.
  - apply terminatorItems_disjoint.
Qed.

(** C6, as the code has it. The MySQL analyzer reports no issue
    [missing_statement_terminator] for a script that contains a [DELIMITER]
    directive outside comments and strings or that matches a routine
    definition; the PostgreSQL analyzer reports none for a script that
    contains a [DELIMITER] directive. *)
Theorem exempt_script_has_no_missing_terminator (now : string) (engine : DBEngine)
    (content : gostring) (σ : Store) (issue : Issue) :
  gostring_eqb (NormalizeEngine low engine) EngineMongoDB = false ->
  mentionsDelimiter up content = true
  \/ (gostring_eqb (NormalizeEngine low engine) EnginePostgreSQL = false
      /\ MatchString reRoutineDefinition content = true) ->
  In issue (Issues (fst (AnalyzeByEngine up low now engine content σ))) ->
  Rule issue <> "missing_statement_terminator".
Proof.
  intros Hmongo Hexempt.
  destruct (AnalyzeByEngine_run now engine content σ) as (r & Hrun & Hr).
  rewrite Hrun. cbn [fst]. intros Hin Hrule.
  assert (Hnone : missingItemsOf up low engine content = []).
  { unfold missingItemsOf. rewrite Hmongo.
    destruct (isBlank content); [reflexivity|].
    destruct (gostring_eqb (NormalizeEngine low engine) EnginePostgreSQL).
    - destruct Hexempt as [H|[H _]]; [|discriminate H].
      rewrite detectMissing_exempt by (right; exact H). reflexivity.
    - rewrite detectMissing_exempt; [reflexivity|].
      destruct Hexempt as [H|[_ H]]; [right|left]; exact H. }
  destruct (report_classified _ _ _ _ _ _ Hr Hin)
    as [(_ & Hno & _)|[(Hfw & _)|(_ & Hne & _)]].
  - apply Hno. left. exact Hrule.
  - unfold fullwidthRule in Hfw. rewrite Hrule in Hfw. discriminate Hfw.
  - apply Hne, Hnone.
Qed.

End Properties.

(* ===================================================================== *)
(** * The full-width semicolon in the segmenter *)
(* ===================================================================== *)

Lemma setQuotes_same (st : sqlSplit) :
  setQuotes (inSingleQuote st) (inDoubleQuote st) (inBacktick st) st = st.
Proof. destruct st; reflexivity. Qed.

Lemma matchRunesAt_head (rs : gostring) (i : nat) (c : rune) (d : gostring) :
  runeAt rs i <> c -> matchRunesAt rs i (c :: d) = false.
Proof.
  intros Hne. unfold matchRunesAt. cbn [isEmpty orb].
  destruct (Nat.ltb _ _) eqn:Hlen; [reflexivity|].
  apply Nat.ltb_ge in Hlen. cbn [length] in Hlen.
  unfold runeAt in Hne.
  destruct (rs !! i) as [x|] eqn:Hx.
  - assert (Hd : drop i rs = x :: drop (S i) rs) by (apply drop_S; exact Hx).
    rewrite Hd. cbn [length take gostring_eqb].
    cbn in Hne.
    unfold rune_eqb. destruct (Z.eqb_spec x c) as [->|_]; [contradiction|reflexivity].
  - apply lookup_ge_None in Hx. unfold gostring, rune in *. lia.
Qed.

Lemma matchRunesAt_single (rs : gostring) (i : nat) (c : rune) :
  (i < length rs)%nat -> runeAt rs i = c -> matchRunesAt rs i [c] = true.
Proof.
  intros Hlt Hc. unfold matchRunesAt. cbn [isEmpty orb length].
  assert (Hlen : Nat.ltb (length rs) (i + 1) = false) by (apply Nat.ltb_ge; lia).
  rewrite Hlen. unfold runeAt in Hc.
  destruct (rs !! i) as [x|] eqn:Hx.
  - assert (Hd : drop i rs = x :: drop (S i) rs) by (apply drop_S; exact Hx).
    rewrite Hd. cbn [take gostring_eqb]. cbn in Hc.
    subst x. unfold rune_eqb. rewrite Z.eqb_refl.
    destruct (drop (S i) rs); reflexivity.
  - apply lookup_ge_None in Hx. unfold gostring, rune in *. lia.
Qed.

(** C7. In the segmenter, outside quotes and comments: under the default
    delimiter a full-width semicolon ends the current statement, the trimmed
    fragment before it being emitted when it is not blank, exactly as a
    semicolon at that place does; under a delimiter other than the
    semicolon that holds no full-width semicolon, the full-width semicolon is
    kept as a rune of the statement and no statement ends. *)
Theorem fullwidth_semicolon_ends_statement (rs : gostring) (i : nat) (st : sqlSplit) :
  (i < length rs)%nat ->
  runeAt rs i = fullwidthSemicolon ->
  inLineComment st = false -> inBlockComment st = false -> outsideQuotes st = true ->
  (delimiter st = [semicolon] ->
   splitStep rs i st = (i, emitPiece st)
   /\ forall rs' : gostring,
        (i < length rs')%nat -> runeAt rs' i = semicolon ->
        splitStep rs' i st = splitStep rs i st)
  /\ (delimiter st <> [semicolon] -> ~ In fullwidthSemicolon (delimiter st) ->
      splitStep rs i st = (i, writeRune fullwidthSemicolon st)
      /\ items (snd (splitStep rs i st)) = items st).
Proof.
  intros Hlt Hch Hline Hblock Hquotes.
  unfold outsideQuotes in Hquotes.
  apply andb_true_iff in Hquotes as [Hquotes Hbt].
  apply andb_true_iff in Hquotes as [Hsq Hdq].
  apply negb_true_iff in Hsq, Hdq, Hbt.
  destruct st as [its b d sq dq bt bl ln].
  cbn [inLineComment inBlockComment inSingleQuote inDoubleQuote inBacktick delimiter items]
    in *.
  subst sq dq bt bl ln.
  set (st := {| items := its; builder := b; delimiter := d; inSingleQuote := false;
                inDoubleQuote := false; inBacktick := false; inBlockComment := false;
                inLineComment := false |}).
  assert (Hstep : forall (rs0 : gostring) (ch : rune),
             runeAt rs0 i = ch -> ch = fullwidthSemicolon \/ ch = semicolon ->
             splitStep rs0 i st =
             if negb (isEmpty d) then
               if matchRunesAt rs0 i d then
                 ((i + (length d - 1))%nat, emitPiece st)
               else if gostring_eqb d [semicolon] && isFullwidthSemicolon ch
               then (i, emitPiece st)
               else (i, writeRune ch st)
             else (i, writeRune ch st)).
  { intros rs0 ch Hrs0 Hcases. unfold splitStep, outsideQuotes.
    cbn [inLineComment inBlockComment inSingleQuote inDoubleQuote inBacktick delimiter st
         setQuotes].
    rewrite Hrs0.
    assert (Hc : (ch =? 45) = false /\ (ch =? 35) = false /\ (ch =? 47) = false
                 /\ (ch =? 39) = false /\ (ch =? 34) = false /\ (ch =? 96) = false).
    { destruct Hcases as [-> | ->]; repeat split; reflexivity. }
    destruct Hc as (H1 & H2 & H3 & H4 & H5 & H6).
    rewrite H1, H2, H3, H4, H5, H6. cbn [andb negb]. reflexivity. }
  split.
  - intros Hdelim.
    assert (Hfull : splitStep rs i st = (i, emitPiece st)).
    { rewrite (Hstep rs fullwidthSemicolon Hch (or_introl eq_refl)), Hdelim.
      cbn [isEmpty negb].
      rewrite matchRunesAt_head by (rewrite Hch; discriminate). reflexivity. }
    split; [exact Hfull|].
    intros rs' Hlt' Hch'. rewrite Hfull.
    rewrite (Hstep rs' semicolon Hch' (or_intror eq_refl)), Hdelim.
    cbn [isEmpty negb]. rewrite (matchRunesAt_single _ _ _ Hlt' Hch').
    cbn [length]. rewrite Nat.sub_diag, Nat.add_0_r. reflexivity.
  - intros Hdelim Hnotin.
    assert (Hwrite : splitStep rs i st = (i, writeRune fullwidthSemicolon st)).
    { rewrite (Hstep rs fullwidthSemicolon Hch (or_introl eq_refl)).
      destruct d as [|c d]; [reflexivity|].
      cbn [isEmpty negb].
      rewrite matchRunesAt_head
        by (rewrite Hch; intros E; apply Hnotin; left; symmetry; exact E).
      replace (gostring_eqb (c :: d) [semicolon]) with false; [reflexivity|].
      symmetry. apply not_true_is_false. intros E. apply Hdelim.
      cbn [gostring_eqb] in E. apply andb_true_iff in E as [E1 E2].
      apply Z.eqb_eq in E1. destruct d; [|discriminate E2]. subst c. reflexivity. }
    split; [exact Hwrite|]. rewrite Hwrite. reflexivity.
Qed.

(* ===================================================================== *)
(** * The properties at concrete scripts *)
(* ===================================================================== *)

(** The scenario of [TestSplitSQLStatementsSupportsRoutineDelimiter]. *)
Example split_routine_delimiter :
  length (splitSQLStatements
            (runes "DELIMITER $$" ++ [newline] ++ runes "CREATE PROCEDURE p_demo()"
             ++ [newline] ++ runes "BEGIN" ++ [newline] ++ runes "  SELECT 1;"
             ++ [newline] ++ runes "  SELECT 2;" ++ [newline] ++ runes "END$$"
             ++ [newline] ++ runes "DELIMITER ;" ++ [newline] ++ runes "SELECT 3;"))
  = 2%nat.
Proof. vm_compute. reflexivity. Qed.

(** A full-width semicolon splits like a semicolon under the default
    delimiter, and not at all under a custom one. *)
Example split_fullwidth_default :
  splitSQLStatements (runes "a" ++ [fullwidthSemicolon] ++ runes "b")
  = [runes "a"; runes "b"]
  /\ splitSQLStatements (runes "a;b") = [runes "a"; runes "b"].
Proof. split; vm_compute; reflexivity. Qed.

Example split_fullwidth_custom :
  splitSQLStatements
    (runes "DELIMITER $$" ++ [newline] ++ runes "a" ++ [fullwidthSemicolon] ++ runes "b$$")
  = [runes "a" ++ [fullwidthSemicolon] ++ runes "b"].
Proof. vm_compute. reflexivity. Qed.

(** [TestAnalyzeSQLDetectsRiskRules] *)
Example analyze_risk_rules :
  let r := analyzeAscii EngineMySQL
             (scriptOf ["UPDATE users SET status='off';"; "DELETE FROM orders;";
                        "SELECT * FROM users;"]) None in
  StatementCount (ResponseSummary r) = 3
  /\ 2 <= ErrorCount (ResponseSummary r) /\ 1 <= WarningCount (ResponseSummary r).
Proof. vm_compute. repeat split; discriminate. Qed.

(** [TestAnalyzeSQLDetectsMissingTerminatorBeforeCommit] *)
Example analyze_missing_before_commit :
  let r := analyzeAscii EngineMySQL
             (scriptOf ["START TRANSACTION;";
                        "UPDATE users SET status='inactive' WHERE last_login < DATE_SUB(NOW(), INTERVAL 180 DAY);";
                        "DELETE FROM orders WHERE created_at < DATE_SUB(NOW(), INTERVAL 365 DAY);";
                        "SELECT * FROM users WHERE name LIKE '%tom%'";
                        "COMMIT;"]) None in
  StatementIndex <$> getIssueByRule (Issues r) "missing_statement_terminator" = Some 4
  /\ Statement <$> getIssueByRule (Issues r) "missing_statement_terminator"
     = Some (runes "SELECT * FROM users WHERE name LIKE '%tom%'").
Proof. vm_compute. split; reflexivity. Qed.

(** [TestAnalyzeByEnginePostgresDetectsFullwidthTerminator] *)
Example analyze_postgres_fullwidth :
  let r := analyzeAscii EnginePostgreSQL
             (runes "BEGIN;" ++ [newline]
              ++ runes "UPDATE users SET status = 'inactive' WHERE last_login_at < now() - interval '180 days'"
              ++ [fullwidthSemicolon; newline]
              ++ scriptOf ["DELETE FROM orders WHERE created_at < now() - interval '365 days';";
                           "SELECT * FROM users WHERE name ILIKE '%tom%';";
                           "COMMIT;"]) None in
  StatementIndex <$> getIssueByRule (Issues r) "fullwidth_statement_terminator" = Some 2
  /\ hasRule (Issues r) "missing_statement_terminator" = false.
Proof. vm_compute. split; reflexivity. Qed.

(** [TestAnalyzeSQLRoutineDoesNotWarnMissingStatementTerminator] *)
Example analyze_routine :
  let script := scriptOf ["DELIMITER $$"; "CREATE PROCEDURE p_demo()"; "BEGIN";
                          "  UPDATE users SET status='inactive'";
                          "  DELETE FROM users WHERE id = 10;"; "END$$"; "DELIMITER ;"] in
  let r := analyzeAscii EngineMySQL script None in
  hasRule (Issues r) "missing_statement_terminator" = false
  /\ hasRule (Issues r) "routine_definition_detected" = true.
Proof. vm_compute. split; reflexivity. Qed.

(** [TestAnalyzeByEngineMongoDetectsMissingTerminator], without the string
    literals of the test script. *)
Example analyze_mongo_missing :
  let r := analyzeAscii EngineMongoDB
             (scriptOf ["db.users.updateMany({ status: 1 }, { $set: { status: 2 } });";
                        "db.orders.deleteMany({ createdAt: { $lt: 3 } })";
                        "db.users.find({ name: /tom/i });"]) None in
  StatementIndex <$> getIssueByRule (Issues r) "mongo_missing_statement_terminator" = Some 2
  /\ Statement <$> getIssueByRule (Issues r) "mongo_missing_statement_terminator"
     = Some (runes "db.orders.deleteMany({ createdAt: { $lt: 3 } })").
Proof. vm_compute. split; reflexivity. Qed.

(** [TestEnforceAlwaysEnabledRules]: the call changes the caller's map. *)
Example enforce_changes_the_map :
  let σ : Store :=
    Some {[ "missing_statement_terminator"; "mongo_missing_statement_terminator";
            "select_star" ]} in
  fst (enforceAlwaysEnabledRules (elements alwaysEnabledRules) σ)
  = ["missing_statement_terminator"; "mongo_missing_statement_terminator"]
  /\ snd (enforceAlwaysEnabledRules (elements alwaysEnabledRules) σ) = Some {[ "select_star" ]}
  /\ snd (enforceAlwaysEnabledRules (elements alwaysEnabledRules) σ) <> σ.
Proof.
  cbn zeta. split; [vm_compute; reflexivity|].
  split; [vm_compute; reflexivity|].
  intros E.
  apply (f_equal (fun st => fst (mapFound "missing_statement_terminator" st))) in E.
  vm_compute in E. discriminate E.
Qed.

(** A directive whose fields are separated by a tab is followed by the
    segmenter, and is not the text that exempts a script from the check for
    a missing terminator. *)
Example tab_separated_directive :
  parseDelimiterDirective (runes "DELIMITER" ++ [9] ++ runes "$$") = (runes "$$", true)
  /\ mentionsDelimiter asciiToUpper scriptTabDirective = false
  /\ hasRule (Issues (analyzeAscii EngineMySQL scriptTabDirective None))
       "missing_statement_terminator" = true.
Proof. vm_compute. repeat split; reflexivity. Qed.

Lemma always_enabled_rules_enforced_witness :
  elements alwaysEnabledRules ≡ₚ elements alwaysEnabledRules
  /\ ~ In "empty_input" (DisabledRules (checkAscii EngineMySQL scriptTwoSelects someRulesDisabled))
  /\ In "empty_input" (Forced (checkAscii EngineMySQL scriptTwoSelects someRulesDisabled))
  /\ In "select_star" (DisabledRules (checkAscii EngineMySQL scriptTwoSelects someRulesDisabled)).
Proof.
  assert (Hperm : elements alwaysEnabledRules ≡ₚ elements alwaysEnabledRules)
    by reflexivity.
  split; [exact Hperm|].
  pose proof (always_enabled_rules_enforced asciiToUpper asciiToLower
                (elements alwaysEnabledRules) "" EngineMySQL scriptTwoSelects
                someRulesDisabled Hperm) as H.
  cbn zeta in H. destruct H as (H1 & H2 & H3).
  unfold checkAscii.
  split; [|split].
  - refine (proj2 (H1 "empty_input" _)). vm_compute. reflexivity.
  - refine (proj2 (H2 "empty_input") (conj _ _)); vm_compute; reflexivity.
  - refine (proj2 (H3 "select_star") (conj _ _)); [vm_compute; reflexivity|].
    vm_compute. discriminate.
Defined.

Lemma blank_script_counts_a_dropped_issue_witness :
  isBlank (runes "  ") = true
  /\ Issues (analyzeAscii EngineMySQL (runes "  ") onlyEmptyInputDisabled) = []
  /\ ErrorCount (ResponseSummary (analyzeAscii EngineMySQL (runes "  ")
                                    onlyEmptyInputDisabled)) = 1.
Proof.
  split; [reflexivity|].
  assert (Hin : "empty_input" ∈ ({[ "empty_input" ]} : gset string))
    by (vm_compute; reflexivity).
  destruct (blank_script_counts_a_dropped_issue asciiToUpper asciiToLower ""
              EngineMySQL (runes "  ") {[ "empty_input" ]} eq_refl Hin) as (H1 & H2 & _).
  split; [exact H1|exact H2].
Defined.

(** C3: the claim as stated fails. On the two lines [SELECT 1] and
    [SELECT 2] closed by a full-width semicolon the MySQL analyzer counts
    one statement and reports the full-width terminator at index 2. *)
Lemma statement_index_beyond_count :
  ~ (forall issue : Issue,
       In issue (Issues (analyzeAscii EngineMySQL scriptTwoSelects None)) ->
       StatementIndex issue = 0
       \/ 1 <= StatementIndex issue
          <= StatementCount (ResponseSummary (analyzeAscii EngineMySQL scriptTwoSelects None))).
Proof.
  intros H.
  assert (Hin : In issueOfTwoSelects (Issues (analyzeAscii EngineMySQL scriptTwoSelects None)))
    by (vm_compute; right; left; reflexivity).
  specialize (H issueOfTwoSelects Hin).
  assert (Hidx : StatementIndex issueOfTwoSelects = 2) by (vm_compute; reflexivity).
  assert (Hcount : StatementCount (ResponseSummary (analyzeAscii EngineMySQL
                                                      scriptTwoSelects None)) = 1)
    by (vm_compute; reflexivity).
  rewrite Hidx, Hcount in H. lia.
Qed.

Lemma statement_index_in_range_witness :
  In issueOfTwoSelects (Issues (analyzeAscii EngineMySQL scriptTwoSelects None))
  /\ fullwidthRule (Rule issueOfTwoSelects)
  /\ StatementIndex issueOfTwoSelects = 2
  /\ (StatementIndex issueOfTwoSelects = 0
      \/ 1 <= StatementIndex issueOfTwoSelects
         <= StatementCount (ResponseSummary (analyzeAscii EngineMySQL scriptTwoSelects None))
      \/ (gostring_eqb (NormalizeEngine asciiToLower EngineMySQL) EngineMongoDB = false
          /\ (fullwidthRule (Rule issueOfTwoSelects) \/ missingRule (Rule issueOfTwoSelects))
          /\ 1 <= StatementIndex issueOfTwoSelects
             <= Z.of_nat (length (splitSQLByLineStartHeuristicDetailed scriptTwoSelects)))).
Proof.
  assert (Hin : In issueOfTwoSelects (Issues (analyzeAscii EngineMySQL scriptTwoSelects None)))
    by (vm_compute; right; left; reflexivity).
  split; [exact Hin|]. split; [vm_compute; reflexivity|]. split; [vm_compute; reflexivity|].
  exact (statement_index_in_range asciiToUpper asciiToLower "" EngineMySQL
           scriptTwoSelects None issueOfTwoSelects Hin).
Defined.

Lemma blank_script_reports_empty_input_witness :
  isBlank (runes "  ") = true
  /\ emptyInputReport (analyzeAscii EnginePostgreSQL (runes "  ") None)
  /\ emptyInputReport (Response (checkAscii EnginePostgreSQL (runes "  ")
                                   onlyEmptyInputDisabled)).
Proof.
  assert (Hperm : elements alwaysEnabledRules ≡ₚ elements alwaysEnabledRules)
    by reflexivity.
  split; [reflexivity|].
  split.
  - refine (proj1 (blank_script_reports_empty_input asciiToUpper asciiToLower
                     (elements alwaysEnabledRules) "" EnginePostgreSQL (runes "  ") None
                     eq_refl Hperm) _).
    reflexivity.
  - exact (proj2 (blank_script_reports_empty_input asciiToUpper asciiToLower
                    (elements alwaysEnabledRules) "" EnginePostgreSQL (runes "  ")
                    onlyEmptyInputDisabled eq_refl Hperm)).
Defined.

Lemma terminator_reports_exclusive_witness :
  fullwidthRule (Rule issueOfTwoSelects)
  /\ reportsFullwidth issueOfTwoSelects
       (fullwidthItemsOf asciiToUpper asciiToLower EngineMySQL scriptTwoSelects)
       (subjectOf asciiToLower EngineMySQL)
  /\ map Index (fullwidthItemsOf asciiToUpper asciiToLower EngineMySQL scriptTwoSelects) = [2]
  /\ map Index (missingItemsOf asciiToUpper asciiToLower EngineMySQL scriptTwoSelects) = [].
Proof.
  assert (Hin : In issueOfTwoSelects (Issues (analyzeAscii EngineMySQL scriptTwoSelects None)))
    by (vm_compute; right; left; reflexivity).
  assert (Hrule : fullwidthRule (Rule issueOfTwoSelects)) by (vm_compute; reflexivity).
  split; [exact Hrule|].
  split.
  - exact (proj1 (terminator_reports_exclusive asciiToUpper asciiToLower ""
                    EngineMySQL scriptTwoSelects None) issueOfTwoSelects Hin Hrule).
  - split; vm_compute; reflexivity.
Defined.

(** C6: the claim as stated fails for PostgreSQL. The script
    [CREATE FUNCTION f()] matches a routine definition, and the PostgreSQL
    analyzer reports its missing terminator all the same. *)
Lemma postgres_routine_reports_missing_terminator :
  ~ (MatchString reRoutineDefinition scriptRoutine = true ->
     forall issue : Issue,
       In issue (Issues (analyzeAscii EnginePostgreSQL scriptRoutine None)) ->
       Rule issue <> "missing_statement_terminator").
Proof.
  intros H.
  assert (Hroutine : MatchString reRoutineDefinition scriptRoutine = true)
    by (vm_compute; reflexivity).
  apply (H Hroutine (nth 0 (Issues (analyzeAscii EnginePostgreSQL scriptRoutine None))
                       sqlEmptyInputIssue)).
  - vm_compute. left. reflexivity.
  - vm_compute. reflexivity.
Qed.

Lemma exempt_script_has_no_missing_terminator_witness :
  mentionsDelimiter asciiToUpper scriptDelimiter = true
  /\ In issueOfDelimiter (Issues (analyzeAscii EngineMySQL scriptDelimiter None))
  /\ Rule issueOfDelimiter <> "missing_statement_terminator".
Proof.
  assert (Hd : mentionsDelimiter asciiToUpper scriptDelimiter = true)
    by (vm_compute; reflexivity).
  assert (Hin : In issueOfDelimiter (Issues (analyzeAscii EngineMySQL scriptDelimiter None)))
    by (vm_compute; left; reflexivity).
  split; [exact Hd|]. split; [exact Hin|].
  exact (exempt_script_has_no_missing_terminator asciiToUpper asciiToLower ""
           EngineMySQL scriptDelimiter None issueOfDelimiter eq_refl (or_introl Hd) Hin).
Defined.

Lemma fullwidth_semicolon_ends_statement_witness :
  splitStep (runes "a" ++ [fullwidthSemicolon]) 1 splitAtDefault
  = (1%nat, emitPiece splitAtDefault)
  /\ items (emitPiece splitAtDefault) = [runes "a"]
  /\ splitStep (runes "a;") 1 splitAtDefault
     = splitStep (runes "a" ++ [fullwidthSemicolon]) 1 splitAtDefault
  /\ splitStep (runes "a" ++ [fullwidthSemicolon]) 1 splitAtCustom
     = (1%nat, writeRune fullwidthSemicolon splitAtCustom).
Proof.
  assert (Hlt : (1 < length (runes "a" ++ [fullwidthSemicolon]))%nat) by (cbn; lia).
  destruct (fullwidth_semicolon_ends_statement (runes "a" ++ [fullwidthSemicolon]) 1
              splitAtDefault Hlt eq_refl eq_refl eq_refl eq_refl) as [Hdefault _].
  destruct (Hdefault eq_refl) as [H1 H2].
  destruct (fullwidth_semicolon_ends_statement (runes "a" ++ [fullwidthSemicolon]) 1
              splitAtCustom Hlt eq_refl eq_refl eq_refl eq_refl) as [_ Hcustom].
  split; [exact H1|]. split; [reflexivity|].
  split.
  - apply H2; [cbn; lia|reflexivity].
  - apply Hcustom.
    + discriminate.
    + cbn. intros [E|[E|[]]]; discriminate E.
Defined.

(* ===================================================================== *)
(** * The whole report of a call *)
(* ===================================================================== *)

Section ReportProperties.

Variables up low : rune -> rune.

Lemma issueOrder_not_less (a b : Issue) : issueOrder a b -> issueLess b a = false.
Proof.
  unfold issueOrder, issueLess. intros [H|[H1 H2]].
  - destruct (StatementIndex b =? StatementIndex a) eqn:E.
    + apply Z.eqb_eq in E. lia.
    + apply Z.ltb_ge. lia.
  - rewrite H1, Z.eqb_refl. apply Z.ltb_ge. exact H2.
Qed.

(** Dropping issues before or after the insertion of one issue into a
    sorted slice comes to the same. *)
Lemma filter_insertStable (p : Issue -> bool) (x : Issue) (l : list Issue) :
  StronglySorted issueOrder l ->
  List.filter p (insertStable issueLess x l)
  = if p x then insertStable issueLess x (List.filter p l) else List.filter p l.
Proof.
  induction l as [|y t IH]; intros Hs; cbn [insertStable List.filter].
  - destruct (p x); reflexivity.
  - inversion Hs as [|? ? Ht Hy]; subst.
    destruct (issueLess y x) eqn:E.
    + cbn [List.filter]. rewrite (IH Ht).
      destruct (p y), (p x); cbn [insertStable]; rewrite ?E; reflexivity.
    + cbn [List.filter]. destruct (p x) eqn:Ex; [|reflexivity].
      assert (Hhead : forall z, In z (y :: t) -> issueLess z x = false).
      { intros z [<-|Hz]; [exact E|].
        apply issueOrder_not_less.
        apply issueOrder_trans with y; [apply issueLess_false_order, E|].
        rewrite List.Forall_forall in Hy. apply Hy, Hz. }
      assert (Hf : forall z, In z (List.filter p (y :: t)) -> issueLess z x = false).
      { intros z Hz. apply List.filter_In in Hz as [Hz _]. apply Hhead, Hz. }
      cbn [List.filter] in Hf.
      destruct (List.filter p t) as [|z rest] eqn:Eft, (p y); cbn [insertStable].
      * rewrite E. reflexivity.
      * reflexivity.
      * rewrite E. reflexivity.
      * rewrite (Hf z) by (left; reflexivity). reflexivity.
Qed.

Lemma filter_SliceStable (p : Issue -> bool) (l : list Issue) :
  List.filter p (SliceStable issueLess l) = SliceStable issueLess (List.filter p l).
Proof.
  induction l as [|x t IH]; cbn [SliceStable fold_right List.filter]; [reflexivity|].
  fold (SliceStable issueLess t).
  rewrite filter_insertStable by apply SliceStable_sorted.
  rewrite IH. destruct (p x); reflexivity.
Qed.

Lemma keep_SliceStable (σ : Store) (l : list Issue) :
  keep σ (SliceStable issueLess l) = SliceStable issueLess (keep σ l).
Proof. apply filter_SliceStable. Qed.

Lemma keep_None (l : list Issue) : keep None l = l.
Proof. apply keep_all. reflexivity. Qed.

(** The flags of the MySQL scan do not depend on the disabled rules. *)
Lemma sqlStatementRound_flags (i : nat) (st : gostring) (acc1 acc2 : ruleScan)
    (σ1 σ2 : Store) :
  scanFlags acc1 = scanFlags acc2 ->
  scanFlags (fst (sqlStatementRound up i st acc1 σ1))
  = scanFlags (fst (sqlStatementRound up i st acc2 σ2)).
Proof.
  unfold scanFlags. intros H. injection H as H1 H2 H3.
  unfold sqlStatementRound.
  destruct (isEmpty (TrimSpace st)).
  - cbn. congruence.
  - rewrite !(bind_run _ _ _ _ (addIssuesWhen_run _ _ _)). cbn. congruence.
Qed.

Lemma sqlRange_flags (statements : list gostring) :
  forall (i : nat) (acc1 acc2 : ruleScan) (σ1 σ2 : Store),
    scanFlags acc1 = scanFlags acc2 ->
    scanFlags (fst (forRange (sqlStatementRound up) i statements acc1 σ1))
    = scanFlags (fst (forRange (sqlStatementRound up) i statements acc2 σ2)).
Proof.
  induction statements as [|st rest IH]; intros i acc1 acc2 σ1 σ2 H; cbn [forRange].
  - exact H.
  - destruct (sqlStatementRound_run up i st acc1 σ1) as (a1 & Hrun1 & _).
    destruct (sqlStatementRound_run up i st acc2 σ2) as (a2 & Hrun2 & _).
    pose proof (sqlStatementRound_flags i st acc1 acc2 σ1 σ2 H) as Hf.
    rewrite Hrun1, Hrun2 in Hf. cbn [fst] in Hf.
    rewrite (bind_run _ _ _ _ Hrun1), (bind_run _ _ _ _ Hrun2).
    apply IH, Hf.
Qed.

Lemma sqlTransactionCheck_flags (scan1 scan2 : ruleScan) (statements : list gostring) :
  scanFlags scan1 = scanFlags scan2 ->
  sqlTransactionCheck scan1 statements = sqlTransactionCheck scan2 statements.
Proof.
  unfold scanFlags, sqlTransactionCheck. intros H. injection H as -> -> ->. reflexivity.
Qed.

(** The MySQL evaluation under two maps raises the enabled issues of one
    and the same run of checks. *)
Lemma sqlEvaluate_two (content : gostring) (statements : list gostring)
    (containsRoutine : bool) (σ1 σ2 : Store) :
  exists checks : list (bool * Issue),
    fst (sqlEvaluate up content statements containsRoutine σ1) = keep σ1 (fired checks)
    /\ fst (sqlEvaluate up content statements containsRoutine σ2) = keep σ2 (fired checks).
Proof.
  unfold sqlEvaluate.
  rewrite !(bind_run _ _ _ _ (addIssuesWhen_run _ _ _)).
  set (init := fun σ : Store =>
         {| scanIssues := [] ++ keep σ (fired (sqlScriptChecks up content statements
                                                 containsRoutine));
            containsRiskWrite := false; hasBegin := false; hasCommit := false |}).
  change (exists checks,
    fst ((let* scan := forRange (sqlStatementRound up) O statements (init σ1) in
          addIssuesWhen (sqlTransactionCheck scan statements) (scanIssues scan)) σ1)
      = keep σ1 (fired checks)
    /\ fst ((let* scan := forRange (sqlStatementRound up) O statements (init σ2) in
             addIssuesWhen (sqlTransactionCheck scan statements) (scanIssues scan)) σ2)
       = keep σ2 (fired checks)).
  pose proof (sqlRange_flags statements O (init σ1) (init σ2) σ1 σ2 eq_refl) as Hflags.
  destruct (sqlRange_run up statements O (init σ1) σ1) as (scan1 & Hscan1 & Hissues1).
  destruct (sqlRange_run up statements O (init σ2) σ2) as (scan2 & Hscan2 & Hissues2).
  rewrite Hscan1, Hscan2 in Hflags. cbn [fst] in Hflags.
  rewrite (bind_run _ _ _ _ Hscan1), (bind_run _ _ _ _ Hscan2), !addIssuesWhen_run.
  rewrite Hissues1, Hissues2. cbn [fst init scanIssues app].
  rewrite (sqlTransactionCheck_flags scan1 scan2 statements Hflags).
  exists (sqlScriptChecks up content statements containsRoutine
          ++ rangeChecks (sqlRoundChecks up) O statements
          ++ sqlTransactionCheck scan2 statements).
  rewrite !fired_app, !keep_app, !app_assoc. split; reflexivity.
Qed.

(** The issues a call evaluates under a map are the enabled ones among
    those it evaluates with no rule disabled. *)
Lemma evaluated_keep (engine : DBEngine) (content : gostring) (σ : Store) :
  keep σ (fst (evaluatedIssues up low engine content σ))
  = keep σ (fst (evaluatedIssues up low engine content None)).
Proof.
  unfold evaluatedIssues.
  destruct (gostring_eqb (NormalizeEngine low engine) EnginePostgreSQL); [reflexivity|].
  destruct (gostring_eqb (NormalizeEngine low engine) EngineMongoDB); [reflexivity|].
  destruct (isBlank content); [reflexivity|].
  destruct (sqlEvaluate_two content (splitSQLStatements content)
              (MatchString reRoutineDefinition content) σ None) as (checks & H1 & H2).
  rewrite H1, H2, keep_None. apply keep_idem.
Qed.

(** X1. Disabling rules only removes issues: for every engine, script and
    map of disabled rules, the issues of the report are the issues of the
    report with no rule disabled, in the same order, less those whose rule
    the map holds. *)
Theorem disabling_only_removes_issues (now : string) (engine : DBEngine)
    (content : gostring) (σ : Store) :
  Issues (fst (AnalyzeByEngine up low now engine content σ))
  = keep σ (Issues (fst (AnalyzeByEngine up low now engine content None))).
Proof.
  destruct (AnalyzeByEngine_run up low now engine content σ) as (r & Hrun & _ & Hissues & _).
  destruct (AnalyzeByEngine_run up low now engine content None)
    as (r0 & Hrun0 & _ & Hissues0 & _).
  rewrite Hrun, Hrun0. cbn [fst]. rewrite Hissues, Hissues0, keep_None.
  rewrite !keep_SliceStable. f_equal. apply evaluated_keep.
Qed.

(* ===================================================================== *)
(** * Summary and advice *)
(* ===================================================================== *)

Lemma fold_countIssue_levels (issues : list Issue) : forall summary : Summary,
  let s' := fold_left countIssue issues summary in
  ErrorCount s' = ErrorCount summary + countLevel LevelError issues
  /\ WarningCount s' = WarningCount summary + countLevel LevelWarning issues
  /\ InfoCount s' = InfoCount summary + countLevel LevelInfo issues.
Proof.
  unfold countLevel.
  induction issues as [|issue rest IH]; intros summary; cbn [fold_left].
  - cbn. lia.
  - destruct (IH (countIssue summary issue)) as (H1 & H2 & H3).
    cbn zeta. rewrite H1, H2, H3. unfold countIssue. cbn [List.filter].
    destruct (Level issue); cbn [IssueLevel_eqb ErrorCount WarningCount InfoCount length];
      lia.
Qed.

Lemma summarizeIssues_levels (n : Z) (issues : list Issue) :
  let s := summarizeIssues n issues in
  ErrorCount s = countLevel LevelError issues
  /\ WarningCount s = countLevel LevelWarning issues
  /\ InfoCount s = countLevel LevelInfo issues.
Proof.
  unfold summarizeIssues.
  destruct (fold_countIssue_levels issues
              {| StatementCount := n; ErrorCount := 0; WarningCount := 0; InfoCount := 0 |})
    as (H1 & H2 & H3).
  cbn zeta. rewrite H1, H2, H3. cbn. lia.
Qed.

(** What a call returns for a script that is not blank: every field of the
    report in terms of the evaluated issues. *)
Lemma report_of_script (now : string) (engine : DBEngine) (content : gostring) (σ : Store) :
  isBlank content = false ->
  exists (r : CheckResponse) (extra : list string),
    AnalyzeByEngine up low now engine content σ = (r, σ)
    /\ RulesVersion r = fst (RulesForEngine low engine)
    /\ Issues r
       = keep σ (SliceStable issueLess (fst (evaluatedIssues up low engine content σ)))
    /\ ResponseSummary r = summarizeIssues (statementsOf low engine content) (Issues r)
    /\ Advice r = buildAdvice (ResponseSummary r) ++ extra
    /\ (extra = [] \/ extra = [adviceRoutine]).
Proof.
  intros Hblank. unfold isBlank in Hblank.
  unfold AnalyzeByEngine, RulesForEngine, evaluatedIssues, statementsOf, isBlank.
  rewrite Hblank.
  destruct (gostring_eqb (NormalizeEngine low engine) EnginePostgreSQL) eqn:Hpg.
  - rewrite (normalized_exclusive low engine Hpg).
    unfold AnalyzePostgresWithOptions. rewrite Hblank.
    rewrite (bind_run _ _ _ _ (filterDisabledRules_run _ _)).
    eexists. exists []. split; [reflexivity|].
    cbn [RulesVersion Issues ResponseSummary Advice fst ret]. rewrite app_nil_r.
    repeat split; try reflexivity. left. reflexivity.
  - destruct (gostring_eqb (NormalizeEngine low engine) EngineMongoDB) eqn:Hmongo.
    + unfold AnalyzeMongoWithOptions. rewrite Hblank.
      rewrite (bind_run _ _ _ _ (filterDisabledRules_run _ _)).
      eexists. exists []. split; [reflexivity|].
      cbn [RulesVersion Issues ResponseSummary Advice fst ret]. rewrite app_nil_r.
      repeat split; try reflexivity. left. reflexivity.
    + unfold AnalyzeSQLWithOptions. rewrite Hblank.
      destruct (sqlEvaluate_kept up content (splitSQLStatements content)
                  (MatchString reRoutineDefinition content) σ) as [Hσ Hkept].
      destruct (sqlEvaluate up content (splitSQLStatements content)
                  (MatchString reRoutineDefinition content) σ) as [issues σ'] eqn:Hrun.
      cbn [fst snd] in Hσ, Hkept. subst σ'.
      rewrite (bind_run _ _ _ _ Hrun).
      eexists. eexists. split; [reflexivity|].
      cbn [RulesVersion Issues ResponseSummary Advice fst ret].
      assert (Hk : keep σ (SliceStable issueLess issues) = SliceStable issueLess issues).
      { rewrite <- Hkept. apply keep_SliceStable_kept. }
      rewrite Hk.
      split; [reflexivity|]. split; [reflexivity|]. split; [reflexivity|].
      split; [reflexivity|].
      destruct (MatchString reRoutineDefinition content); [right|left]; reflexivity.
Qed.

(** X2. For a script that is not blank, each count of the summary is the
    number of reported issues of that severity, and the statement count is
    the number of statements (of operations, for MongoDB) the script was
    split into. *)
Theorem summary_counts_each_level (now : string) (engine : DBEngine)
    (content : gostring) (σ : Store) :
  isBlank content = false ->
  let r := fst (AnalyzeByEngine up low now engine content σ) in
  ErrorCount (ResponseSummary r) = countLevel LevelError (Issues r)
  /\ WarningCount (ResponseSummary r) = countLevel LevelWarning (Issues r)
  /\ InfoCount (ResponseSummary r) = countLevel LevelInfo (Issues r)
  /\ StatementCount (ResponseSummary r)
     = Z.of_nat (length (statementTextsOf low engine content)).
Proof.
  intros Hblank.
  destruct (report_of_script now engine content σ Hblank)
    as (r & extra & Hrun & _ & _ & Hsum & _).
  cbn zeta. rewrite Hrun. cbn [fst]. rewrite Hsum.
  destruct (summarizeIssues_levels (statementsOf low engine content) (Issues r))
    as (H1 & H2 & H3).
  split; [exact H1|]. split; [exact H2|]. split; [exact H3|].
  destruct (summarizeIssues_total (statementsOf low engine content) (Issues r)) as [Hn _].
  rewrite Hn. unfold statementsOf, statementTextsOf. rewrite Hblank.
  destruct (gostring_eqb (NormalizeEngine low engine) EngineMongoDB);
    [rewrite length_map|]; reflexivity.
Qed.

Lemma countLevel_pos (level : IssueLevel) (issues : list Issue) :
  0 < countLevel level issues <-> exists issue, In issue issues /\ Level issue = level.
Proof.
  unfold countLevel. split.
  - intros H.
    destruct (List.filter (fun issue => IssueLevel_eqb (Level issue) level) issues)
      as [|issue rest] eqn:E; [cbn in H; lia|].
    assert (Hin : In issue (List.filter (fun issue => IssueLevel_eqb (Level issue) level)
                              issues)) by (rewrite E; left; reflexivity).
    apply List.filter_In in Hin as [Hin Hl].
    exists issue. split; [exact Hin|].
    destruct (Level issue), level; first [reflexivity | discriminate Hl].
  - intros (issue & Hin & Hl).
    assert (Hf : In issue (List.filter (fun issue => IssueLevel_eqb (Level issue) level)
                             issues)).
    { apply List.filter_In. split; [exact Hin|]. rewrite Hl. destruct level; reflexivity. }
    destruct (List.filter _ issues); [contradiction|]. cbn [length]. lia.
Qed.

Lemma countLevel_nonneg (level : IssueLevel) (issues : list Issue) :
  0 <= countLevel level issues.
Proof. unfold countLevel. lia. Qed.

Lemma buildAdvice_lines (summary : Summary) :
  0 <= ErrorCount summary -> 0 <= WarningCount summary ->
  (In adviceHighRisk (buildAdvice summary) <-> 0 < ErrorCount summary)
  /\ (In adviceMediumRisk (buildAdvice summary) <-> 0 < WarningCount summary)
  /\ (In adviceNoRisk (buildAdvice summary)
      <-> ~ 0 < ErrorCount summary /\ ~ 0 < WarningCount summary)
  /\ ~ In adviceRoutine (buildAdvice summary).
Proof.
  intros He Hw. unfold buildAdvice.
  destruct (0 <? ErrorCount summary) eqn:E1;
    destruct (0 <? WarningCount summary) eqn:E2;
    destruct (ErrorCount summary =? 0) eqn:Z1;
    destruct (WarningCount summary =? 0) eqn:Z2;
    rewrite ?Z.ltb_lt, ?Z.ltb_ge in E1, E2; rewrite ?Z.eqb_eq, ?Z.eqb_neq in Z1, Z2;
    try lia; cbn [andb app In];
    (split; [|split; [|split]]);
    try (split;
         [ intros H; repeat (destruct H as [H|H]; try discriminate H);
           first [contradiction | lia | split; lia]
         | intros H;
           first [ left; reflexivity | right; left; reflexivity | lia ] ]);
    intros H; repeat (destruct H as [H|H]; try discriminate H); contradiction.
Qed.

(** X3. The advice of a report on a script that is not blank follows its
    issues: the high-risk line is given exactly when an issue of severity
    error is reported, the medium-risk line exactly when a warning is
    reported, and the line that no obvious risk was found exactly when
    neither is. *)
Theorem advice_follows_issues (now : string) (engine : DBEngine)
    (content : gostring) (σ : Store) :
  isBlank content = false ->
  let r := fst (AnalyzeByEngine up low now engine content σ) in
  let reported := fun level => exists issue, In issue (Issues r) /\ Level issue = level in
  (In adviceHighRisk (Advice r) <-> reported LevelError)
  /\ (In adviceMediumRisk (Advice r) <-> reported LevelWarning)
  /\ (In adviceNoRisk (Advice r) <-> ~ reported LevelError /\ ~ reported LevelWarning).
Proof.
  intros Hblank.
  destruct (report_of_script now engine content σ Hblank)
    as (r & extra & Hrun & _ & _ & Hsum & Hadvice & Hextra).
  cbn zeta. rewrite Hrun. cbn [fst]. rewrite Hadvice.
  destruct (summarizeIssues_levels (statementsOf low engine content) (Issues r))
    as (H1 & H2 & _).
  cbn zeta in H1, H2. rewrite <- Hsum in H1, H2.
  rewrite <- !countLevel_pos, <- H1, <- H2.
  pose proof (countLevel_nonneg LevelError (Issues r)) as Hpos1.
  pose proof (countLevel_nonneg LevelWarning (Issues r)) as Hpos2.
  rewrite <- H1 in Hpos1. rewrite <- H2 in Hpos2.
  destruct (buildAdvice_lines (ResponseSummary r) Hpos1 Hpos2) as (A1 & A2 & A3 & _).
  assert (Hex : forall line, line <> adviceRoutine ->
            (In line (buildAdvice (ResponseSummary r) ++ extra)
             <-> In line (buildAdvice (ResponseSummary r)))).
  { intros line Hne. rewrite in_app_iff. split; [|auto].
    intros [H|H]; [exact H|].
    destruct Hextra as [->| ->]; [contradiction|].
    destruct H as [<-|[]]. contradiction. }
  rewrite !Hex by discriminate. auto.
Qed.

(** X4. No report comes without advice: for every engine, script and map of
    disabled rules the report carries at least one line of advice. *)
Theorem advice_never_empty (now : string) (engine : DBEngine)
    (content : gostring) (σ : Store) :
  Advice (fst (AnalyzeByEngine up low now engine content σ)) <> [].
Proof.
  destruct (isBlank content) eqn:Hblank.
  - unfold isBlank in Hblank. unfold AnalyzeByEngine.
    destruct (gostring_eqb (NormalizeEngine low engine) EnginePostgreSQL);
      [|destruct (gostring_eqb (NormalizeEngine low engine) EngineMongoDB)].
    + unfold AnalyzePostgresWithOptions. rewrite Hblank, filterDisabledRules_run.
      cbn. discriminate.
    + unfold AnalyzeMongoWithOptions. rewrite Hblank, filterDisabledRules_run.
      cbn. discriminate.
    + unfold AnalyzeSQLWithOptions. rewrite Hblank.
      rewrite (bind_run _ _ _ _ (ruleEnabled_run _ _)). cbn. discriminate.
  - destruct (report_of_script now engine content σ Hblank)
      as (r & extra & Hrun & _ & _ & Hsum & Hadvice & _).
    rewrite Hrun. cbn [fst]. rewrite Hadvice. intros Hnil.
    apply app_eq_nil in Hnil as [Hnil _].
    destruct (summarizeIssues_levels (statementsOf low engine content) (Issues r))
      as (H1 & H2 & _).
    cbn zeta in H1, H2. rewrite <- Hsum in H1, H2.
    pose proof (countLevel_nonneg LevelError (Issues r)) as Hpos1.
    pose proof (countLevel_nonneg LevelWarning (Issues r)) as Hpos2.
    rewrite <- H1 in Hpos1. rewrite <- H2 in Hpos2.
    destruct (buildAdvice_lines (ResponseSummary r) Hpos1 Hpos2) as (A1 & A2 & A3 & _).
    rewrite Hnil in A1, A2, A3. cbn [In] in A1, A2, A3.
    apply A3. split; intros H; [apply A1 in H | apply A2 in H]; exact H.
Qed.

End ReportProperties.

(* ===================================================================== *)
(** * Where the issues of a report come from *)
(* ===================================================================== *)

Section OriginProperties.

Variables up low : rune -> rune.

(** Every evaluated issue is the issue of a check that fired: one of the
    script checks, one of the checks of a statement, or the transaction
    check; for a blank script it is the empty-input issue. *)
Lemma evaluated_from_tables (engine : DBEngine) (content : gostring) (σ : Store)
    (issue : Issue) :
  In issue (fst (evaluatedIssues up low engine content σ)) ->
  let statements := splitSQLStatements content in
  let ops := parseMongoOperations content in
  if isBlank content then
    issue = sqlEmptyInputIssue \/ issue = mongoEmptyInputIssue
  else if gostring_eqb (NormalizeEngine low engine) EnginePostgreSQL then
    In (true, issue) (pgScriptChecks up content statements)
    \/ (exists k st, statements !! k = Some st /\ In (true, issue) (pgRoundChecks up k st))
    \/ (exists scan, In (true, issue) (pgTransactionCheck scan statements))
  else if gostring_eqb (NormalizeEngine low engine) EngineMongoDB then
    In (true, issue) (mongoScriptChecks ops)
    \/ (exists k op, ops !! k = Some op /\ In (true, issue) (mongoRoundChecks low k op))
  else
    In (true, issue)
      (sqlScriptChecks up content statements (MatchString reRoutineDefinition content))
    \/ (exists k st, statements !! k = Some st /\ In (true, issue) (sqlRoundChecks up k st))
    \/ (exists scan, In (true, issue) (sqlTransactionCheck scan statements)).
Proof.
  unfold evaluatedIssues. cbn zeta.
  destruct (isBlank content) eqn:Hblank.
  - destruct (gostring_eqb (NormalizeEngine low engine) EnginePostgreSQL);
      [|destruct (gostring_eqb (NormalizeEngine low engine) EngineMongoDB)];
      cbn [ret fst]; intros [<-|[]]; auto.
  - destruct (gostring_eqb (NormalizeEngine low engine) EnginePostgreSQL) eqn:Hpg.
    + cbn [ret fst]. intros H.
      destruct (pgEvaluate_fired up content (splitSQLStatements content)) as (scan & Heq).
      rewrite Heq in H. apply fired_In in H.
      apply in_app_or in H as [H|H]; [left; exact H|].
      apply in_app_or in H as [H|H].
      * right; left. apply rangeChecks_In in H as (k & st & Hk & Hin).
        exists k, st. split; [exact Hk|exact Hin].
      * right; right. exists scan. exact H.
    + destruct (gostring_eqb (NormalizeEngine low engine) EngineMongoDB) eqn:Hmongo.
      * cbn [ret fst]. intros H.
        rewrite mongoEvaluate_fired in H. apply fired_In in H.
        apply in_app_or in H as [H|H]; [left; exact H|].
        right. apply rangeChecks_In in H as (k & op & Hk & Hin).
        exists k, op. split; [exact Hk|exact Hin].
      * intros H.
        destruct (sqlEvaluate_run up content (splitSQLStatements content)
                    (MatchString reRoutineDefinition content) σ) as (scan & Heq).
        rewrite Heq in H. cbn [fst] in H. apply keep_In in H as [H _].
        apply fired_In in H.
        apply in_app_or in H as [H|H]; [left; exact H|].
        apply in_app_or in H as [H|H].
        -- right; left. apply rangeChecks_In in H as (k & st & Hk & Hin).
           exists k, st. split; [exact Hk|exact Hin].
        -- right; right. exists scan. exact H.
Qed.

Lemma IssueLevel_eqb_eq (a b : IssueLevel) : IssueLevel_eqb a b = true -> a = b.
Proof. destruct a, b; intros H; first [reflexivity | discriminate H]. Qed.

Lemma listedb_listed (rules : list RuleDefinition.t) (issue : Issue) :
  listedb rules issue = true -> listed rules issue.
Proof.
  unfold listedb, listed. intros H.
  apply existsb_exists in H as (def & Hin & Hdef).
  apply andb_true_iff in Hdef as [Hcode Hlevel].
  exists def. split; [exact Hin|].
  split; [apply String.eqb_eq, Hcode | apply IssueLevel_eqb_eq, Hlevel].
Qed.

(** An entry of a table of checks is looked up in a catalogue by the rule
    code and the severity of its issue. *)
Ltac catalogued_entry H :=
  injection H as _ <-; apply listedb_listed; reflexivity.

Lemma sqlChecks_listed (c : bool) (issue : Issue) :
  (forall content statements containsRoutine,
     In (c, issue) (sqlScriptChecks up content statements containsRoutine) ->
     listed BuiltInRules issue)
  /\ (forall k st, In (c, issue) (sqlRoundChecks up k st) -> listed BuiltInRules issue)
  /\ (forall scan statements,
        In (c, issue) (sqlTransactionCheck scan statements) -> listed BuiltInRules issue).
Proof.
  unfold sqlScriptChecks, sqlRoundChecks, sqlStatementChecks, sqlTransactionCheck.
  cbn zeta. split; [|split].
  - intros content statements containsRoutine H. cbn [In] in H.
    repeat (destruct H as [H|H]; [catalogued_entry H|]). contradiction.
  - intros k st H. destruct (isEmpty (TrimSpace st)); [contradiction|]. cbn [In] in H.
    repeat (destruct H as [H|H]; [catalogued_entry H|]). contradiction.
  - intros scan statements H. cbn [In] in H.
    repeat (destruct H as [H|H]; [catalogued_entry H|]). contradiction.
Qed.

Lemma pgChecks_listed (c : bool) (issue : Issue) :
  (forall content statements,
     In (c, issue) (pgScriptChecks up content statements) ->
     listed BuiltInPostgresRules issue)
  /\ (forall k st, In (c, issue) (pgRoundChecks up k st) ->
        listed BuiltInPostgresRules issue)
  /\ (forall scan statements,
        In (c, issue) (pgTransactionCheck scan statements) ->
        listed BuiltInPostgresRules issue).
Proof.
  unfold pgScriptChecks, pgRoundChecks, pgStatementChecks, pgTransactionCheck.
  cbn zeta. split; [|split].
  - intros content statements H. cbn [In] in H.
    repeat (destruct H as [H|H]; [catalogued_entry H|]). contradiction.
  - intros k st H. destruct (isEmpty (TrimSpace st)); [contradiction|]. cbn [In] in H.
    repeat (destruct H as [H|H]; [catalogued_entry H|]). contradiction.
  - intros scan statements H. cbn [In] in H.
    repeat (destruct H as [H|H]; [catalogued_entry H|]). contradiction.
Qed.

Lemma mongoChecks_listed (c : bool) (issue : Issue) :
  (forall ops, In (c, issue) (mongoScriptChecks ops) -> listed BuiltInMongoRules issue)
  /\ (forall k op, In (c, issue) (mongoRoundChecks low k op) ->
        listed BuiltInMongoRules issue).
Proof.
  unfold mongoScriptChecks, mongoRoundChecks, mongoOperationChecks.
  cbn zeta. split.
  - intros ops H. cbn [In] in H.
    repeat (destruct H as [H|H]; [catalogued_entry H|]). contradiction.
  - intros k op H. destruct (isEmpty (compactScriptText _)); [contradiction|].
    cbn [In] in H.
    repeat (destruct H as [H|H]; [catalogued_entry H|]). contradiction.
Qed.

Lemma report_version (now : string) (engine : DBEngine) (content : gostring) (σ : Store) :
  RulesVersion (fst (AnalyzeByEngine up low now engine content σ))
  = fst (RulesForEngine low engine).
Proof.
  unfold AnalyzeByEngine, RulesForEngine.
  destruct (gostring_eqb (NormalizeEngine low engine) EnginePostgreSQL);
    [|destruct (gostring_eqb (NormalizeEngine low engine) EngineMongoDB)].
  - unfold AnalyzePostgresWithOptions.
    destruct (isEmpty (TrimSpace content)).
    + rewrite filterDisabledRules_run. reflexivity.
    + rewrite (bind_run _ _ _ _ (filterDisabledRules_run _ _)). reflexivity.
  - unfold AnalyzeMongoWithOptions.
    destruct (isEmpty (TrimSpace content)).
    + rewrite filterDisabledRules_run. reflexivity.
    + rewrite (bind_run _ _ _ _ (filterDisabledRules_run _ _)). reflexivity.
  - unfold AnalyzeSQLWithOptions.
    destruct (isEmpty (TrimSpace content)).
    + rewrite (bind_run _ _ _ _ (ruleEnabled_run _ _)). reflexivity.
    + destruct (sqlEvaluate up content (splitSQLStatements content)
                  (MatchString reRoutineDefinition content) σ) as [issues σ'] eqn:Hrun.
      unfold bind. rewrite Hrun. reflexivity.
Qed.

(** X5. A report agrees with the catalogue that [RulesForEngine] publishes
    for its engine: it carries the catalogue's version, and every issue in
    it has a rule code that the catalogue defines, with the severity the
    catalogue gives that code. *)
Theorem report_agrees_with_catalogue (now : string) (engine : DBEngine)
    (content : gostring) (σ : Store) (issue : Issue) :
  let r := fst (AnalyzeByEngine up low now engine content σ) in
  RulesVersion r = fst (RulesForEngine low engine)
  /\ (In issue (Issues r) -> listed (snd (RulesForEngine low engine)) issue).
Proof.
  cbn zeta. split; [apply report_version|].
  destruct (AnalyzeByEngine_run up low now engine content σ) as (r & Hrun & Hreport).
  rewrite Hrun. cbn [fst]. intros Hin.
  apply (report_In up low now engine content σ r issue Hreport) in Hin as [Hin _].
  apply evaluated_from_tables in Hin. cbn zeta in Hin.
  unfold RulesForEngine.
  destruct (isBlank content).
  - assert (Hl : forall rules, listedb rules sqlEmptyInputIssue = true ->
                   listedb rules mongoEmptyInputIssue = true -> listed rules issue).
    { intros rules H1 H2. apply listedb_listed. destruct Hin as [-> | ->]; assumption. }
    destruct (gostring_eqb (NormalizeEngine low engine) EnginePostgreSQL);
      [|destruct (gostring_eqb (NormalizeEngine low engine) EngineMongoDB)];
      cbn [snd]; apply Hl; reflexivity.
  - destruct (gostring_eqb (NormalizeEngine low engine) EnginePostgreSQL);
      [|destruct (gostring_eqb (NormalizeEngine low engine) EngineMongoDB)]; cbn [snd].
    + destruct (pgChecks_listed true issue) as (L1 & L2 & L3).
      destruct Hin as [H|[(k & st & _ & H)|(scan & H)]]; eauto.
    + destruct (mongoChecks_listed true issue) as (L1 & L2).
      destruct Hin as [H|(k & op & _ & H)]; eauto.
    + destruct (sqlChecks_listed true issue) as (L1 & L2 & L3).
      destruct Hin as [H|[(k & st & _ & H)|(scan & H)]]; eauto.
Qed.

(** X6. The issue [empty_input] is raised for blank scripts only: no report
    on a script that is not blank holds it. *)
Theorem script_never_reports_empty_input (now : string) (engine : DBEngine)
    (content : gostring) (σ : Store) (issue : Issue) :
  isBlank content = false ->
  In issue (Issues (fst (AnalyzeByEngine up low now engine content σ))) ->
  Rule issue <> "empty_input".
Proof.
  intros Hblank.
  destruct (AnalyzeByEngine_run up low now engine content σ) as (r & Hrun & Hreport).
  rewrite Hrun. cbn [fst]. intros Hin.
  apply (report_In up low now engine content σ r issue Hreport) in Hin as [Hin _].
  apply evaluated_from_tables in Hin. cbn zeta in Hin. rewrite Hblank in Hin.
  assert (Hne : forall (checks : list (bool * Issue)),
            forallb (fun entry => negb (String.eqb (Rule (snd entry)) "empty_input")) checks
            = true ->
            In (true, issue) checks -> Rule issue <> "empty_input").
  { intros checks Hall H. rewrite forallb_forall in Hall.
    apply Hall in H. cbn [snd] in H. intros E. rewrite E in H. discriminate H. }
  destruct (gostring_eqb (NormalizeEngine low engine) EnginePostgreSQL);
    [|destruct (gostring_eqb (NormalizeEngine low engine) EngineMongoDB)].
  - destruct Hin as [H|[(k & st & _ & H)|(scan & H)]]; revert H; apply Hne.
    + reflexivity.
    + unfold pgRoundChecks. destruct (isEmpty _); reflexivity.
    + reflexivity.
  - destruct Hin as [H|(k & op & _ & H)]; revert H; apply Hne.
    + reflexivity.
    + unfold mongoRoundChecks. destruct (isEmpty _); reflexivity.
  - destruct Hin as [H|[(k & st & _ & H)|(scan & H)]]; revert H; apply Hne.
    + reflexivity.
    + unfold sqlRoundChecks. destruct (isEmpty _); reflexivity.
    + reflexivity.
Qed.

(** An entry of a statement's checks quotes the statement. *)
Ltac quoting_entry H := injection H as _ <-; split; reflexivity.

Lemma sqlRoundChecks_quote (k : nat) (st : gostring) (c : bool) (issue : Issue) :
  In (c, issue) (sqlRoundChecks up k st) ->
  StatementIndex issue = Z.of_nat k + 1 /\ Statement issue = TrimSpace st.
Proof.
  unfold sqlRoundChecks, sqlStatementChecks.
  destruct (isEmpty (TrimSpace st)); [contradiction|]. cbn zeta. cbn [In]. intros H.
  repeat (destruct H as [H|H]; [quoting_entry H|]). contradiction.
Qed.

Lemma pgRoundChecks_quote (k : nat) (st : gostring) (c : bool) (issue : Issue) :
  In (c, issue) (pgRoundChecks up k st) ->
  StatementIndex issue = Z.of_nat k + 1 /\ Statement issue = TrimSpace st.
Proof.
  unfold pgRoundChecks, pgStatementChecks.
  destruct (isEmpty (TrimSpace st)); [contradiction|]. cbn zeta. cbn [In]. intros H.
  repeat (destruct H as [H|H]; [quoting_entry H|]). contradiction.
Qed.

Lemma mongoRoundChecks_quote (k : nat) (op : mongoOperation) (c : bool) (issue : Issue) :
  In (c, issue) (mongoRoundChecks low k op) ->
  StatementIndex issue = Z.of_nat k + 1 /\ Statement issue = TrimSpace (OpText op).
Proof.
  unfold mongoRoundChecks, mongoOperationChecks.
  destruct (isEmpty (compactScriptText _)); [contradiction|]. cbn zeta. cbn [In]. intros H.
  repeat (destruct H as [H|H]; [quoting_entry H|]). contradiction.
Qed.

(** A script check other than the two terminator checks quotes nothing. *)
Ltac unquoting_entry H Hfw Hms :=
  injection H as _ <-;
  first [ left; split; reflexivity
        | exfalso; apply Hfw; reflexivity
        | exfalso; apply Hms; left; reflexivity
        | exfalso; apply Hms; right; reflexivity ].

(** What an issue other than the two terminator issues quotes: nothing
    when it is about the whole script, and else the statement in the place
    its index names, trimmed. *)
Lemma ordinary_issue_quote (now : string) (engine : DBEngine) (content : gostring)
    (σ : Store) (issue : Issue) :
  In issue (Issues (fst (AnalyzeByEngine up low now engine content σ))) ->
  ~ fullwidthRule (Rule issue) -> ~ missingRule (Rule issue) ->
  (StatementIndex issue = 0 /\ Statement issue = [])
  \/ exists (k : nat) (text : gostring),
       statementTextsOf low engine content !! k = Some text
       /\ StatementIndex issue = Z.of_nat k + 1
       /\ Statement issue = TrimSpace text.
Proof.
  destruct (AnalyzeByEngine_run up low now engine content σ) as (r & Hrun & Hreport).
  rewrite Hrun. cbn [fst]. intros Hin Hfw Hms.
  apply (report_In up low now engine content σ r issue Hreport) in Hin as [Hin _].
  apply evaluated_from_tables in Hin. cbn zeta in Hin.
  unfold statementTextsOf, fullwidthRule, missingRule in *.
  destruct (isBlank content).
  { left. destruct Hin as [-> | ->]; split; reflexivity. }
  destruct (gostring_eqb (NormalizeEngine low engine) EnginePostgreSQL) eqn:Hpg.
  - rewrite (normalized_exclusive low engine Hpg).
    destruct Hin as [H|[(k & st & Hk & H)|(scan & H)]].
    + unfold pgScriptChecks in H. cbn zeta in H. cbn [In] in H.
      repeat (destruct H as [H|H]; [unquoting_entry H Hfw Hms|]). contradiction.
    + right. exists k, st. split; [exact Hk|]. eapply pgRoundChecks_quote, H.
    + unfold pgTransactionCheck in H. cbn [In] in H.
      repeat (destruct H as [H|H]; [unquoting_entry H Hfw Hms|]). contradiction.
  - destruct (gostring_eqb (NormalizeEngine low engine) EngineMongoDB).
    + destruct Hin as [H|(k & op & Hk & H)].
      * unfold mongoScriptChecks in H. cbn zeta in H. cbn [In] in H.
        repeat (destruct H as [H|H]; [unquoting_entry H Hfw Hms|]). contradiction.
      * right. exists k, (OpText op). split.
        -- rewrite list_lookup_fmap, Hk. reflexivity.
        -- eapply mongoRoundChecks_quote, H.
    + destruct Hin as [H|[(k & st & Hk & H)|(scan & H)]].
      * unfold sqlScriptChecks in H. cbn zeta in H. cbn [In] in H.
        repeat (destruct H as [H|H]; [unquoting_entry H Hfw Hms|]). contradiction.
      * right. exists k, st. split; [exact Hk|]. eapply sqlRoundChecks_quote, H.
      * unfold sqlTransactionCheck in H. cbn [In] in H.
        repeat (destruct H as [H|H]; [unquoting_entry H Hfw Hms|]). contradiction.
Qed.

(** X7. What [handleCheck] answers is consistent: no issue of the response
    has a rule that the response lists as disabled. *)
Theorem response_reports_no_disabled_rule (order : list string) (now : string)
    (engine : DBEngine) (content : gostring) (σ : Store) (issue : Issue) :
  let out := fst (handleCheck up low order now engine content σ) in
  In issue (Issues (Response out)) -> ~ In (Rule issue) (DisabledRules out).
Proof.
  destruct (handleCheck_run up low order now engine content σ)
    as (forced & slice & σ' & r & out & _ & Hrun & Hslice & Hout & _ & Hd & Hr).
  cbn zeta. rewrite Hout. cbn [fst]. rewrite Hd, Hr. intros Hin Hdis.
  destruct (AnalyzeByEngine_run up low now engine content σ') as (r' & Hrun' & Hreport).
  rewrite Hrun in Hrun'. injection Hrun' as <-.
  apply (report_In up low now engine content σ' r issue Hreport) in Hin as [_ Hon].
  destruct (disabledRulesToSlice_run σ') as (slice' & Hslice' & Hmem).
  rewrite Hslice in Hslice'. injection Hslice' as <-.
  apply Hmem in Hdis.
  destruct σ' as [s|]; cbn in Hon, Hdis.
  - rewrite bool_decide_eq_true_2 in Hon by exact Hdis. discriminate Hon.
  - set_solver.
Qed.

End OriginProperties.

(* ===================================================================== *)
(** * What the segmenters hand out *)
(* ===================================================================== *)

Lemma isEmpty_false {A : Type} (s : list A) :
  match s with [] => true | _ => false end = false <-> s <> [].
Proof. destruct s; split; intros H; first [discriminate | congruence | reflexivity]. Qed.

Lemma TrimLeftSpace_spec (s : gostring) :
  exists pre : gostring,
    s = pre ++ TrimLeftSpace s
    /\ Forall (fun r => unicode_IsSpace r = true) pre
    /\ match TrimLeftSpace s with
       | [] => True
       | a :: _ => unicode_IsSpace a = false
       end.
Proof.
  induction s as [|r t IH]; cbn [TrimLeftSpace].
  - exists []. repeat split. constructor.
  - destruct (unicode_IsSpace r) eqn:E.
    + destruct IH as (pre & Heq & Hpre & Hhead).
      exists (r :: pre). split; [cbn; f_equal; exact Heq|].
      split; [constructor; assumption|exact Hhead].
    + exists []. split; [reflexivity|]. split; [constructor|exact E].
Qed.

Lemma TrimLeftSpace_fixed (s : gostring) :
  match s with [] => True | a :: _ => unicode_IsSpace a = false end ->
  TrimLeftSpace s = s.
Proof. destruct s as [|a t]; cbn; [reflexivity|]. intros ->. reflexivity. Qed.

(** What [strings.TrimSpace] returns is empty or trimmed. *)
Lemma TrimSpace_trimmed (s : gostring) : TrimSpace s <> [] -> trimmedText (TrimSpace s).
Proof.
  unfold TrimSpace.
  destruct (TrimLeftSpace_spec s) as (_ & _ & _ & Hu).
  destruct (TrimLeftSpace_spec (rev (TrimLeftSpace s))) as (pre & Heq & _ & Hv).
  set (u := TrimLeftSpace s) in *.
  set (v := TrimLeftSpace (rev u)) in *.
  intros Hne.
  destruct v as [|b v']; [cbn in Hne; congruence|].
  assert (Hu' : u = (rev v' ++ [b]) ++ rev pre).
  { rewrite <- (rev_involutive u), Heq. apply (List.rev_app_distr pre (b :: v')). }
  cbn [rev]. unfold trimmedText.
  destruct (rev v' ++ [b]) as [|a w] eqn:Ew; [destruct (rev v'); discriminate Ew|].
  rewrite <- Ew, last_last. split; [|exact Hv].
  rewrite Hu' in Hu. exact Hu.
Qed.

Lemma trimmedText_last (s : gostring) :
  trimmedText s -> exists body b, s = body ++ [b] /\ unicode_IsSpace b = false.
Proof.
  unfold trimmedText. destruct s as [|a t]; [contradiction|]. intros [_ Hlast].
  destruct (exists_last (l := a :: t)) as (body & b & Heq); [discriminate|].
  exists body, b. split; [exact Heq|]. rewrite Heq, last_last in Hlast. exact Hlast.
Qed.

(** Trimming leaves a trimmed text as it is. *)
Lemma TrimSpace_fixed (s : gostring) : trimmedText s -> TrimSpace s = s.
Proof.
  intros H. destruct (trimmedText_last s H) as (body & b & Heq & Hb).
  unfold TrimSpace. rewrite (TrimLeftSpace_fixed s).
  - rewrite Heq, (List.rev_app_distr body [b]). cbn [rev app]. cbn [TrimLeftSpace].
    rewrite Hb.
    cbn [rev]. rewrite rev_involutive. reflexivity.
  - unfold trimmedText in H. destruct s; [exact I|apply H].
Qed.

Lemma trimmedText_nonempty (s : gostring) : trimmedText s -> s <> [].
Proof. destruct s; [contradiction|discriminate]. Qed.

Lemma TrimSpace_piece (b : gostring) :
  isEmpty (TrimSpace b) = false -> trimmedText (TrimSpace b).
Proof. intros H. apply TrimSpace_trimmed. apply isEmpty_false, H. Qed.

(** ** [splitSQLStatements] *)

Lemma emitPiece_trimmed (st : sqlSplit) :
  Forall trimmedText (items st) -> Forall trimmedText (items (emitPiece st)).
Proof.
  intros H. unfold emitPiece. cbn [items setItemsBuilder].
  destruct (isEmpty (TrimSpace (builder st))) eqn:E; [exact H|].
  apply Forall_app. split; [exact H|].
  constructor; [apply TrimSpace_piece, E|constructor].
Qed.

Lemma splitStep_trimmed (rs : gostring) (i : nat) (st : sqlSplit) :
  Forall trimmedText (items st) -> Forall trimmedText (items (snd (splitStep rs i st))).
Proof.
  intros H. unfold splitStep.
  repeat match goal with
         | |- context [if ?c then _ else _] => destruct c
         end; cbn [snd]; try exact H; try (apply emitPiece_trimmed; exact H).
Qed.

Lemma splitLine_trimmed (st : sqlSplit) (line : gostring) :
  Forall trimmedText (items st) -> Forall trimmedText (items (splitLine st line)).
Proof.
  intros H.
  assert (Hscan : Forall trimmedText (items (scanLine line st))).
  { unfold scanLine.
    apply (forIndex_invariant (fun st => Forall trimmedText (items st))).
    - intros i s. apply splitStep_trimmed.
    - exact H. }
  unfold splitLine.
  destruct (outsideQuotes st && negb (inBlockComment st)); [|exact Hscan].
  destruct (parseDelimiterDirective line) as [delim [|]]; [exact H|exact Hscan].
Qed.

Lemma splitLines_trimmed (lines : list gostring) : forall st : sqlSplit,
  Forall trimmedText (items st) ->
  Forall trimmedText (items (fold_left splitLine lines st)).
Proof.
  induction lines as [|line rest IH]; intros st H; cbn [fold_left]; [exact H|].
  apply IH, splitLine_trimmed, H.
Qed.

Lemma splitSQLStatements_items (content : gostring) :
  Forall trimmedText (splitSQLStatements content).
Proof.
  unfold splitSQLStatements. cbn zeta.
  set (lines := match SplitAfter content newline with [] => [content] | ls => ls end).
  pose proof (splitLines_trimmed lines splitInit (List.Forall_nil _)) as Hitems.
  destruct (isEmpty (TrimSpace (builder (fold_left splitLine lines splitInit)))) eqn:E;
    [exact Hitems|].
  apply Forall_app. split; [exact Hitems|].
  constructor; [apply TrimSpace_piece, E|constructor].
Qed.

(** X8. Every statement that [splitSQLStatements] returns is a text that is
    not empty and has no white space at either end, so that trimming it
    again changes nothing. *)
Theorem splitSQLStatements_trimmed (content : gostring) :
  Forall (fun statement => trimmedText statement /\ TrimSpace statement = statement)
    (splitSQLStatements content).
Proof.
  eapply List.Forall_impl; [|apply splitSQLStatements_items].
  intros statement Ht. split; [exact Ht|apply TrimSpace_fixed, Ht].
Qed.

(** ** [parseMongoOperations] *)

Lemma mongoFlush_wellFormed (terminated fullwidth : bool) (st : mongoScan) :
  (fullwidth = true -> terminated = true) ->
  Forall wellFormedOperation (mItems st) ->
  Forall wellFormedOperation (mItems (mongoFlush terminated fullwidth st)).
Proof.
  intros Hflags Hst. unfold mongoFlush.
  destruct (isEmpty (TrimSpace (mBuilder st))) eqn:E; cbn [mItems mongoSetOutput];
    [exact Hst|].
  apply Forall_app. split; [exact Hst|]. constructor; [|constructor].
  split; [apply TrimSpace_piece, E|exact Hflags].
Qed.

Lemma mongoStep_wellFormed (rs : gostring) (i : nat) (st : mongoScan) :
  Forall wellFormedOperation (mItems st) ->
  Forall wellFormedOperation (mItems (snd (mongoStep rs i st))).
Proof.
  intros H. unfold mongoStep.
  repeat match goal with
         | |- context [if ?c then _ else _] => destruct c
         end; cbn [snd mItems mongoSetOutput mongoSetComments mongoSetQuotes];
    rewrite ?trackDepth_items; cbn [mItems mongoSetQuotes mongoSetComments];
    try exact H;
    try (apply mongoFlush_wellFormed; [auto|];
         rewrite ?trackDepth_items; cbn [mItems mongoSetQuotes mongoSetComments]; exact H).
Qed.

Lemma parseMongoOperations_items (content : gostring) :
  Forall wellFormedOperation (parseMongoOperations content).
Proof.
  unfold parseMongoOperations. cbn zeta.
  apply (mongoFlush_wellFormed false false); [discriminate|].
  apply (forIndex_invariant (fun st => Forall wellFormedOperation (mItems st))).
  - intros i s. apply mongoStep_wellFormed.
  - constructor.
Qed.

(** X9. Every operation that [parseMongoOperations] returns has a text that
    is not empty and has no white space at either end, so that trimming it
    again changes nothing, and an operation marked as closed by a full-width
    semicolon is marked as terminated. *)
Theorem parseMongoOperations_wellFormed (content : gostring) :
  Forall (fun op => trimmedText (OpText op)
                    /\ TrimSpace (OpText op) = OpText op
                    /\ (OpFullwidthTerminator op = true -> OpTerminated op = true))
    (parseMongoOperations content).
Proof.
  eapply List.Forall_impl; [|apply parseMongoOperations_items].
  intros op [Htext Hclosed].
  split; [exact Htext|]. split; [apply TrimSpace_fixed, Htext|exact Hclosed].
Qed.

(** ** [splitSQLByLineStartHeuristicDetailed] *)

Lemma HasSuffix_last (body : gostring) (b c : rune) :
  HasSuffix (body ++ [b]) [c] = (b =? c).
Proof.
  unfold HasSuffix. rewrite (List.rev_app_distr body [b]). cbn.
  unfold rune_eqb. destruct (rev body); cbn; apply andb_true_r.
Qed.

Lemma detectLineTerminator_last (s : gostring) :
  trimmedText s -> detectLineTerminator s = terminatorOf s.
Proof.
  intros H. unfold detectLineTerminator, terminatorOf. rewrite (TrimSpace_fixed s H).
  destruct (trimmedText_last s H) as (body & b & -> & _).
  rewrite !HasSuffix_last, last_last. reflexivity.
Qed.

Lemma terminatorOf_app (b line : gostring) :
  line <> [] -> terminatorOf (b ++ line) = terminatorOf line.
Proof.
  intros H. unfold terminatorOf.
  destruct (exists_last H) as (body & c & ->).
  rewrite app_assoc, !last_last. reflexivity.
Qed.

Lemma terminatorOf_open (s : gostring) (fw : bool) :
  terminatorOf s = (false, fw) -> fw = false.
Proof.
  unfold terminatorOf.
  destruct (_ =? semicolon); [discriminate|].
  destruct (_ =? fullwidthSemicolon); [discriminate|]. congruence.
Qed.

Lemma trimmedText_app (b mid line : gostring) :
  trimmedText b -> trimmedText line -> trimmedText (b ++ mid ++ line).
Proof.
  intros Hb Hl.
  destruct (trimmedText_last line Hl) as (body & c & -> & Hc).
  destruct b as [|a t]; [contradiction|]. destruct Hb as [Ha _].
  unfold trimmedText. cbn [app]. split; [exact Ha|].
  replace (a :: t ++ mid ++ body ++ [c]) with ((a :: t ++ mid ++ body) ++ [c]).
  - rewrite last_last. exact Hc.
  - cbn [app]. rewrite <- !app_assoc. reflexivity.
Qed.

Lemma flushHeuristic_open (st : list sqlHeuristicStatement * gostring) :
  heuristicInvariant st -> heuristicInvariant (flushHeuristic false false st).
Proof.
  intros [Hs Hb]. unfold flushHeuristic.
  destruct (isEmpty (TrimSpace (snd st))) eqn:E.
  - split; [exact Hs|left; reflexivity].
  - split; [|left; reflexivity]. cbn [fst].
    apply Forall_app. split; [exact Hs|]. constructor; [|constructor].
    destruct Hb as [Hb|[Hb Ht]]; [rewrite Hb in E; discriminate E|].
    unfold flagsFollowText. cbn [Text Terminated FullwidthTerminator].
    rewrite (TrimSpace_fixed _ Hb). split; [exact Hb|].
    rewrite (detectLineTerminator_last _ Hb). symmetry. exact Ht.
Qed.

Lemma heuristicLine_invariant (st : list sqlHeuristicStatement * gostring)
    (rawLine : gostring) :
  heuristicInvariant st -> heuristicInvariant (heuristicLine st rawLine).
Proof.
  intros Hst. unfold heuristicLine. cbn zeta.
  destruct (isEmpty (TrimSpace rawLine)) eqn:Eline; [exact Hst|].
  destruct (HasPrefix _ _ || HasPrefix _ _); [exact Hst|].
  pose proof (TrimSpace_piece rawLine Eline) as Hline.
  set (line := TrimSpace rawLine) in *.
  set (st1 := if negb (isEmpty (snd st)) && MatchString reStatementStart line
              then flushHeuristic false false st else st).
  assert (H1 : heuristicInvariant st1).
  { unfold st1. destruct (_ && _); [apply flushHeuristic_open, Hst|exact Hst]. }
  clearbody st1. destruct st1 as [stmts1 b1]. destruct H1 as [Hs1 Hb1].
  cbn [fst snd] in Hs1, Hb1. cbn [fst snd].
  set (b3 := snd (if negb (isEmpty b1) then (stmts1, b1 ++ [newline]) else (stmts1, b1))
             ++ line).
  assert (Hb3 : trimmedText b3 /\ terminatorOf b3 = terminatorOf line).
  { unfold b3. destruct Hb1 as [->|[Hb _]].
    - cbn. auto.
    - destruct b1 as [|a t] eqn:Eb; [contradiction|]. cbn [isEmpty negb snd].
      rewrite <- app_assoc. split; [apply (trimmedText_app _ _ _ Hb Hline)|].
      rewrite app_assoc. apply terminatorOf_app, trimmedText_nonempty, Hline. }
  destruct Hb3 as [Hb3 Ht3].
  assert (Hfst : fst (if negb (isEmpty b1) then (stmts1, b1 ++ [newline])
                      else (stmts1, b1)) = stmts1) by (destruct (negb _); reflexivity).
  rewrite Hfst. fold b3.
  pose proof (detectLineTerminator_last line Hline) as Hd.
  destruct (detectLineTerminator line) as [terminated fw].
  destruct terminated.
  - unfold flushHeuristic. cbn [fst snd]. rewrite (TrimSpace_fixed _ Hb3).
    destruct (isEmpty b3) eqn:E3.
    + split; [exact Hs1|left; reflexivity].
    + split; [|left; reflexivity]. cbn [fst].
      apply Forall_app. split; [exact Hs1|]. constructor; [|constructor].
      unfold flagsFollowText. cbn [Text Terminated FullwidthTerminator].
      split; [exact Hb3|]. rewrite (detectLineTerminator_last _ Hb3), Ht3. exact Hd.
  - split; [exact Hs1|]. right. cbn [snd]. split; [exact Hb3|].
    rewrite Ht3, <- Hd. f_equal. symmetry in Hd. apply terminatorOf_open in Hd. exact Hd.
Qed.

Lemma heuristicLines_invariant (lines : list gostring) :
  forall st, heuristicInvariant st -> heuristicInvariant (fold_left heuristicLine lines st).
Proof.
  induction lines as [|line rest IH]; intros st H; cbn [fold_left]; [exact H|].
  apply IH, heuristicLine_invariant, H.
Qed.

Lemma heuristic_flagsFollowText (content : gostring) :
  Forall flagsFollowText (splitSQLByLineStartHeuristicDetailed content).
Proof.
  unfold splitSQLByLineStartHeuristicDetailed. cbn zeta.
  apply flushHeuristic_open, heuristicLines_invariant.
  split; [constructor|left; reflexivity].
Qed.

(** X10. The flags of every statement that the line-start heuristic cuts
    are those of its text: the text is not empty and has no white space at
    either end, and the statement is marked as terminated, and as closed by a
    full-width semicolon, exactly as [detectLineTerminator] reads it off the
    end of the text. The plain variant of the heuristic returns those texts
    unchanged, one for each statement. *)
Theorem heuristic_flags_follow_text (content : gostring) :
  Forall (fun st => trimmedText (Text st)
                    /\ (Terminated st, FullwidthTerminator st)
                       = detectLineTerminator (Text st))
    (splitSQLByLineStartHeuristicDetailed content)
  /\ splitSQLByLineStartHeuristic content
     = map Text (splitSQLByLineStartHeuristicDetailed content).
Proof.
  pose proof (heuristic_flagsFollowText content) as H.
  split; [exact H|].
  unfold splitSQLByLineStartHeuristic.
  induction H as [|st rest [Ht _] _ IH]; [reflexivity|].
  cbn [map List.filter]. rewrite (TrimSpace_fixed _ Ht).
  destruct (Text st) eqn:E; [contradiction|]. cbn [isEmpty negb]. rewrite <- E.
  f_equal. exact IH.
Qed.

(* ===================================================================== *)
(** * What the issues quote and when the terminator issues are raised *)
(* ===================================================================== *)

Section TerminatorProperties.

Variables up low : rune -> rune.

(** X11. An issue other than the two terminator issues quotes the statement
    it is about: either it is about the whole script, with index 0 and an
    empty quotation, or its index names a statement of the script (an
    operation, for MongoDB) and it quotes the text of that statement as the
    segmentation returned it. *)
Theorem issue_quotes_its_statement (now : string) (engine : DBEngine) (content : gostring)
    (σ : Store) (issue : Issue) :
  In issue (Issues (fst (AnalyzeByEngine up low now engine content σ))) ->
  ~ fullwidthRule (Rule issue) -> ~ missingRule (Rule issue) ->
  (StatementIndex issue = 0 /\ Statement issue = [])
  \/ exists (k : nat) (text : gostring),
       statementTextsOf low engine content !! k = Some text
       /\ StatementIndex issue = Z.of_nat k + 1
       /\ Statement issue = text.
Proof.
  intros Hin Hfw Hms.
  destruct (ordinary_issue_quote up low now engine content σ issue Hin Hfw Hms)
    as [H|(k & text & Hk & Hi & Hs)]; [left; exact H|].
  right. exists k, text. split; [exact Hk|]. split; [exact Hi|].
  rewrite Hs. apply TrimSpace_fixed.
  unfold statementTextsOf in Hk.
  destruct (gostring_eqb (NormalizeEngine low engine) EngineMongoDB).
  - rewrite list_lookup_fmap in Hk.
    destruct (parseMongoOperations content !! k) as [op|] eqn:Hop; [|discriminate Hk].
    injection Hk as <-.
    pose proof (parseMongoOperations_items content) as Hall.
    rewrite List.Forall_forall in Hall.
    apply Hall. apply list_elem_of_In. eapply list_elem_of_lookup_2, Hop.
  - pose proof (splitSQLStatements_items content) as Hall.
    rewrite List.Forall_forall in Hall.
    apply Hall. apply list_elem_of_In. eapply list_elem_of_lookup_2, Hk.
Qed.

Lemma normalize_trimmed (s : gostring) :
  trimmedText s -> normalizeStatementWithTerminator s = s.
Proof.
  intros H. unfold normalizeStatementWithTerminator. rewrite (TrimSpace_fixed s H).
  destruct s; [contradiction|reflexivity].
Qed.

(** The operations [collectOperations] picks, all of them, each under its
    position and with its text. *)
Lemma collectOperations_exact (pick : mongoOperation -> bool) (ops : list mongoOperation) :
  Forall wellFormedOperation ops ->
  forall (i : nat) (item : missingTerminatorStatement),
    In item (collectOperations pick i ops) <->
    exists (k : nat) (op : mongoOperation),
      ops !! k = Some op /\ pick op = true
      /\ item = {| Index := Z.of_nat (i + k) + 1; ItemStatement := OpText op |}.
Proof.
  induction 1 as [|op rest [Hop _] _ IH]; intros i item; cbn [collectOperations].
  - split; [contradiction|]. intros (k & op & Hk & _). discriminate Hk.
  - rewrite (normalize_trimmed _ Hop).
    assert (Hne : isEmpty (OpText op) = false)
      by (destruct (OpText op); [contradiction|reflexivity]).
    rewrite Hne.
    assert (Hrest : In item (collectOperations pick (S i) rest) <->
                    exists k op0, rest !! k = Some op0 /\ pick op0 = true
                      /\ item = {| Index := Z.of_nat (i + S k) + 1;
                                   ItemStatement := OpText op0 |}).
    { rewrite IH. split; intros (k & op0 & Hk & Hp & ->); exists k, op0;
        (split; [exact Hk|]); (split; [exact Hp|]); do 2 f_equal; lia. }
    destruct (pick op) eqn:Hpick; cbn [negb In].
    + rewrite Hrest. split.
      * intros [<-|(k & op0 & Hk & Hp & ->)].
        -- exists O, op. rewrite Nat.add_0_r. auto.
        -- exists (S k), op0. auto.
      * intros ([|k] & op0 & Hk & Hp & ->).
        -- injection Hk as <-. left. rewrite Nat.add_0_r. reflexivity.
        -- right. exists k, op0. auto.
    + rewrite Hrest. split.
      * intros (k & op0 & Hk & Hp & ->). exists (S k), op0. auto.
      * intros ([|k] & op0 & Hk & Hp & ->).
        -- injection Hk as <-. congruence.
        -- exists k, op0. auto.
Qed.

(** The same for the statements of the line-start heuristic. *)
Lemma collectStatements_exact (pick : sqlHeuristicStatement -> bool)
    (detailed : list sqlHeuristicStatement) :
  Forall flagsFollowText detailed ->
  forall (i : nat) (item : missingTerminatorStatement),
    In item (collectStatements pick i detailed) <->
    exists (k : nat) (st : sqlHeuristicStatement),
      detailed !! k = Some st /\ pick st = true
      /\ item = {| Index := Z.of_nat (i + k) + 1; ItemStatement := Text st |}.
Proof.
  induction 1 as [|st rest [Hst _] _ IH]; intros i item; cbn [collectStatements].
  - split; [contradiction|]. intros (k & st & Hk & _). discriminate Hk.
  - rewrite (normalize_trimmed _ Hst).
    assert (Hne : isEmpty (Text st) = false)
      by (destruct (Text st); [contradiction|reflexivity]).
    rewrite Hne.
    assert (Hrest : In item (collectStatements pick (S i) rest) <->
                    exists k st0, rest !! k = Some st0 /\ pick st0 = true
                      /\ item = {| Index := Z.of_nat (i + S k) + 1;
                                   ItemStatement := Text st0 |}).
    { rewrite IH. split; intros (k & st0 & Hk & Hp & ->); exists k, st0;
        (split; [exact Hk|]); (split; [exact Hp|]); do 2 f_equal; lia. }
    destruct (pick st) eqn:Hpick; cbn [negb In].
    + rewrite Hrest. split.
      * intros [<-|(k & st0 & Hk & Hp & ->)].
        -- exists O, st. rewrite Nat.add_0_r. auto.
        -- exists (S k), st0. auto.
      * intros ([|k] & st0 & Hk & Hp & ->).
        -- injection Hk as <-. left. rewrite Nat.add_0_r. reflexivity.
        -- right. exists k, st0. auto.
    + rewrite Hrest. split.
      * intros (k & st0 & Hk & Hp & ->). exists (S k), st0. auto.
      * intros ([|k] & st0 & Hk & Hp & ->).
        -- injection Hk as <-. congruence.
        -- exists k, st0. auto.
Qed.

Lemma length_pos_In {A : Type} (l : list A) :
  Nat.ltb 0 (length l) = true <-> exists x, In x l.
Proof.
  destruct l as [|x t]; cbn.
  - split; [discriminate|intros (x & [])].
  - split; [intros _; exists x; left; reflexivity|reflexivity].
Qed.

(** An issue of a report on a script that is not blank is an enabled issue
    of the evaluation, and the other way round. *)
Lemma reported_iff_evaluated (now : string) (engine : DBEngine) (content : gostring)
    (σ : Store) (issue : Issue) :
  In issue (Issues (fst (AnalyzeByEngine up low now engine content σ)))
  <-> In issue (fst (evaluatedIssues up low engine content σ))
      /\ enabledIn σ (Rule issue) = true.
Proof.
  destruct (AnalyzeByEngine_run up low now engine content σ) as (r & Hrun & _ & Hissues & _).
  rewrite Hrun. cbn [fst]. rewrite Hissues, keep_In, SliceStable_In. reflexivity.
Qed.

(** X12. When the MongoDB analyzer raises the missing-terminator issue: for
    a script that is not blank, and with the rule enabled, the report holds
    the issue exactly when the script has more than one operation and one of
    them is not closed by a semicolon; the operations the issue is built
    from are then all those that are not closed, each under its position in
    the script and with its text. *)
Theorem mongo_missing_terminator_raised (now : string) (engine : DBEngine)
    (content : gostring) (σ : Store) :
  isBlank content = false ->
  gostring_eqb (NormalizeEngine low engine) EngineMongoDB = true ->
  enabledIn σ "mongo_missing_statement_terminator" = true ->
  let r := fst (AnalyzeByEngine up low now engine content σ) in
  let ops := parseMongoOperations content in
  let unclosed := fun k op => ops !! k = Some op /\ OpTerminated op = false in
  ((exists issue, In issue (Issues r) /\ Rule issue = "mongo_missing_statement_terminator")
   <-> (1 < length ops)%nat /\ exists k op, unclosed k op)
  /\ forall item,
       In item (missingItemsOf up low engine content)
       <-> (1 < length ops)%nat
           /\ exists k op, unclosed k op
                /\ item = {| Index := Z.of_nat k + 1; ItemStatement := OpText op |}.
Proof.
  intros Hblank Hmongo Hon. cbn zeta.
  assert (Hpg : gostring_eqb (NormalizeEngine low engine) EnginePostgreSQL = false).
  { destruct (gostring_eqb (NormalizeEngine low engine) EnginePostgreSQL) eqn:E;
      [|reflexivity].
    rewrite (normalized_exclusive low engine E) in Hmongo. discriminate Hmongo. }
  assert (Hitems : forall item,
             In item (mongoMissingItems (parseMongoOperations content))
             <-> (1 < length (parseMongoOperations content))%nat
                 /\ exists k op,
                      (parseMongoOperations content !! k = Some op
                       /\ OpTerminated op = false)
                      /\ item = {| Index := Z.of_nat k + 1; ItemStatement := OpText op |}).
  { intros item. unfold mongoMissingItems.
    destruct (Nat.ltb 1 (length (parseMongoOperations content))) eqn:Hlen.
    - apply Nat.ltb_lt in Hlen.
      rewrite (collectOperations_exact _ _ (parseMongoOperations_items content)).
      split.
      + intros (k & op & Hk & Hp & ->). split; [exact Hlen|].
        exists k, op. apply negb_true_iff in Hp. auto.
      + intros (_ & k & op & (Hk & Hp) & ->). exists k, op.
        rewrite Hp. auto.
    - apply Nat.ltb_ge in Hlen. split; [contradiction|]. intros [H _]. lia. }
  split.
  - setoid_rewrite reported_iff_evaluated.
    unfold evaluatedIssues. rewrite Hpg, Hmongo, Hblank. cbn [ret fst].
    rewrite mongoEvaluate_fired.
    split.
    + intros (issue & [Hin _] & Hrule).
      apply fired_In, in_app_or in Hin as [Hin|Hin].
      * unfold mongoScriptChecks in Hin. cbn zeta in Hin. cbn [In] in Hin.
        destruct Hin as [Hin|[Hin|[]]].
        -- injection Hin as _ <-. discriminate Hrule.
        -- injection Hin as Hc _. apply andb_true_iff in Hc as [Hlen Hc].
           apply length_pos_In in Hc as (item & Hitem).
           apply Hitems in Hitem as (Hl & k & op & Hu & _).
           split; [exact Hl|]. exists k, op. exact Hu.
      * apply rangeChecks_In in Hin as (k & op & _ & Hin).
        unfold mongoRoundChecks, mongoOperationChecks in Hin.
        destruct (isEmpty (compactScriptText _)); [contradiction|].
        cbn zeta in Hin. cbn [In] in Hin.
        repeat (destruct Hin as [Hin|Hin];
                [injection Hin as _ <-; discriminate Hrule|]).
        contradiction.
    + intros (Hlen & k & op & Hu).
      assert (Hc : Nat.ltb 1 (length (parseMongoOperations content))
                   && Nat.ltb 0 (length (mongoMissingItems (parseMongoOperations content)))
                   = true).
      { apply andb_true_iff. split; [apply Nat.ltb_lt, Hlen|].
        apply length_pos_In. eexists. apply Hitems. split; [exact Hlen|].
        exists k, op. split; [exact Hu|reflexivity]. }
      eexists. split; [split|].
      * apply fired_In, in_or_app. left.
        unfold mongoScriptChecks. cbn zeta. right. left. rewrite Hc. reflexivity.
      * exact Hon.
      * reflexivity.
  - intros item. unfold missingItemsOf. rewrite Hblank, Hpg, Hmongo. apply Hitems.
Qed.

Lemma fullwidth_flag (st : sqlHeuristicStatement) :
  flagsFollowText st ->
  FullwidthTerminator st = HasSuffix (Text st) [fullwidthSemicolon].
Proof.
  intros [Ht Hf]. unfold detectLineTerminator in Hf. rewrite (TrimSpace_fixed _ Ht) in Hf.
  destruct (trimmedText_last _ Ht) as (body & b & Heq & _).
  rewrite Heq in Hf |- *. rewrite !HasSuffix_last in Hf. rewrite HasSuffix_last.
  destruct (b =? semicolon) eqn:E1.
  - apply Z.eqb_eq in E1. subst b. injection Hf as _ ->. reflexivity.
  - destruct (b =? fullwidthSemicolon); injection Hf as _ ->; reflexivity.
Qed.

(** X13. When the MySQL and the PostgreSQL analyzer raise the full-width
    terminator issue: for a script that is not blank, and with the rule
    enabled, the report holds the issue exactly when a statement of the
    line-start segmentation ends with a full-width semicolon, unless the
    MySQL analyzer finds a routine definition in the script; the statements
    the issue is built from are then all those that end so, each under its
    position in that segmentation and with its text. *)
Theorem fullwidth_terminator_raised (now : string) (engine : DBEngine)
    (content : gostring) (σ : Store) :
  isBlank content = false ->
  gostring_eqb (NormalizeEngine low engine) EngineMongoDB = false ->
  enabledIn σ "fullwidth_statement_terminator" = true ->
  let r := fst (AnalyzeByEngine up low now engine content σ) in
  let detailed := splitSQLByLineStartHeuristicDetailed content in
  let closedFullwidth := fun k st =>
    detailed !! k = Some st /\ HasSuffix (Text st) [fullwidthSemicolon] = true in
  ((exists issue, In issue (Issues r) /\ Rule issue = "fullwidth_statement_terminator")
   <-> routineExempt low engine content = false /\ exists k st, closedFullwidth k st)
  /\ forall item,
       In item (fullwidthItemsOf up low engine content)
       <-> routineExempt low engine content = false
           /\ exists k st, closedFullwidth k st
                /\ item = {| Index := Z.of_nat k + 1; ItemStatement := Text st |}.
Proof.
  intros Hblank Hmongo Hon. cbn zeta.
  set (detailed := splitSQLByLineStartHeuristicDetailed content).
  assert (Hitems : forall (containsRoutine : bool) item,
             In item (detectFullwidthTerminatorStatements content containsRoutine)
             <-> containsRoutine = false
                 /\ exists k st,
                      (detailed !! k = Some st
                       /\ HasSuffix (Text st) [fullwidthSemicolon] = true)
                      /\ item = {| Index := Z.of_nat k + 1; ItemStatement := Text st |}).
  { intros containsRoutine item. unfold detectFullwidthTerminatorStatements.
    destruct containsRoutine; [split; [contradiction|intros [H _]; discriminate H]|].
    fold detailed.
    pose proof (heuristic_flagsFollowText content) as Hall. fold detailed in Hall.
    assert (Hflag : forall k st, detailed !! k = Some st ->
              FullwidthTerminator st = HasSuffix (Text st) [fullwidthSemicolon]).
    { intros k st Hk. apply fullwidth_flag.
      rewrite List.Forall_forall in Hall. apply Hall, list_elem_of_In.
      eapply list_elem_of_lookup_2, Hk. }
    destruct (Nat.eqb (length detailed) 0) eqn:Hlen.
    - apply Nat.eqb_eq in Hlen. destruct detailed; [|discriminate Hlen].
      split; [contradiction|]. intros (_ & k & st & (Hk & _) & _). discriminate Hk.
    - rewrite (collectStatements_exact _ _ Hall). split.
      + intros (k & st & Hk & Hp & ->). split; [reflexivity|].
        exists k, st. rewrite <- (Hflag k st Hk). auto.
      + intros (_ & k & st & (Hk & Hp) & ->). exists k, st.
        rewrite (Hflag k st Hk). auto. }
  assert (Hexempt : forall item,
             In item (fullwidthItemsOf up low engine content)
             <-> routineExempt low engine content = false
                 /\ exists k st,
                      (detailed !! k = Some st
                       /\ HasSuffix (Text st) [fullwidthSemicolon] = true)
                      /\ item = {| Index := Z.of_nat k + 1; ItemStatement := Text st |}).
  { intros item. unfold fullwidthItemsOf, routineExempt. rewrite Hblank, Hmongo.
    destruct (gostring_eqb (NormalizeEngine low engine) EnginePostgreSQL);
      cbn [negb andb]; rewrite Hitems; reflexivity. }
  split; [|exact Hexempt].
  assert (Hany : (exists item, In item (fullwidthItemsOf up low engine content))
                 <-> routineExempt low engine content = false
                     /\ exists k st, detailed !! k = Some st
                          /\ HasSuffix (Text st) [fullwidthSemicolon] = true).
  { split.
    - intros (item & Hin). apply Hexempt in Hin as (He & k & st & Hc & _).
      split; [exact He|]. exists k, st. exact Hc.
    - intros (He & k & st & Hc). eexists. apply Hexempt. split; [exact He|].
      exists k, st. split; [exact Hc|reflexivity]. }
  rewrite <- Hany. clear Hany Hexempt Hitems.
  setoid_rewrite reported_iff_evaluated.
  split.
  - intros (issue & [Hin _] & Hrule).
    apply evaluated_from_tables in Hin. cbn zeta in Hin. rewrite Hblank, Hmongo in Hin.
    unfold fullwidthItemsOf. rewrite Hblank, Hmongo.
    destruct (gostring_eqb (NormalizeEngine low engine) EnginePostgreSQL).
    + destruct Hin as [Hin|[(k & st & _ & Hin)|(scan & Hin)]].
      * unfold pgScriptChecks in Hin. cbn zeta in Hin. cbn [In] in Hin.
        destruct Hin as [Hin|Hin].
        -- injection Hin as Hc _. apply length_pos_In in Hc. exact Hc.
        -- repeat (destruct Hin as [Hin|Hin];
                   [injection Hin as _ <-; discriminate Hrule|]).
           contradiction.
      * unfold pgRoundChecks, pgStatementChecks in Hin.
        destruct (isEmpty (TrimSpace st)); [contradiction|].
        cbn zeta in Hin. cbn [In] in Hin.
        repeat (destruct Hin as [Hin|Hin];
                [injection Hin as _ <-; discriminate Hrule|]).
        contradiction.
      * unfold pgTransactionCheck in Hin. cbn [In] in Hin.
        repeat (destruct Hin as [Hin|Hin];
                [injection Hin as _ <-; discriminate Hrule|]).
        contradiction.
    + destruct Hin as [Hin|[(k & st & _ & Hin)|(scan & Hin)]].
      * unfold sqlScriptChecks in Hin. cbn zeta in Hin. cbn [In] in Hin.
        destruct Hin as [Hin|[Hin|Hin]].
        -- injection Hin as _ <-. discriminate Hrule.
        -- injection Hin as Hc _. apply length_pos_In in Hc. exact Hc.
        -- repeat (destruct Hin as [Hin|Hin];
                   [injection Hin as _ <-; discriminate Hrule|]).
           contradiction.
      * unfold sqlRoundChecks, sqlStatementChecks in Hin.
        destruct (isEmpty (TrimSpace st)); [contradiction|].
        cbn zeta in Hin. cbn [In] in Hin.
        repeat (destruct Hin as [Hin|Hin];
                [injection Hin as _ <-; discriminate Hrule|]).
        contradiction.
      * unfold sqlTransactionCheck in Hin. cbn [In] in Hin.
        repeat (destruct Hin as [Hin|Hin];
                [injection Hin as _ <-; discriminate Hrule|]).
        contradiction.
  - intros Hex. apply length_pos_In in Hex.
    unfold fullwidthItemsOf in Hex. rewrite Hblank, Hmongo in Hex.
    unfold evaluatedIssues. rewrite Hmongo.
    assert (Hb : isBlank content = false) by exact Hblank.
    destruct (gostring_eqb (NormalizeEngine low engine) EnginePostgreSQL).
    + rewrite Hb. cbn [ret fst].
      destruct (pgEvaluate_fired up content (splitSQLStatements content)) as (scan & ->).
      eexists. split; [split|].
      * apply fired_In, in_or_app. left.
        unfold pgScriptChecks. cbn zeta. left. rewrite Hex. reflexivity.
      * exact Hon.
      * reflexivity.
    + rewrite Hb.
      destruct (sqlEvaluate_run up content (splitSQLStatements content)
                  (MatchString reRoutineDefinition content) σ) as (scan & ->).
      cbn [fst]. eexists. split; [split|].
      * apply keep_In. split.
        -- apply fired_In, in_or_app. left.
           unfold sqlScriptChecks. cbn zeta. right. left. rewrite Hex. reflexivity.
        -- exact Hon.
      * exact Hon.
      * reflexivity.
Qed.

End TerminatorProperties.

(* ===================================================================== *)
(** * [stripCommentsAndStrings] *)
(* ===================================================================== *)

Section ForIndexPosition.

Context {S : Type} (n : nat) (body : nat -> S -> nat * S).
Hypothesis body_advances : forall i s, (i <= fst (body i s))%nat.

(** An invariant of a scan that speaks of the position the scan has
    reached holds, when the scan ends, at a position past the end. *)
Lemma forIndex_position (P : nat -> S -> Prop) :
  (forall i s, (i < n)%nat -> P i s -> P (Datatypes.S (fst (body i s))) (snd (body i s))) ->
  forall (fuel i : nat) (s : S),
    (n - i <= fuel)%nat -> P i s ->
    exists j : nat, (n <= j)%nat /\ P j (forIndex fuel n body i s).
Proof.
  intros Hbody. induction fuel as [|fuel IH]; intros i s Hfuel Hs; cbn [forIndex].
  - exists i. split; [lia|exact Hs].
  - destruct (Nat.ltb i n) eqn:Hlt.
    + apply Nat.ltb_lt in Hlt. specialize (Hbody i s Hlt Hs).
      pose proof (body_advances i s) as Hadv.
      destruct (body i s) as [i' s'] eqn:Hb. cbn [fst snd] in Hbody, Hadv.
      apply IH; [lia|exact Hbody].
    + apply Nat.ltb_ge in Hlt. exists i. split; [lia|exact Hs].
Qed.

End ForIndexPosition.

Lemma lineBreaks_app (a b : gostring) :
  lineBreaks (a ++ b) = (lineBreaks a + lineBreaks b)%nat.
Proof. unfold lineBreaks. rewrite List.filter_app, length_app. reflexivity. Qed.

Lemma lineBreaks_one (r : rune) : lineBreaks [r] = if r =? newline then 1%nat else O.
Proof. unfold lineBreaks. cbn. destruct (r =? newline); reflexivity. Qed.

Lemma lineBreaks_take_S (rs : gostring) (i : nat) :
  lineBreaks (take (Datatypes.S i) rs)
  = (lineBreaks (take i rs) + lineBreaks [runeAt rs i])%nat.
Proof.
  unfold runeAt. destruct (rs !! i) as [ch|] eqn:E.
  - rewrite (take_S_r rs i ch E), lineBreaks_app. reflexivity.
  - apply lookup_ge_None in E. unfold gostring, rune in *.
    rewrite (take_ge rs i), (take_ge rs (Datatypes.S i)) by lia. cbn. lia.
Qed.

Ltac boolean_facts :=
  repeat match goal with
         | H : _ && _ = true |- _ => apply andb_true_iff in H as [? ?]
         | H : (_ =? _) = true |- _ => apply Z.eqb_eq in H
         | H : (_ =? _) = false |- _ => apply Z.eqb_neq in H
         end.

Lemma stripStep_lineBreaks (rs : gostring) (i : nat) (st : stripState) :
  lineBreaks (sOut st) = lineBreaks (take i rs) ->
  lineBreaks (sOut (snd (stripStep rs i st)))
  = lineBreaks (take (Datatypes.S (fst (stripStep rs i st))) rs).
Proof.
  intros H.
  pose proof (lineBreaks_take_S rs i) as H1.
  pose proof (lineBreaks_take_S rs (Datatypes.S i)) as H2.
  unfold stripStep. replace (i + 1)%nat with (Datatypes.S i) by lia.
  rewrite !lineBreaks_one in *.
  remember (runeAt rs i) as ch eqn:Hch.
  remember (runeAt rs (Datatypes.S i)) as next eqn:Hnext.
  unfold blank.
  destruct (ch =? newline) eqn:Ech; destruct (next =? newline) eqn:Enext;
    repeat match goal with
           | |- context [if ?c then _ else _] => destruct c eqn:?
           end;
    cbn [fst snd sOut stripSet]; rewrite ?lineBreaks_app, ?lineBreaks_one;
    rewrite ?Z.eqb_refl; try lia;
    boolean_facts; unfold newline in *; try lia;
    repeat match goal with
           | |- context [if ?c then _ else _] => destruct c eqn:?
           end; boolean_facts; lia.
Qed.

Lemma plainRune_blank (ch : rune) : plainRune (blank ch).
Proof.
  unfold blank, plainRune, newline.
  destruct (ch =? 10); repeat split; discriminate.
Qed.

Lemma stripStep_plain (rs : gostring) (i : nat) (st : stripState) :
  Forall plainRune (sOut st) -> Forall plainRune (sOut (snd (stripStep rs i st))).
Proof.
  intros H. unfold stripStep.
  assert (Hadd : forall r, plainRune r -> Forall plainRune (sOut st ++ [r])).
  { intros r Hr. apply Forall_app. split; [exact H|]. constructor; [exact Hr|constructor]. }
  remember (runeAt rs i) as ch eqn:Hch.
  repeat match goal with
         | |- context [if ?c then _ else _] => destruct c eqn:?
         end;
    cbn [fst snd sOut stripSet]; try exact H;
    try (apply Hadd; first [apply plainRune_blank
                           | unfold plainRune, newline; repeat split; discriminate]).
  apply Hadd.
  repeat match goal with
         | H : negb ?b = false |- _ => apply negb_false_iff in H
         | H : ?b = true |- _ => is_var b; subst b
         | H : ?b = false |- _ => is_var b; subst b
         end.
  destruct st as [out sq dq bt ln bl]. cbn [sSingle sDouble sBacktick] in *.
  subst. cbn [negb andb] in *. boolean_facts.
  unfold plainRune. repeat split; assumption.
Qed.

(** X14. [stripCommentsAndStrings] keeps the lines of a script apart: the
    result has as many line breaks as the script. It holds none of the three
    quote characters and no [#]: every quoted string is blanked together with
    its quotes, and every comment is dropped together with its marker. *)
Theorem stripCommentsAndStrings_keeps_lines (content : gostring) :
  lineBreaks (stripCommentsAndStrings content) = lineBreaks content
  /\ Forall plainRune (stripCommentsAndStrings content).
Proof.
  unfold stripCommentsAndStrings. split.
  - destruct (forIndex_position (length content) (stripStep content)
                (stripStep_advances content)
                (fun i st => lineBreaks (sOut st) = lineBreaks (take i content))
                (fun i s _ => stripStep_lineBreaks content i s)
                (length content) O (stripSet [] false false false false false))
      as (j & Hj & Hout); [lia|reflexivity|].
    rewrite Hout, take_ge by lia. reflexivity.
  - apply (forIndex_invariant (fun st => Forall plainRune (sOut st))).
    + intros i s. apply stripStep_plain.
    + constructor.
Qed.

(* ===================================================================== *)
(** * The [DELIMITER] directive and the engine names *)
(* ===================================================================== *)

Lemma fieldsFrom_fields (s : gostring) : forall cur : gostring,
  Forall unspaced cur ->
  Forall (fun field => field <> [] /\ Forall unspaced field) (fieldsFrom cur s).
Proof.
  induction s as [|r t IH]; intros cur Hcur; cbn [fieldsFrom].
  - destruct cur as [|c cur']; cbn [isEmpty]; [constructor|].
    constructor; [|constructor]. split.
    + cbn. destruct (rev cur'); discriminate.
    + apply Forall_rev, Hcur.
  - destruct (unicode_IsSpace r) eqn:E.
    + destruct cur as [|c cur']; cbn [isEmpty]; [apply IH; constructor|].
      constructor; [|apply IH; constructor]. split.
      * cbn. destruct (rev cur'); discriminate.
      * apply Forall_rev, Hcur.
    + apply IH. constructor; [exact E|exact Hcur].
Qed.

Lemma fieldsFrom_trailing (post : gostring) :
  Forall (fun r => unicode_IsSpace r = true) post ->
  forall (s cur : gostring), fieldsFrom cur (s ++ post) = fieldsFrom cur s.
Proof.
  intros Hpost.
  assert (Hbase : forall cur, fieldsFrom cur post = fieldsFrom cur []).
  { induction Hpost as [|r post' Hr _ IH]; intros cur; [reflexivity|].
    cbn [fieldsFrom]. rewrite Hr, IH. cbn [fieldsFrom isEmpty].
    destruct cur; reflexivity. }
  induction s as [|r t IH]; intros cur; cbn [app].
  - apply Hbase.
  - cbn [fieldsFrom]. rewrite !IH. reflexivity.
Qed.

Lemma fieldsFrom_leading (pre : gostring) :
  Forall (fun r => unicode_IsSpace r = true) pre ->
  forall s : gostring, fieldsFrom [] (pre ++ s) = fieldsFrom [] s.
Proof.
  induction 1 as [|r pre' Hr _ IH]; intros s; [reflexivity|].
  cbn [app fieldsFrom]. rewrite Hr. cbn [isEmpty]. apply IH.
Qed.

(** The fields of a line are those of the trimmed line. *)
Lemma Fields_TrimSpace (s : gostring) : Fields (TrimSpace s) = Fields s.
Proof.
  unfold Fields, TrimSpace.
  destruct (TrimLeftSpace_spec s) as (pre & Hs & Hpre & _).
  destruct (TrimLeftSpace_spec (rev (TrimLeftSpace s))) as (post & Hu & Hpost & _).
  set (u := TrimLeftSpace s) in *.
  set (v := TrimLeftSpace (rev u)) in *.
  assert (Hu' : u = rev v ++ rev post).
  { rewrite <- (rev_involutive u), Hu. apply (List.rev_app_distr post v). }
  replace (fieldsFrom [] s) with (fieldsFrom [] (pre ++ u)) by (rewrite <- Hs; reflexivity).
  rewrite (fieldsFrom_leading pre Hpre), Hu'.
  symmetry. apply fieldsFrom_trailing. apply Forall_rev, Hpost.
Qed.

Lemma unspaced_trimmed (s : gostring) : s <> [] -> Forall unspaced s -> trimmedText s.
Proof.
  intros Hne Hall.
  destruct (exists_last Hne) as (body & b & Heq).
  assert (Hb : unspaced b).
  { rewrite Heq in Hall. apply Forall_app in Hall as [_ Hb].
    inversion Hb; assumption. }
  destruct s as [|a t]; [congruence|].
  unfold trimmedText. split; [inversion Hall; assumption|].
  rewrite Heq, last_last. exact Hb.
Qed.

(** X15. A line is a [DELIMITER] directive exactly when its first field is
    the word DELIMITER, in any letter case, and a second field follows; the
    delimiter it sets is that second field, which is not empty and holds no
    white space. *)
Theorem delimiter_directive_sets_second_field (line delimiter : gostring) :
  parseDelimiterDirective line = (delimiter, true)
  <-> (exists (keyword : gostring) (rest : list gostring),
         Fields line = keyword :: delimiter :: rest
         /\ EqualFold keyword (runes "DELIMITER") = true)
      /\ delimiter <> [] /\ Forall unspaced delimiter.
Proof.
  unfold parseDelimiterDirective. cbn zeta.
  pose proof (fieldsFrom_fields line [] (List.Forall_nil _)) as Hfields.
  fold (Fields line) in Hfields. rewrite Fields_TrimSpace.
  assert (Hblank : isEmpty (TrimSpace line) = true -> Fields line = []).
  { intros H. rewrite <- Fields_TrimSpace. destruct (TrimSpace line); [reflexivity|].
    discriminate H. }
  destruct (isEmpty (TrimSpace line)) eqn:Eblank.
  { rewrite (Hblank eq_refl). split; [discriminate|].
    intros ((keyword & rest & H & _) & _). discriminate H. }
  destruct (Fields line) as [|part0 [|part1 rest]] eqn:Ef.
  - split; [discriminate|]. intros ((keyword & rest & H & _) & _). discriminate H.
  - split; [discriminate|]. intros ((keyword & rest & H & _) & _). discriminate H.
  - assert (Hpart : part1 <> [] /\ Forall unspaced part1).
    { inversion Hfields as [|? ? _ Htail]; subst.
      inversion Htail as [|? ? Hp _]; subst. exact Hp. }
    destruct Hpart as [Hne Hun].
    rewrite (TrimSpace_fixed part1 (unspaced_trimmed part1 Hne Hun)).
    assert (Hnonempty : isEmpty part1 = false) by (destruct part1; [congruence|reflexivity]).
    rewrite Hnonempty.
    destruct (EqualFold part0 (runes "DELIMITER")) eqn:Efold; cbn [negb].
    + split.
      * intros H. injection H as <-. split; [|split; assumption].
        exists part0, rest. split; [reflexivity|exact Efold].
      * intros ((keyword & rest' & H & _) & _). injection H as _ <- _. reflexivity.
    + split; [discriminate|].
      intros ((keyword & rest' & H & Hk) & _). injection H as <- _ _.
      rewrite Efold in Hk. discriminate Hk.
Qed.

Section EngineNames.

Variables up low : rune -> rune.

Lemma NormalizeEngine_cases (raw : gostring) :
  NormalizeEngine low raw = EngineMySQL
  \/ NormalizeEngine low raw = EnginePostgreSQL
  \/ NormalizeEngine low raw = EngineMongoDB.
Proof.
  unfold NormalizeEngine.
  repeat match goal with
         | |- context [if ?c then _ else _] => destruct c
         end; auto.
Qed.

Lemma ToLower_fixed (s : gostring) :
  (forall r : rune, 97 <= r <= 122 -> low r = r) ->
  Forall (fun r => 97 <= r <= 122) s -> ToLower low s = s.
Proof.
  intros Hlow. unfold ToLower. induction 1 as [|r t Hr _ IH]; [reflexivity|].
  cbn [map]. rewrite (Hlow r Hr), IH. reflexivity.
Qed.

Lemma NormalizeEngine_fixed (engine : DBEngine) :
  (forall r : rune, 97 <= r <= 122 -> low r = r) ->
  In engine SupportedEngines -> NormalizeEngine low engine = engine.
Proof.
  intros Hlow Hin.
  assert (Hname : forall name : gostring,
            TrimSpace name = name -> forallb (fun r => (97 <=? r) && (r <=? 122)) name = true ->
            ToLower low (TrimSpace name) = name).
  { intros name Ht Hletters. rewrite Ht. apply ToLower_fixed; [exact Hlow|].
    apply List.Forall_forall. intros r Hr.
    rewrite forallb_forall in Hletters. specialize (Hletters r Hr).
    apply andb_true_iff in Hletters as [H1 H2].
    apply Z.leb_le in H1, H2. lia. }
  unfold NormalizeEngine.
  destruct Hin as [<-|[<-|[<-|[]]]]; rewrite Hname by reflexivity; reflexivity.
Qed.

(** X16. [NormalizeEngine] maps every name to one of the three supported
    engines, and a name it has returned is left as it is when normalised
    again; so a request whose engine name [handleCheck] has normalised is
    analysed, and looked up in the catalogue, as the raw name would be. The
    letter-case mapping is taken to leave the lowercase letters a to z
    alone, as [unicode.ToLower] does. *)
Theorem NormalizeEngine_is_canonical (now : string) (raw content : gostring) (σ : Store) :
  (forall r : rune, 97 <= r <= 122 -> low r = r) ->
  let engine := NormalizeEngine low raw in
  In engine SupportedEngines
  /\ NormalizeEngine low engine = engine
  /\ AnalyzeByEngine up low now engine content σ = AnalyzeByEngine up low now raw content σ
  /\ RulesForEngine low engine = RulesForEngine low raw.
Proof.
  intros Hlow. cbn zeta.
  assert (Hin : In (NormalizeEngine low raw) SupportedEngines).
  { unfold SupportedEngines. cbn [In].
    destruct (NormalizeEngine_cases raw) as [->|[->| ->]]; auto. }
  pose proof (NormalizeEngine_fixed _ Hlow Hin) as Hfix.
  split; [exact Hin|]. split; [exact Hfix|].
  unfold AnalyzeByEngine, RulesForEngine. rewrite Hfix. split; reflexivity.
Qed.

End EngineNames.

(* ===================================================================== *)
(** * History requests and the enforcement of the always-enabled rules *)
(* ===================================================================== *)

Lemma insertInt64_In (x : Z) (l : list Z) (y : Z) :
  In y (insertInt64 x l) <-> y = x \/ In y l.
Proof.
  assert (Hsym : x = y <-> y = x) by (split; congruence).
  induction l as [|z t IH]; cbn [insertInt64 In]; [tauto|].
  destruct (x <? z); cbn [In]; [tauto|]. rewrite IH. tauto.
Qed.

Lemma sortInt64_In (l : list Z) (y : Z) : In y (sortInt64 l) <-> In y l.
Proof.
  induction l as [|x t IH]; cbn [sortInt64 fold_right In]; [tauto|].
  fold (sortInt64 t). rewrite insertInt64_In, IH. split; intros [H|H]; auto.
Qed.

Lemma insertInt64_sorted (x : Z) (l : list Z) :
  ~ In x l -> StronglySorted Z.lt l -> StronglySorted Z.lt (insertInt64 x l).
Proof.
  induction l as [|y t IH]; intros Hnin Hs; cbn [insertInt64].
  - repeat constructor.
  - inversion Hs as [|? ? Ht Hy]; subst.
    destruct (x <? y) eqn:E.
    + apply Z.ltb_lt in E. constructor; [exact Hs|].
      constructor; [exact E|].
      rewrite List.Forall_forall in Hy |- *. intros z Hz. specialize (Hy z Hz). lia.
    + apply Z.ltb_ge in E.
      assert (Hne : x <> y) by (intros ->; apply Hnin; left; reflexivity).
      constructor.
      * apply IH; [intros H; apply Hnin; right; exact H|exact Ht].
      * rewrite List.Forall_forall in Hy |- *. intros z Hz.
        apply insertInt64_In in Hz as [->|Hz]; [lia|apply Hy, Hz].
Qed.

Lemma sortInt64_sorted (l : list Z) : NoDup l -> StronglySorted Z.lt (sortInt64 l).
Proof.
  induction l as [|x t IH]; intros Hnd; cbn [sortInt64 fold_right]; [constructor|].
  fold (sortInt64 t). apply NoDup_cons in Hnd as [Hx Hnd].
  apply insertInt64_sorted; [|apply IH, Hnd].
  rewrite sortInt64_In, <- list_elem_of_In. exact Hx.
Qed.

Lemma normalizeLoop_spec (ids : list Z) : forall (seen : gset Z) (normalized : list Z),
  NoDup normalized -> (forall id, id ∈ seen <-> In id normalized) ->
  NoDup (normalizeLoop ids seen normalized)
  /\ forall id, In id (normalizeLoop ids seen normalized)
                <-> In id normalized \/ (In id ids /\ 0 < id).
Proof.
  induction ids as [|x rest IH]; intros seen normalized Hnd Hseen; cbn [normalizeLoop].
  - split; [exact Hnd|]. intros id. cbn. tauto.
  - destruct (x <=? 0) eqn:Epos.
    + apply Z.leb_le in Epos.
      destruct (IH seen normalized Hnd Hseen) as [H1 H2]. split; [exact H1|].
      intros id. rewrite H2. cbn [In]. split; [tauto|].
      intros [H|[[H|H] Hp]]; [tauto|subst; lia|tauto].
    + apply Z.leb_gt in Epos.
      destruct (bool_decide (x ∈ seen)) eqn:Eseen.
      * apply bool_decide_eq_true in Eseen. apply Hseen in Eseen.
        destruct (IH seen normalized Hnd Hseen) as [H1 H2]. split; [exact H1|].
        intros id. rewrite H2. cbn [In]. split; [tauto|].
        intros [H|[[H|H] Hp]]; [tauto|subst; tauto|tauto].
      * apply bool_decide_eq_false in Eseen.
        assert (Hx : ~ In x normalized) by (intros H; apply Eseen, Hseen, H).
        destruct (IH ({[ x ]} ∪ seen) (normalized ++ [x])) as [H1 H2].
        -- apply NoDup_app. split; [exact Hnd|]. split; [|apply NoDup_singleton].
           intros y Hy Hy'. apply list_elem_of_In in Hy.
           apply list_elem_of_singleton in Hy'. subst y. contradiction.
        -- intros id. rewrite in_app_iff, elem_of_union, elem_of_singleton, Hseen.
           cbn [In]. split.
           ++ intros [H|H]; [right; left; congruence|left; exact H].
           ++ intros [H|[H|[]]]; [right; exact H|left; congruence].
        -- split; [exact H1|]. intros id. rewrite H2, in_app_iff. cbn [In]. split.
           ++ intros [[H|[H|[]]]|H]; [tauto| |tauto].
              right. split; [left; exact H|subst; lia].
           ++ intros [H|[[H|H] Hp]]; tauto.
Qed.

(** X17. [normalizeHistoryIDs] returns the positive identifiers of the
    request, each once, in strictly ascending order: an identifier is in the
    result exactly when it is positive and in the request. *)
Theorem normalizeHistoryIDs_sorted_positive (ids : list Z) :
  StronglySorted Z.lt (normalizeHistoryIDs ids)
  /\ forall id : Z, In id (normalizeHistoryIDs ids) <-> In id ids /\ 0 < id.
Proof.
  unfold normalizeHistoryIDs.
  destruct (Nat.eqb (length ids) 0) eqn:Hlen.
  - apply Nat.eqb_eq in Hlen. destruct ids; [|discriminate Hlen].
    split; [constructor|]. intros id. cbn. tauto.
  - destruct (normalizeLoop_spec ids ∅ []) as [Hnd Hmem].
    + constructor.
    + intros id. cbn. set_solver.
    + split; [apply sortInt64_sorted, Hnd|].
      intros id. rewrite sortInt64_In, Hmem. cbn. tauto.
Qed.

Section PagingProperties.

Variable strconv_Atoi : gostring -> option Z.

(** X18. Whatever the query parameters of a history listing hold, the limit
    handed to the history store lies between 1 and 100 and the offset is not
    negative; a limit and an offset that are given as numbers within those
    bounds are handed on as they are. *)
Theorem historyPage_bounds (rawLimit rawOffset : gostring) :
  let page := historyPage strconv_Atoi rawLimit rawOffset in
  (1 <= fst page <= 100 /\ 0 <= snd page)
  /\ forall limit offset : Z,
       isBlank rawLimit = false -> isBlank rawOffset = false ->
       strconv_Atoi (TrimSpace rawLimit) = Some limit ->
       strconv_Atoi (TrimSpace rawOffset) = Some offset ->
       1 <= limit <= 100 -> 0 <= offset ->
       page = (limit, offset).
Proof.
  cbn zeta. split.
  - unfold historyPage. cbn zeta. cbn [fst snd].
    repeat match goal with
           | |- context [if ?c then _ else _] => destruct c eqn:?
           end; boolean_facts; rewrite ?Z.leb_le, ?Z.leb_gt, ?Z.ltb_lt, ?Z.ltb_ge in *; lia.
  - intros limit offset Hl Ho Hpl Hpo Hlimit Hoffset.
    unfold historyPage, parseIntWithDefault, isBlank in *. cbn zeta.
    rewrite Hl, Ho, Hpl, Hpo.
    assert (H1 : (limit <=? 0) = false) by (apply Z.leb_gt; lia).
    assert (H2 : (100 <? limit) = false) by (apply Z.ltb_ge; lia).
    assert (H3 : (offset <? 0) = false) by (apply Z.ltb_ge; lia).
    rewrite H1, H2, H3. reflexivity.
Qed.

End PagingProperties.

(** The second run of the enforcement finds nothing to remove. *)
Lemma enforceLoop_nothing (codes : list string) (s : gset string) (removed : list string) :
  (forall code, In code codes -> code ∉ s) ->
  enforceLoop codes removed (Some s) = (removed, Some s).
Proof.
  revert removed. induction codes as [|code rest IH]; intros removed Hout;
    cbn [enforceLoop]; [reflexivity|].
  unfold bind at 1. unfold mapFound at 1.
  rewrite bool_decide_eq_false_2 by (apply Hout; left; reflexivity). cbn [negb].
  apply IH. intros c Hc. apply Hout. right. exact Hc.
Qed.

(** X19. Enforcing the always-enabled rules a second time does nothing:
    after one call, a further call on the same map removes no code, returns
    no forced rule and leaves the map as it is. The forced rules of the first
    call are sorted and hold no code twice. *)
Theorem enforcement_is_idempotent (order : list string) (σ : Store) :
  let forced := fst (enforceAlwaysEnabledRules order σ) in
  let σ' := snd (enforceAlwaysEnabledRules order σ) in
  enforceAlwaysEnabledRules order σ' = ([], σ')
  /\ StronglySorted stringLe forced /\ NoDup forced.
Proof.
  cbn zeta. rewrite (enforce_unfold order σ).
  destruct σ as [s|]; [|cbn; repeat split; constructor].
  destruct (Z.of_nat (size s) =? 0) eqn:Hsize.
  - cbn [fst snd]. rewrite enforce_unfold, Hsize. repeat split; constructor.
  - destruct (enforceLoop_run order [] s) as (removed & Hrun & Hmem & Hnd).
    rewrite Hrun. cbn [fst snd]. rewrite enforce_unfold. split; [|split].
    + destruct (Z.of_nat (size (s ∖ list_to_set order)) =? 0); [reflexivity|].
      rewrite enforceLoop_nothing; [reflexivity|].
      intros code Hcode. apply not_elem_of_difference. right.
      apply elem_of_list_to_set, list_elem_of_In, Hcode.
    + apply sortStrings_sorted.
    + rewrite sortStrings_Permutation. apply Hnd; [constructor|intros c []].
Qed.

(* ===================================================================== *)
(** * Quoting for the history store *)
(* ===================================================================== *)

Lemma replaceFrom_quote (s : gostring) :
  replaceFrom O s [39] [39; 39]
  = flat_map (fun r => if r =? 39 then [39; 39] else [r]) s.
Proof.
  induction s as [|r t IH]; [reflexivity|].
  cbn [replaceFrom flat_map HasPrefix length Nat.sub]. unfold rune_eqb.
  destruct t as [|r' t']; cbn [HasPrefix] in *;
    destruct (r =? 39); cbn [andb app]; rewrite <- ?IH; reflexivity.
Qed.

Lemma readLiteralBody_escaped (input rest : gostring) :
  match rest with [] => True | r :: _ => r <> 39 end ->
  readLiteralBody
    (flat_map (fun r => if r =? 39 then [39; 39] else [r]) input ++ [39] ++ rest)
  = Some (input, rest).
Proof.
  intros Hrest. induction input as [|r t IH]; cbn [flat_map app].
  - cbn [readLiteralBody]. rewrite Z.eqb_refl.
    destruct rest as [|r' rest']; [reflexivity|].
    apply Z.eqb_neq in Hrest. rewrite Hrest. reflexivity.
  - destruct (r =? 39) eqn:E.
    + apply Z.eqb_eq in E. subst r. cbn [app readLiteralBody].
      rewrite Z.eqb_refl. cbn [app] in IH. rewrite IH. reflexivity.
    + cbn [app readLiteralBody]. rewrite E. cbn [app] in IH. rewrite IH. reflexivity.
Qed.

(** X20. What [sqlQuote] writes is read back as the text it was given: the
    result is one string literal, whatever quotes the text holds, and a
    reader of SQL that meets it in a query takes out that text and goes on
    with what follows the literal. *)
Theorem sqlQuote_reads_back (input rest : gostring) :
  match rest with [] => True | r :: _ => r <> 39 end ->
  readLiteral (sqlQuote input ++ rest) = Some (input, rest).
Proof.
  intros Hrest. unfold sqlQuote, ReplaceAll. cbn zeta.
  rewrite replaceFrom_quote. cbn [app readLiteral]. rewrite Z.eqb_refl.
  rewrite <- app_assoc. apply (readLiteralBody_escaped input rest Hrest).
Qed.

(* ===================================================================== *)
(** * The segmenters only leave text out *)
(* ===================================================================== *)

(** A text around its trimmed part. *)
Lemma TrimSpace_decompose (s : gostring) :
  exists pre post : gostring, s = pre ++ TrimSpace s ++ post.
Proof.
  unfold TrimSpace.
  destruct (TrimLeftSpace_spec s) as (pre & Hs & _ & _).
  destruct (TrimLeftSpace_spec (rev (TrimLeftSpace s))) as (post & Hu & _ & _).
  set (u := TrimLeftSpace s) in *.
  set (v := TrimLeftSpace (rev u)) in *.
  exists pre, (rev post).
  assert (Hu' : u = rev v ++ rev post).
  { rewrite <- (rev_involutive u), Hu. apply (List.rev_app_distr post v). }
  rewrite <- Hu'. exact Hs.
Qed.

Lemma TrimSpace_sublist (s : gostring) : sublist (TrimSpace s) s.
Proof.
  destruct (TrimSpace_decompose s) as (pre & post & Heq).
  rewrite Heq at 2. apply sublist_inserts_l, sublist_inserts_r. reflexivity.
Qed.

Lemma take_sublist_le (c rs : gostring) (i j : nat) :
  (i <= j)%nat -> sublist (c ++ take i rs) (c ++ take j rs).
Proof.
  intros Hle. apply sublist_app; [reflexivity|].
  replace i with (Nat.min i j) by lia. rewrite <- take_take.
  apply sublist_take.
Qed.

Lemma take_sublist_rune (c rs : gostring) (i : nat) :
  (i < length rs)%nat ->
  c ++ take (Datatypes.S i) rs = (c ++ take i rs) ++ [runeAt rs i].
Proof.
  intros Hlt. unfold runeAt.
  destruct (rs !! i) as [ch|] eqn:Hch.
  - rewrite (take_S_r rs i ch Hch), app_assoc. reflexivity.
  - apply lookup_ge_None in Hch. unfold gostring, rune in *. lia.
Qed.

Lemma emitPiece_sublist (st : sqlSplit) : sublist (sqlText (emitPiece st)) (sqlText st).
Proof.
  unfold sqlText, emitPiece. cbn [items builder setItemsBuilder].
  rewrite app_nil_r.
  destruct (isEmpty (TrimSpace (builder st))) eqn:E.
  - apply sublist_inserts_r. reflexivity.
  - rewrite concat_app. cbn [concat]. rewrite app_nil_r.
    apply sublist_app; [reflexivity|apply TrimSpace_sublist].
Qed.

Lemma splitStep_sublist (c rs : gostring) (i : nat) (st : sqlSplit) :
  (i < length rs)%nat ->
  sublist (sqlText st) (c ++ take i rs) ->
  sublist (sqlText (snd (splitStep rs i st)))
    (c ++ take (Datatypes.S (fst (splitStep rs i st))) rs).
Proof.
  intros Hlt H.
  pose proof (splitStep_advances rs i st) as Hadv.
  assert (Hkeep : forall st' : sqlSplit, sqlText st' = sqlText st ->
            forall j, (i <= j)%nat -> sublist (sqlText st') (c ++ take (Datatypes.S j) rs)).
  { intros st' Heq j Hj. rewrite Heq. etransitivity; [exact H|].
    apply take_sublist_le. lia. }
  assert (Hwrite : forall st' : sqlSplit, sqlText st' = sqlText st ->
            sublist (sqlText (writeRune (runeAt rs i) st'))
              (c ++ take (Datatypes.S i) rs)).
  { intros st' Heq. rewrite take_sublist_rune by exact Hlt.
    unfold sqlText, writeRune. cbn [items builder setItemsBuilder].
    rewrite app_assoc. apply sublist_app; [|reflexivity].
    fold (sqlText st'). rewrite Heq. exact H. }
  assert (Hemit : forall st' : sqlSplit, sqlText st' = sqlText st ->
            forall j, (i <= j)%nat ->
            sublist (sqlText (emitPiece st')) (c ++ take (Datatypes.S j) rs)).
  { intros st' Heq j Hj. etransitivity; [apply emitPiece_sublist|].
    apply Hkeep; [exact Heq|exact Hj]. }
  revert Hadv. unfold splitStep.
  repeat match goal with
         | |- context [if ?c then _ else _] => destruct c
         end; cbn [fst snd]; intros Hadv;
    first [ apply Hwrite; reflexivity
          | apply Hemit; [reflexivity|lia]
          | apply Hkeep; [reflexivity|lia] ].
Qed.

Lemma scanLine_sublist (c line : gostring) (st : sqlSplit) :
  sublist (sqlText st) c -> sublist (sqlText (scanLine line st)) (c ++ line).
Proof.
  intros H. unfold scanLine.
  destruct (forIndex_position (length line) (splitStep line) (splitStep_advances line)
              (fun i st => sublist (sqlText st) (c ++ take i line))
              (fun i s Hi => splitStep_sublist c line i s Hi)
              (length line) O (setComments (inBlockComment st) false st))
    as (j & Hj & Hout); [lia| |].
  - cbn [take]. rewrite app_nil_r. exact H.
  - rewrite take_ge in Hout by lia. exact Hout.
Qed.

Lemma splitLine_sublist (c line : gostring) (st : sqlSplit) :
  sublist (sqlText st) c -> sublist (sqlText (splitLine st line)) (c ++ line).
Proof.
  intros H.
  assert (Hskip : forall d, sublist (sqlText (setDelimiter d st)) (c ++ line)).
  { intros d. apply sublist_inserts_r. exact H. }
  unfold splitLine.
  destruct (outsideQuotes st && negb (inBlockComment st));
    [|apply scanLine_sublist, H].
  destruct (parseDelimiterDirective line) as [delim [|]];
    [apply Hskip|apply scanLine_sublist, H].
Qed.

Lemma splitLines_sublist (lines : list gostring) : forall (c : gostring) (st : sqlSplit),
  sublist (sqlText st) c ->
  sublist (sqlText (fold_left splitLine lines st)) (c ++ concat lines).
Proof.
  induction lines as [|line rest IH]; intros c st H; cbn [fold_left concat].
  - rewrite app_nil_r. exact H.
  - rewrite app_assoc. apply IH, splitLine_sublist, H.
Qed.

Lemma splitAfterFrom_concat (sep : rune) (s : gostring) : forall cur : gostring,
  concat (splitAfterFrom sep cur s) = rev cur ++ s.
Proof.
  induction s as [|r t IH]; intros cur; cbn [splitAfterFrom].
  - cbn. rewrite app_nil_r. reflexivity.
  - destruct (rune_eqb r sep); [cbn [concat]|]; rewrite IH; cbn [rev];
      rewrite <- ?app_assoc; reflexivity.
Qed.

Lemma splitSQLStatements_sublist (content : gostring) :
  sublist (concat (splitSQLStatements content)) content.
Proof.
  unfold splitSQLStatements. cbn zeta.
  set (lines := match SplitAfter content newline with [] => [content] | ls => ls end).
  assert (Hlines : concat lines = content).
  { unfold lines, SplitAfter.
    pose proof (splitAfterFrom_concat newline content []) as H. cbn [rev app] in H.
    destruct (splitAfterFrom newline [] content); [cbn; apply app_nil_r|exact H]. }
  pose proof (splitLines_sublist lines [] splitInit) as H.
  cbn [app] in H. rewrite Hlines in H.
  specialize (H (sublist_nil_l _)). unfold sqlText in H.
  destruct (isEmpty (TrimSpace (builder (fold_left splitLine lines splitInit)))).
  - etransitivity; [|exact H]. apply sublist_inserts_r. reflexivity.
  - rewrite concat_app. cbn [concat]. rewrite app_nil_r.
    etransitivity; [|exact H].
    apply sublist_app; [reflexivity|apply TrimSpace_sublist].
Qed.

Lemma concat_sublist_In (s : gostring) (l : list gostring) :
  In s l -> sublist s (concat l).
Proof.
  induction l as [|x rest IH]; intros Hin; [contradiction|]. cbn [concat].
  destruct Hin as [->|Hin].
  - apply sublist_inserts_r. reflexivity.
  - apply sublist_inserts_l, IH, Hin.
Qed.

(** X21. [splitSQLStatements] only leaves text out: the statements it
    returns, one after the other, can be read off the script by deleting
    characters. No statement holds text that the script does not hold, and
    the statements come in the order of the script. *)
Theorem splitSQLStatements_only_drops (content : gostring) :
  sublist (concat (splitSQLStatements content)) content
  /\ Forall (fun statement => sublist statement content) (splitSQLStatements content).
Proof.
  pose proof (splitSQLStatements_sublist content) as H.
  split; [exact H|].
  apply List.Forall_forall. intros statement Hin.
  etransitivity; [apply concat_sublist_In, Hin|exact H].
Qed.

(** The same for [parseMongoOperations]. *)
Lemma mongoFlush_sublist (terminated fullwidth : bool) (st : mongoScan) :
  sublist (mongoText (mongoFlush terminated fullwidth st)) (mongoText st).
Proof.
  unfold mongoText, mongoFlush.
  destruct (isEmpty (TrimSpace (mBuilder st))) eqn:E;
    cbn [mItems mBuilder mongoSetOutput]; rewrite app_nil_r.
  - apply sublist_inserts_r. reflexivity.
  - rewrite map_app, concat_app. cbn [map concat OpText]. rewrite app_nil_r.
    apply sublist_app; [reflexivity|apply TrimSpace_sublist].
Qed.

Lemma trackDepth_text (ch : rune) (st : mongoScan) :
  mongoText (trackDepth ch st) = mongoText st.
Proof.
  unfold trackDepth.
  repeat match goal with
         | |- context [if ?c then _ else _] => destruct c
         end; reflexivity.
Qed.

Lemma mongoStep_sublist (c rs : gostring) (i : nat) (st : mongoScan) :
  (i < length rs)%nat ->
  sublist (mongoText st) (c ++ take i rs) ->
  sublist (mongoText (snd (mongoStep rs i st)))
    (c ++ take (Datatypes.S (fst (mongoStep rs i st))) rs).
Proof.
  intros Hlt H.
  assert (Hkeep : forall st' : mongoScan, mongoText st' = mongoText st ->
            forall j, (i <= j)%nat -> sublist (mongoText st') (c ++ take (Datatypes.S j) rs)).
  { intros st' Heq j Hj. rewrite Heq. etransitivity; [exact H|].
    apply take_sublist_le. lia. }
  assert (Hwrite : forall st' : mongoScan, mongoText st' = mongoText st ->
            sublist (mongoText (mongoSetOutput (mItems st')
                                  (mBuilder st' ++ [runeAt rs i]) st'))
              (c ++ take (Datatypes.S i) rs)).
  { intros st' Heq. rewrite take_sublist_rune by exact Hlt.
    unfold mongoText. cbn [mItems mBuilder mongoSetOutput].
    rewrite app_assoc. apply sublist_app; [|reflexivity].
    fold (mongoText st'). rewrite Heq. exact H. }
  assert (Hflush : forall (t f : bool) (st' : mongoScan), mongoText st' = mongoText st ->
            sublist (mongoText (mongoFlush t f st')) (c ++ take (Datatypes.S i) rs)).
  { intros t f st' Heq. etransitivity; [apply mongoFlush_sublist|].
    apply Hkeep; [exact Heq|lia]. }
  unfold mongoStep.
  repeat match goal with
         | |- context [if ?c then _ else _] => destruct c
         end; cbn [fst snd];
    first [ apply Hwrite; rewrite ?trackDepth_text; reflexivity
          | apply Hflush; rewrite ?trackDepth_text; reflexivity
          | apply Hkeep; [reflexivity|lia] ].
Qed.

Lemma parseMongoOperations_sublist (content : gostring) :
  sublist (concat (map OpText (parseMongoOperations content)))
    (ReplaceAll (ReplaceAll content [13; 10] [newline]) [13] [newline]).
Proof.
  unfold parseMongoOperations. cbn zeta.
  set (normalized := ReplaceAll (ReplaceAll content [13; 10] [newline]) [13] [newline]).
  destruct (forIndex_position (length normalized) (mongoStep normalized)
              (mongoStep_advances normalized)
              (fun i st => sublist (mongoText st) ([] ++ take i normalized))
              (fun i s Hi => mongoStep_sublist [] normalized i s Hi)
              (length normalized) O mongoInit)
    as (j & Hj & Hout); [lia|apply sublist_nil_l|].
  rewrite take_ge in Hout by lia. cbn [app] in Hout.
  pose proof (mongoFlush_sublist false false
                (forIndex (length normalized) (length normalized) (mongoStep normalized) O
                   mongoInit)) as Hflush.
  etransitivity; [|exact Hout]. etransitivity; [|exact Hflush].
  unfold mongoText. apply sublist_inserts_r. reflexivity.
Qed.

(** X22. [parseMongoOperations] only leaves text out: the texts of the
    operations it returns, one after the other, can be read off the script,
    with its line ends normalised, by deleting characters. *)
Theorem parseMongoOperations_only_drops (content : gostring) :
  let normalized := ReplaceAll (ReplaceAll content [13; 10] [newline]) [13] [newline] in
  sublist (concat (map OpText (parseMongoOperations content))) normalized
  /\ Forall (fun op => sublist (OpText op) normalized) (parseMongoOperations content).
Proof.
  cbn zeta. pose proof (parseMongoOperations_sublist content) as H.
  split; [exact H|].
  apply List.Forall_forall. intros op Hin.
  etransitivity; [|exact H]. apply concat_sublist_In, in_map, Hin.
Qed.

(* ===================================================================== *)
(** * The transaction rule, quoted text, and [splitMongoOperations] *)
(* ===================================================================== *)

Section TransactionProperties.

Variables up low : rune -> rune.

Lemma sqlRange_flags_exact (statements : list gostring) :
  Forall trimmedText statements ->
  forall (i : nat) (acc : ruleScan) (σ : Store),
    scanFlags (fst (forRange (sqlStatementRound up) i statements acc σ))
    = (containsRiskWrite acc
       || existsb (fun st => MatchString reRiskWrite (ToUpper up st)) statements,
       hasBegin acc || existsb (fun st => MatchString reBeginTx (ToUpper up st)) statements,
       hasCommit acc
       || existsb (fun st => MatchString reCommitTx (ToUpper up st)) statements).
Proof.
  induction 1 as [|st rest Hst _ IH]; intros i acc σ; cbn [forRange existsb].
  - unfold scanFlags. cbn. rewrite !orb_false_r. reflexivity.
  - destruct (sqlStatementRound_run up i st acc σ) as (acc' & Hrun & _).
    rewrite (bind_run _ _ _ _ Hrun), IH.
    assert (Hacc : scanFlags acc'
                   = (containsRiskWrite acc || MatchString reRiskWrite (ToUpper up st),
                      hasBegin acc || MatchString reBeginTx (ToUpper up st),
                      hasCommit acc || MatchString reCommitTx (ToUpper up st))).
    { replace acc' with (fst (sqlStatementRound up i st acc σ)) by (rewrite Hrun; reflexivity).
      unfold sqlStatementRound. rewrite (TrimSpace_fixed st Hst).
      destruct st as [|a t]; [contradiction|]. cbn [isEmpty].
      rewrite (bind_run _ _ _ _ (addIssuesWhen_run _ _ _)). reflexivity. }
    unfold scanFlags in Hacc. injection Hacc as -> -> ->.
    rewrite !orb_assoc. reflexivity.
Qed.

Lemma pgRange_flags_exact (statements : list gostring) :
  Forall trimmedText statements ->
  forall (i : nat) (acc : ruleScan),
    scanFlags (foldRange (pgStatementRound up) i statements acc)
    = (containsRiskWrite acc
       || existsb (fun st => MatchString reRiskWrite (TrimSpace (ToUpper up st))) statements,
       hasBegin acc
       || existsb (fun st => MatchString reBeginTx (TrimSpace (ToUpper up st))) statements,
       hasCommit acc
       || existsb (fun st => MatchString reCommitTx (TrimSpace (ToUpper up st))) statements).
Proof.
  induction 1 as [|st rest Hst _ IH]; intros i acc; cbn [foldRange existsb].
  - unfold scanFlags. cbn. rewrite !orb_false_r. reflexivity.
  - rewrite IH. unfold pgStatementRound. rewrite (TrimSpace_fixed st Hst).
    destruct st as [|a t]; [contradiction|]. cbn [isEmpty].
    cbn [containsRiskWrite hasBegin hasCommit]. rewrite !orb_assoc. reflexivity.
Qed.

(** The condition of the transaction check, from the three flags. *)
Lemma transaction_condition (scan : ruleScan) (statements : list gostring)
    (write begin commit : bool) :
  scanFlags scan = (write, begin, commit) ->
  containsRiskWrite scan && Nat.ltb 1 (length statements)
  && (negb (hasBegin scan) || negb (hasCommit scan))
  = write && Nat.ltb 1 (length statements) && (negb begin || negb commit).
Proof. unfold scanFlags. intros H. injection H as -> -> ->. reflexivity. Qed.

(** X23. When the MySQL and the PostgreSQL analyzer raise the transaction
    issue: for a script that is not blank, and with the rule enabled, the
    report holds [risky_writes_without_transaction] exactly when the script
    has more than one statement, one of its statements begins as a write
    (UPDATE, DELETE, INSERT, ALTER, DROP or TRUNCATE), and no statement opens
    a transaction or no statement commits one. *)
Theorem transaction_issue_raised (now : string) (engine : DBEngine)
    (content : gostring) (σ : Store) :
  isBlank content = false ->
  gostring_eqb (NormalizeEngine low engine) EngineMongoDB = false ->
  enabledIn σ "risky_writes_without_transaction" = true ->
  let r := fst (AnalyzeByEngine up low now engine content σ) in
  let some := someStatement up low engine content in
  (exists issue, In issue (Issues r) /\ Rule issue = "risky_writes_without_transaction")
  <-> (1 < length (splitSQLStatements content))%nat
      /\ some reRiskWrite = true
      /\ (some reBeginTx = false \/ some reCommitTx = false).
Proof.
  intros Hblank Hmongo Hon. cbn zeta.
  set (statements := splitSQLStatements content).
  assert (Hcond : forall write begin commit : bool,
            write && Nat.ltb 1 (length statements) && (negb begin || negb commit) = true
            <-> (1 < length statements)%nat /\ write = true
                /\ (begin = false \/ commit = false)).
  { intros write begin commit.
    rewrite !andb_true_iff, orb_true_iff, !negb_true_iff, Nat.ltb_lt. tauto. }
  rewrite <- Hcond. clear Hcond.
  setoid_rewrite reported_iff_evaluated.
  unfold evaluatedIssues, someStatement, matchedText. rewrite Hmongo.
  assert (Hb : isBlank content = false) by exact Hblank.
  pose proof (splitSQLStatements_items content) as Htrim. fold statements in Htrim.
  fold statements.
  destruct (gostring_eqb (NormalizeEngine low engine) EnginePostgreSQL).
  - rewrite Hb. cbn [ret fst]. unfold pgEvaluate.
    rewrite appendIssuesWhen_fired, !appendIssuesWhen_fired, pgRange_fired.
    cbn [scanIssues app].
    set (scan := foldRange (pgStatementRound up) O statements
                   {| scanIssues := fired (pgScriptChecks up content statements);
                      containsRiskWrite := false; hasBegin := false; hasCommit := false |}).
    pose proof (pgRange_flags_exact statements Htrim O
                  {| scanIssues := fired (pgScriptChecks up content statements);
                     containsRiskWrite := false; hasBegin := false; hasCommit := false |})
      as Hflags.
    fold scan in Hflags. cbn [containsRiskWrite hasBegin hasCommit orb] in Hflags.
    rewrite <- (transaction_condition scan statements _ _ _ Hflags).
    split.
    + intros (issue & [Hin _] & Hrule).
      apply in_app_or in Hin as [Hin|Hin]; [apply in_app_or in Hin as [Hin|Hin]|].
      * apply fired_In in Hin. unfold pgScriptChecks in Hin. cbn zeta in Hin.
        cbn [In] in Hin.
        repeat (destruct Hin as [Hin|Hin];
                [injection Hin as _ <-; discriminate Hrule|]).
        contradiction.
      * apply fired_In, rangeChecks_In in Hin as (k & st & _ & Hin).
        unfold pgRoundChecks, pgStatementChecks in Hin.
        destruct (isEmpty (TrimSpace st)); [contradiction|].
        cbn zeta in Hin. cbn [In] in Hin.
        repeat (destruct Hin as [Hin|Hin];
                [injection Hin as _ <-; discriminate Hrule|]).
        contradiction.
      * apply fired_In in Hin. unfold pgTransactionCheck in Hin. cbn [In] in Hin.
        destruct Hin as [Hin|[]]. injection Hin as Hc _. exact Hc.
    + intros Hc. eexists. split; [split|].
      * apply in_or_app. right. apply fired_In.
        unfold pgTransactionCheck. left. rewrite Hc. reflexivity.
      * exact Hon.
      * reflexivity.
  - rewrite Hb. unfold sqlEvaluate.
    rewrite (bind_run _ _ _ _ (addIssuesWhen_run _ _ _)).
    set (init := {| scanIssues := [] ++ keep σ (fired (sqlScriptChecks up content statements
                                      (MatchString reRoutineDefinition content)));
                    containsRiskWrite := false; hasBegin := false; hasCommit := false |}).
    pose proof (sqlRange_flags_exact statements Htrim O init σ) as Hflags.
    destruct (sqlRange_run up statements O init σ) as (scan & Hscan & Hissues).
    rewrite Hscan in Hflags. cbn [fst init containsRiskWrite hasBegin hasCommit orb] in Hflags.
    rewrite (bind_run _ _ _ _ Hscan), addIssuesWhen_run. cbn [fst].
    rewrite Hissues. cbn [init scanIssues app].
    rewrite <- (transaction_condition scan statements _ _ _ Hflags).
    split.
    + intros (issue & [Hin _] & Hrule).
      apply in_app_or in Hin as [Hin|Hin]; [apply in_app_or in Hin as [Hin|Hin]|];
        apply keep_In in Hin as [Hin _]; apply fired_In in Hin.
      * unfold sqlScriptChecks in Hin. cbn zeta in Hin. cbn [In] in Hin.
        repeat (destruct Hin as [Hin|Hin];
                [injection Hin as _ <-; discriminate Hrule|]).
        contradiction.
      * apply rangeChecks_In in Hin as (k & st & _ & Hin).
        unfold sqlRoundChecks, sqlStatementChecks in Hin.
        destruct (isEmpty (TrimSpace st)); [contradiction|].
        cbn zeta in Hin. cbn [In] in Hin.
        repeat (destruct Hin as [Hin|Hin];
                [injection Hin as _ <-; discriminate Hrule|]).
        contradiction.
      * unfold sqlTransactionCheck in Hin. cbn [In] in Hin.
        destruct Hin as [Hin|[]]. injection Hin as Hc _. exact Hc.
    + intros Hc. eexists. split; [split|].
      * apply in_or_app. right. apply keep_In. split.
        -- apply fired_In. unfold sqlTransactionCheck. left. rewrite Hc. reflexivity.
        -- exact Hon.
      * exact Hon.
      * reflexivity.
Qed.

End TransactionProperties.

(** ** Quoted text *)

Lemma quoted_step (rs : gostring) (i : nat) (st : sqlSplit) (quote : rune) :
  insideQuotes st quote -> inLineComment st = false -> runeAt rs i <> quote ->
  splitStep rs i st = (i, writeRune (runeAt rs i) st).
Proof.
  intros [Hblock Hq] Hline Hch. unfold splitStep, writeRune.
  remember (runeAt rs i) as ch eqn:Ech.
  remember (runeAt rs (i + 1)) as next eqn:Enext.
  remember (isEscapedByBackslash rs i) as escaped eqn:Eesc.
  destruct st as [its b d sq dq bt bl ln].
  cbn [inLineComment inBlockComment inSingleQuote inDoubleQuote inBacktick] in *.
  subst ln bl.
  destruct Hq as [(-> & -> & -> & ->)|[(-> & -> & -> & ->)|(-> & -> & -> & ->)]];
    apply Z.eqb_neq in Hch; unfold outsideQuotes;
    cbn [inLineComment inBlockComment inSingleQuote inDoubleQuote inBacktick
         negb andb setQuotes setItemsBuilder items builder delimiter];
    rewrite ?Hch; rewrite ?andb_false_r;
    cbn [inLineComment inBlockComment inSingleQuote inDoubleQuote inBacktick
         negb andb setQuotes setItemsBuilder items builder delimiter];
    rewrite ?andb_false_r; reflexivity.
Qed.

Lemma quoted_scan_step (line : gostring) (st : sqlSplit) (quote : rune) (i : nat)
    (s : sqlSplit) :
  insideQuotes st quote -> Forall (fun r => r <> quote) line ->
  (i < length line)%nat ->
  s = setItemsBuilder (items st) (builder st ++ take i line)
        (setComments (inBlockComment st) false st) ->
  snd (splitStep line i s)
  = setItemsBuilder (items st)
      (builder st ++ take (Datatypes.S (fst (splitStep line i s))) line)
      (setComments (inBlockComment st) false st).
Proof.
  intros Hq Hline Hi ->.
  assert (Hr : runeAt line i <> quote).
  { unfold runeAt. destruct (line !! i) as [ch|] eqn:E.
    - rewrite List.Forall_forall in Hline. apply Hline, list_elem_of_In.
      eapply list_elem_of_lookup_2, E.
    - apply lookup_ge_None in E. unfold gostring, rune in *. lia. }
  rewrite (quoted_step line i _ quote); [|exact Hq|reflexivity|exact Hr].
  cbn [fst snd]. unfold writeRune. cbn [items builder setItemsBuilder].
  rewrite <- app_assoc.
  pose proof (take_sublist_rune [] line i Hi) as Ht. cbn [app] in Ht.
  rewrite Ht. reflexivity.
Qed.

(** X24. A line that lies inside a quoted string is copied whole: when the
    scan of [splitSQLStatements] is inside a string that the rune [quote]
    closes, and the line does not hold that rune, the scan of the line ends
    no statement, appends the whole line to the statement it is building,
    and stays inside the string, whatever terminators, delimiters or comment
    markers the line holds. *)
Theorem quoted_line_is_copied (line : gostring) (st : sqlSplit) (quote : rune) :
  insideQuotes st quote -> Forall (fun r => r <> quote) line ->
  scanLine line st
  = setItemsBuilder (items st) (builder st ++ line)
      (setComments (inBlockComment st) false st).
Proof.
  intros Hq Hline. unfold scanLine.
  destruct (forIndex_position (length line) (splitStep line) (splitStep_advances line)
              (fun i s => s = setItemsBuilder (items st) (builder st ++ take i line)
                                (setComments (inBlockComment st) false st))
              (fun i s Hi Hs => quoted_scan_step line st quote i s Hq Hline Hi Hs)
              (length line) O (setComments (inBlockComment st) false st))
    as (j & Hj & Hout); [lia| |].
  - cbn [take]. rewrite app_nil_r. destruct st; reflexivity.
  - rewrite Hout, take_ge by lia. reflexivity.
Qed.

(** ** [splitMongoOperations] *)

(** X25. [splitMongoOperations] returns the texts of the operations that
    [parseMongoOperations] finds, all of them and in order; it never returns
    an empty list, and returns the trimmed script alone when no operation is
    found. *)
Theorem splitMongoOperations_texts (content : gostring) :
  splitMongoOperations content
  = match parseMongoOperations content with
    | [] => [TrimSpace content]
    | ops => map OpText ops
    end
  /\ splitMongoOperations content <> [].
Proof.
  unfold splitMongoOperations. cbn zeta.
  pose proof (parseMongoOperations_items content) as Hall.
  assert (Hfilter : List.filter (fun op => negb (isEmpty (TrimSpace (OpText op))))
                      (parseMongoOperations content) = parseMongoOperations content).
  { induction Hall as [|op rest [Hop _] _ IH]; [reflexivity|].
    cbn [List.filter]. rewrite (TrimSpace_fixed _ Hop).
    destruct (OpText op) eqn:E; [contradiction|]. cbn [isEmpty negb]. rewrite IH.
    reflexivity. }
  rewrite Hfilter. rewrite length_map.
  destruct (parseMongoOperations content) as [|op rest]; cbn; split;
    first [reflexivity | discriminate].
Qed.

(* ===================================================================== *)
(** * No finding is reported twice *)
(* ===================================================================== *)

Section FindingProperties.

Variables up low : rune -> rune.

Lemma NoDup_rules_findings (issues : list Issue) :
  NoDup (map Rule issues) -> NoDup (map finding issues).
Proof.
  induction issues as [|issue rest IH]; cbn [map]; [constructor|].
  rewrite !NoDup_cons. intros [Hx Hnd]. split; [|apply IH, Hnd].
  intros Hin. apply Hx.
  apply list_elem_of_In, in_map_iff in Hin as (other & Heq & Hin).
  apply list_elem_of_In, in_map_iff. exists other. split; [|exact Hin].
  unfold finding in Heq. congruence.
Qed.

Lemma NoDup_findings_filter (p : Issue -> bool) (issues : list Issue) :
  NoDup (map finding issues) -> NoDup (map finding (List.filter p issues)).
Proof.
  induction issues as [|issue rest IH]; cbn [map List.filter]; [constructor|].
  rewrite NoDup_cons. intros [Hx Hnd].
  destruct (p issue); [|apply IH, Hnd].
  cbn [map]. apply NoDup_cons. split; [|apply IH, Hnd].
  intros Hin. apply Hx.
  apply list_elem_of_In, in_map_iff in Hin as (other & Heq & Hin).
  apply List.filter_In in Hin as [Hin _].
  apply list_elem_of_In, in_map_iff. exists other. split; [exact Heq|exact Hin].
Qed.

Lemma NoDup_findings_fired (checks : list (bool * Issue)) :
  NoDup (map finding (map snd checks)) -> NoDup (map finding (fired checks)).
Proof.
  unfold fired.
  induction checks as [|[c issue] rest IH]; cbn [map List.filter fst snd]; [constructor|].
  rewrite NoDup_cons. intros [Hx Hnd].
  destruct c; [|apply IH, Hnd].
  cbn [map snd]. apply NoDup_cons. split; [|apply IH, Hnd].
  intros Hin. apply Hx.
  apply list_elem_of_In, in_map_iff in Hin as (other & Heq & Hin).
  apply in_map_iff in Hin as ([c' other'] & Hs & Hin). cbn [snd] in Hs. subst other'.
  apply List.filter_In in Hin as [Hin _].
  apply list_elem_of_In, in_map_iff. exists other. split; [exact Heq|].
  apply in_map_iff. exists (c', other). split; [reflexivity|exact Hin].
Qed.

Lemma findings_apart (a b : Issue) :
  statementFinding a -> scriptFinding b -> finding a <> finding b.
Proof.
  unfold statementFinding, scriptFinding, finding.
  intros (Hi & Hfw & Hms) Hb Heq. injection Heq as Hidx Hrule.
  destruct Hb as [Hb|[Hb|Hb]]; [lia|apply Hfw|apply Hms]; rewrite Hrule; exact Hb.
Qed.

Lemma NoDup_findings_app (l1 l2 : list Issue) :
  NoDup (map finding l1) -> NoDup (map finding l2) ->
  (forall a b, In a l1 -> In b l2 -> finding a <> finding b) ->
  NoDup (map finding (l1 ++ l2)).
Proof.
  intros H1 H2 Hapart. rewrite map_app. apply NoDup_app.
  split; [exact H1|]. split; [|exact H2].
  intros key Hk1 Hk2.
  apply list_elem_of_In, in_map_iff in Hk1 as (a & Ha & Hina).
  apply list_elem_of_In, in_map_iff in Hk2 as (b & Hb & Hinb).
  apply (Hapart a b Hina Hinb). congruence.
Qed.

(** The checks of a loop over the statements raise no finding twice. *)
Lemma NoDup_findings_range {A : Type} (f : nat -> A -> list (bool * Issue)) (l : list A) :
  (forall i x, NoDup (map Rule (map snd (f i x)))) ->
  (forall i x c issue, In (c, issue) (f i x) -> StatementIndex issue = Z.of_nat i + 1) ->
  forall i : nat, NoDup (map finding (map snd (rangeChecks f i l))).
Proof.
  intros Hrules Hindex.
  induction l as [|x rest IH]; intros i; cbn [rangeChecks map]; [constructor|].
  rewrite map_app. apply NoDup_findings_app.
  - apply NoDup_rules_findings, Hrules.
  - apply IH.
  - intros a b Ha Hb Heq.
    apply in_map_iff in Ha as ([ca a'] & Hsa & Ha). cbn [snd] in Hsa. subst a'.
    apply in_map_iff in Hb as ([cb b'] & Hsb & Hb). cbn [snd] in Hsb. subst b'.
    apply Hindex in Ha.
    apply rangeChecks_In in Hb as (k & y & _ & Hb). apply Hindex in Hb.
    unfold finding in Heq. injection Heq as Hidx _. lia.
Qed.

Lemma NoDup_strings (l : list string) : bool_decide (NoDup l) = true -> NoDup l.
Proof. apply bool_decide_eq_true. Qed.

Lemma sqlRound_rules (i : nat) (st : gostring) :
  NoDup (map Rule (map snd (sqlRoundChecks up i st))).
Proof.
  unfold sqlRoundChecks. destruct (isEmpty (TrimSpace st)); [constructor|].
  apply NoDup_strings. reflexivity.
Qed.

Lemma pgRound_rules (i : nat) (st : gostring) :
  NoDup (map Rule (map snd (pgRoundChecks up i st))).
Proof.
  unfold pgRoundChecks. destruct (isEmpty (TrimSpace st)); [constructor|].
  apply NoDup_strings. reflexivity.
Qed.

Lemma mongoRound_rules (i : nat) (op : mongoOperation) :
  NoDup (map Rule (map snd (mongoRoundChecks low i op))).
Proof.
  unfold mongoRoundChecks. destruct (isEmpty (compactScriptText _)); [constructor|].
  apply NoDup_strings. reflexivity.
Qed.

Lemma round_statementFinding {A : Type} (f : nat -> A -> list (bool * Issue)) (l : list A)
    (issue : Issue) :
  (forall i x c issue, In (c, issue) (f i x) ->
     StatementIndex issue = Z.of_nat i + 1
     /\ ~ fullwidthRule (Rule issue) /\ ~ missingRule (Rule issue)) ->
  In issue (map snd (rangeChecks f O l)) -> statementFinding issue.
Proof.
  intros Hf Hin.
  apply in_map_iff in Hin as ([c issue'] & Hs & Hin). cbn [snd] in Hs. subst issue'.
  apply rangeChecks_In in Hin as (k & x & _ & Hin).
  apply Hf in Hin as (Hi & Hfw & Hms).
  split; [lia|]. split; assumption.
Qed.

(** The script checks and the transaction check of an engine raise no
    finding twice, and findings about the script only. *)
Ltac script_finding Hin :=
  cbn [map snd In] in Hin;
  repeat (destruct Hin as [Hin|Hin];
          [subst; unfold scriptFinding, fullwidthRule, missingRule;
           cbn [StatementIndex Rule mkIssue];
           first [ left; reflexivity | right; left; reflexivity
                 | right; right; left; reflexivity | right; right; right; reflexivity ]|]);
  contradiction.

Lemma sqlScript_findings (content : gostring) (statements : list gostring)
    (containsRoutine : bool) (scan : ruleScan) :
  let checks := sqlScriptChecks up content statements containsRoutine
                ++ sqlTransactionCheck scan statements in
  NoDup (map Rule (map snd checks))
  /\ forall issue, In issue (map snd checks) -> scriptFinding issue.
Proof.
  cbn zeta. split.
  - apply NoDup_strings. reflexivity.
  - intros issue Hin. unfold sqlScriptChecks, sqlTransactionCheck in Hin.
    cbn zeta in Hin. cbn [app] in Hin. script_finding Hin.
Qed.

Lemma pgScript_findings (content : gostring) (statements : list gostring)
    (scan : ruleScan) :
  let checks := pgScriptChecks up content statements
                ++ pgTransactionCheck scan statements in
  NoDup (map Rule (map snd checks))
  /\ forall issue, In issue (map snd checks) -> scriptFinding issue.
Proof.
  cbn zeta. split.
  - apply NoDup_strings. reflexivity.
  - intros issue Hin. unfold pgScriptChecks, pgTransactionCheck in Hin.
    cbn zeta in Hin. cbn [app] in Hin. script_finding Hin.
Qed.

Lemma mongoScript_findings (ops : list mongoOperation) :
  NoDup (map Rule (map snd (mongoScriptChecks ops)))
  /\ forall issue, In issue (map snd (mongoScriptChecks ops)) -> scriptFinding issue.
Proof.
  split.
  - apply NoDup_strings. reflexivity.
  - intros issue Hin. unfold mongoScriptChecks in Hin. cbn zeta in Hin. script_finding Hin.
Qed.

(** The checks of a whole evaluation: those about the script around those
    about the statements. *)
Lemma NoDup_findings_evaluation (script rounds transaction : list (bool * Issue)) :
  NoDup (map Rule (map snd (script ++ transaction))) ->
  (forall issue, In issue (map snd (script ++ transaction)) -> scriptFinding issue) ->
  NoDup (map finding (map snd rounds)) ->
  (forall issue, In issue (map snd rounds) -> statementFinding issue) ->
  NoDup (map finding (fired (script ++ rounds ++ transaction))).
Proof.
  intros Hrules Hscript Hrounds Hstatement.
  apply NoDup_findings_fired.
  assert (Hperm : map finding (map snd (script ++ rounds ++ transaction))
                  ≡ₚ map finding (map snd rounds ++ map snd (script ++ transaction))).
  { rewrite !map_app. apply Permutation_app_swap_app. }
  rewrite Hperm. apply NoDup_findings_app.
  - exact Hrounds.
  - apply NoDup_rules_findings, Hrules.
  - intros a b Ha Hb. apply findings_apart; [apply Hstatement, Ha|apply Hscript, Hb].
Qed.

(** X26. No finding is reported twice: in every report, no two issues have
    both the same statement index and the same rule. *)
Theorem report_repeats_no_finding (now : string) (engine : DBEngine)
    (content : gostring) (σ : Store) :
  NoDup (map finding (Issues (fst (AnalyzeByEngine up low now engine content σ)))).
Proof.
  destruct (AnalyzeByEngine_run up low now engine content σ) as (r & Hrun & _ & Hissues & _).
  rewrite Hrun. cbn [fst]. rewrite Hissues.
  apply NoDup_findings_filter. rewrite (SliceStable_Permutation issueLess).
  unfold evaluatedIssues.
  destruct (gostring_eqb (NormalizeEngine low engine) EnginePostgreSQL);
    [|destruct (gostring_eqb (NormalizeEngine low engine) EngineMongoDB)];
    (destruct (isBlank content); cbn [ret fst];
     [apply NoDup_singleton|]).
  - destruct (pgEvaluate_fired up content (splitSQLStatements content)) as (scan & ->).
    destruct (pgScript_findings content (splitSQLStatements content) scan) as [H1 H2].
    apply NoDup_findings_evaluation; [exact H1|exact H2| |].
    + apply NoDup_findings_range; [apply pgRound_rules|].
      intros i x c issue Hin. eapply pgRoundChecks_facts, Hin.
    + intros issue Hin. eapply round_statementFinding; [|exact Hin].
      intros i x c issue' Hin'. eapply pgRoundChecks_facts, Hin'.
  - rewrite mongoEvaluate_fired.
    destruct (mongoScript_findings (parseMongoOperations content)) as [H1 H2].
    rewrite <- (app_nil_r (rangeChecks _ _ _)).
    apply NoDup_findings_evaluation; rewrite ?app_nil_r; [exact H1|exact H2| |].
    + apply NoDup_findings_range; [apply mongoRound_rules|].
      intros i x c issue Hin. eapply mongoRoundChecks_facts, Hin.
    + intros issue Hin. eapply round_statementFinding; [|exact Hin].
      intros i x c issue' Hin'. eapply mongoRoundChecks_facts, Hin'.
  - destruct (sqlEvaluate_run up content (splitSQLStatements content)
                (MatchString reRoutineDefinition content) σ) as (scan & ->).
    cbn [fst]. apply NoDup_findings_filter.
    destruct (sqlScript_findings content (splitSQLStatements content)
                (MatchString reRoutineDefinition content) scan) as [H1 H2].
    apply NoDup_findings_evaluation; [exact H1|exact H2| |].
    + apply NoDup_findings_range; [apply sqlRound_rules|].
      intros i x c issue Hin. eapply sqlRoundChecks_facts, Hin.
    + intros issue Hin. eapply round_statementFinding; [|exact Hin].
      intros i x c issue' Hin'. eapply sqlRoundChecks_facts, Hin'.
Qed.

End FindingProperties.

(* ===================================================================== *)
(** * Blank scripts *)
(* ===================================================================== *)

Lemma TrimLeftSpace_blank (s : gostring) :
  TrimLeftSpace s = [] <-> Forall (fun r => unicode_IsSpace r = true) s.
Proof.
  induction s as [|r t IH]; cbn [TrimLeftSpace].
  - split; [constructor|reflexivity].
  - destruct (unicode_IsSpace r) eqn:E.
    + rewrite IH. split; [intros H; constructor; assumption|].
      intros H. inversion H; assumption.
    + split; [discriminate|]. intros H. inversion H; congruence.
Qed.

(** A script is blank exactly when it holds white space only. *)
Lemma isBlank_spaces (content : gostring) :
  isBlank content = true <-> Forall (fun r => unicode_IsSpace r = true) content.
Proof.
  unfold isBlank, TrimSpace. split.
  - intros H.
    destruct (rev (TrimLeftSpace (rev (TrimLeftSpace content)))) eqn:E; [|discriminate H].
    apply (f_equal (@rev rune)) in E. rewrite rev_involutive in E. cbn in E.
    apply TrimLeftSpace_blank in E.
    apply Forall_rev in E. rewrite rev_involutive in E.
    destruct (TrimLeftSpace_spec content) as (pre & Heq & Hpre & _).
    rewrite Heq. apply Forall_app. split; assumption.
  - intros H. apply TrimLeftSpace_blank in H. rewrite H. reflexivity.
Qed.

Lemma replaceFrom_spaces (old new : gostring) (s : gostring) :
  Forall (fun r => unicode_IsSpace r = true) new ->
  Forall (fun r => unicode_IsSpace r = true) s ->
  forall skip : nat, Forall (fun r => unicode_IsSpace r = true) (replaceFrom skip s old new).
Proof.
  intros Hnew. induction 1 as [|r t Hr _ IH]; intros skip; cbn [replaceFrom]; [constructor|].
  destruct skip as [|k]; [|apply IH].
  destruct (HasPrefix (r :: t) old).
  - apply Forall_app. split; [exact Hnew|apply IH].
  - constructor; [exact Hr|apply IH].
Qed.

Lemma trimmed_not_spaces (s text : gostring) :
  trimmedText s -> sublist s text ->
  ~ Forall (fun r => unicode_IsSpace r = true) text.
Proof.
  intros Ht Hsub Hall. destruct s as [|a t]; [contradiction|]. destruct Ht as [Ha _].
  assert (Hin : a ∈ text) by (eapply elem_of_sublist; [|exact Hsub]; left).
  rewrite List.Forall_forall in Hall. apply list_elem_of_In, Hall in Hin. congruence.
Qed.

Lemma splitFrom_lines (sep : rune) (s : gostring) : forall cur : gostring,
  Forall (fun r => unicode_IsSpace r = true) cur ->
  Forall (fun r => unicode_IsSpace r = true) s ->
  Forall (fun line => TrimSpace line = []) (splitFrom sep cur s).
Proof.
  assert (Hblank : forall line, Forall (fun r => unicode_IsSpace r = true) line ->
                     TrimSpace line = []).
  { intros line H. apply isBlank_spaces in H. unfold isBlank in H.
    destruct (TrimSpace line); [reflexivity|discriminate H]. }
  induction s as [|r t IH]; intros cur Hcur Hs; cbn [splitFrom].
  - constructor; [|constructor]. apply Hblank, Forall_rev, Hcur.
  - inversion Hs as [|? ? Hr Ht]; subst.
    destruct (rune_eqb r sep).
    + constructor; [apply Hblank, Forall_rev, Hcur|]. apply IH; [constructor|exact Ht].
    + apply IH; [constructor; assumption|exact Ht].
Qed.

Lemma heuristicLines_blank (lines : list gostring) :
  Forall (fun line => TrimSpace line = []) lines ->
  forall st, fold_left heuristicLine lines st = st.
Proof.
  induction 1 as [|line rest Hline _ IH]; intros st; cbn [fold_left]; [reflexivity|].
  rewrite IH. unfold heuristicLine. rewrite Hline. reflexivity.
Qed.

(** X27. A blank script has no statements: on a script that holds white
    space only, [splitSQLStatements], [parseMongoOperations] and the
    line-start heuristic all return the empty list. *)
Theorem blank_script_has_no_statements (content : gostring) :
  isBlank content = true ->
  splitSQLStatements content = []
  /\ parseMongoOperations content = []
  /\ splitSQLByLineStartHeuristicDetailed content = [].
Proof.
  intros Hblank. apply isBlank_spaces in Hblank.
  assert (Hnormalized : Forall (fun r => unicode_IsSpace r = true)
                          (ReplaceAll (ReplaceAll content [13; 10] [newline]) [13]
                             [newline])).
  { unfold ReplaceAll.
    apply replaceFrom_spaces; [repeat constructor|].
    apply replaceFrom_spaces; [repeat constructor|exact Hblank]. }
  split; [|split].
  - destruct (splitSQLStatements content) as [|statement rest] eqn:E; [reflexivity|].
    exfalso.
    pose proof (splitSQLStatements_items content) as Hitems.
    pose proof (splitSQLStatements_sublist content) as Hsub.
    rewrite E in Hitems, Hsub. inversion Hitems as [|? ? Ht _]; subst.
    apply (trimmed_not_spaces statement content Ht); [|exact Hblank].
    etransitivity; [|exact Hsub]. cbn [concat]. apply sublist_inserts_r. reflexivity.
  - destruct (parseMongoOperations content) as [|op rest] eqn:E; [reflexivity|].
    exfalso.
    pose proof (parseMongoOperations_items content) as Hitems.
    pose proof (parseMongoOperations_sublist content) as Hsub.
    rewrite E in Hitems, Hsub. inversion Hitems as [|? ? [Ht _] _]; subst.
    apply (trimmed_not_spaces (OpText op)
             (ReplaceAll (ReplaceAll content [13; 10] [newline]) [13] [newline]) Ht);
      [|exact Hnormalized].
    etransitivity; [|exact Hsub]. cbn [map concat]. apply sublist_inserts_r. reflexivity.
  - unfold splitSQLByLineStartHeuristicDetailed. cbn zeta.
    rewrite heuristicLines_blank; [reflexivity|].
    apply splitFrom_lines; [constructor|exact Hnormalized].
Qed.

(* ===================================================================== *)
(** * Scripts whose statements are all terminated *)
(* ===================================================================== *)

Section TerminatedProperties.

Variables up low : rune -> rune.

Lemma detectLineTerminator_suffix (s : gostring) :
  fst (detectLineTerminator s) = hasStatementTerminatorSuffix s.
Proof.
  unfold detectLineTerminator, hasStatementTerminatorSuffix.
  destruct (HasSuffix (TrimSpace s) [semicolon]); [reflexivity|].
  destruct (HasSuffix (TrimSpace s) [fullwidthSemicolon]); reflexivity.
Qed.

Lemma collectStatements_none (pick : sqlHeuristicStatement -> bool)
    (detailed : list sqlHeuristicStatement) :
  forallb (fun st => negb (pick st)) detailed = true ->
  forall i : nat, collectStatements pick i detailed = [].
Proof.
  induction detailed as [|st rest IH]; intros Hall i; cbn [collectStatements];
    [reflexivity|].
  cbn [forallb] in Hall. apply andb_true_iff in Hall as [Hst Hrest].
  rewrite Hst. apply IH, Hrest.
Qed.

Lemma detectMissing_terminated (content : gostring) (statements : list gostring)
    (containsRoutine : bool) :
  forallb (fun st => hasStatementTerminatorSuffix (Text st))
    (splitSQLByLineStartHeuristicDetailed content) = true ->
  hasStatementTerminatorSuffix (TrimSpace (stripCommentsAndStrings content)) = true ->
  detectMissingTerminatorStatements up content statements containsRoutine = [].
Proof.
  intros Hall Hend. unfold detectMissingTerminatorStatements.
  destruct containsRoutine; [reflexivity|].
  destruct (isEmpty (TrimSpace (stripCommentsAndStrings content))); [reflexivity|].
  destruct (Contains _ _); [reflexivity|].
  destruct (hasLikelyMergedStatements statements).
  - destruct (Nat.leb _ 1); [reflexivity|].
    apply collectStatements_none.
    pose proof (heuristic_flagsFollowText content) as Hflags.
    induction Hflags as [|st rest [_ Hst] _ IH]; [reflexivity|].
    cbn [forallb] in Hall |- *. apply andb_true_iff in Hall as [H1 H2].
    rewrite (IH H2), andb_true_r, negb_involutive.
    rewrite <- detectLineTerminator_suffix, <- Hst in H1. exact H1.
  - rewrite Hend. cbn [negb]. rewrite andb_false_r. reflexivity.
Qed.

(** X28. A script whose statements are all terminated gets no
    missing-terminator issue from the MySQL or the PostgreSQL analyzer: when
    every statement of the line-start segmentation ends with a semicolon or a
    full-width semicolon, and the script does so once its comments and quoted
    strings are stripped, no issue of the report has the rule
    [missing_statement_terminator]. *)
Theorem terminated_script_reports_no_missing_terminator (now : string)
    (engine : DBEngine) (content : gostring) (σ : Store) (issue : Issue) :
  gostring_eqb (NormalizeEngine low engine) EngineMongoDB = false ->
  forallb (fun st => hasStatementTerminatorSuffix (Text st))
    (splitSQLByLineStartHeuristicDetailed content) = true ->
  hasStatementTerminatorSuffix (TrimSpace (stripCommentsAndStrings content)) = true ->
  In issue (Issues (fst (AnalyzeByEngine up low now engine content σ))) ->
  Rule issue <> "missing_statement_terminator".
Proof.
  intros Hmongo Hall Hend Hin Hrule.
  destruct (AnalyzeByEngine_run up low now engine content σ) as (r & Hrun & Hreport).
  rewrite Hrun in Hin. cbn [fst] in Hin.
  pose proof (report_classified up low now engine content σ r issue Hreport Hin) as Hc.
  assert (Hnone : missingItemsOf up low engine content = []).
  { unfold missingItemsOf. rewrite Hmongo.
    destruct (isBlank content); [reflexivity|].
    destruct (gostring_eqb (NormalizeEngine low engine) EnginePostgreSQL);
      rewrite (detectMissing_terminated content _ _ Hall Hend); apply excludeMissing_nil. }
  unfold classified, fullwidthRule, missingRule, reportsMissing in Hc.
  rewrite Hnone, Hrule in Hc.
  destruct Hc as [(_ & Hms & _)|[(Hfw & _)|(_ & Hne & _)]].
  - apply Hms. left. reflexivity.
  - discriminate Hfw.
  - apply Hne. reflexivity.
Qed.

End TerminatedProperties.

(* ===================================================================== *)
(** * The further properties on concrete scripts *)
(* ===================================================================== *)

Lemma summary_counts_each_level_witness :
  isBlank scriptTwoSelects = false
  /\ (let r := fst (AnalyzeByEngine asciiToUpper asciiToLower "" EngineMySQL
                      scriptTwoSelects None) in
      ErrorCount (ResponseSummary r) = countLevel LevelError (Issues r)
      /\ WarningCount (ResponseSummary r) = countLevel LevelWarning (Issues r)
      /\ InfoCount (ResponseSummary r) = countLevel LevelInfo (Issues r)
      /\ StatementCount (ResponseSummary r)
         = Z.of_nat (length (statementTextsOf asciiToLower EngineMySQL scriptTwoSelects))).
Proof.
  split; [reflexivity|].
  exact (summary_counts_each_level asciiToUpper asciiToLower "" EngineMySQL
           scriptTwoSelects None eq_refl).
Defined.

Lemma advice_follows_issues_witness :
  isBlank scriptTwoSelects = false
  /\ (let r := fst (AnalyzeByEngine asciiToUpper asciiToLower "" EngineMySQL
                      scriptTwoSelects None) in
      let reported := fun level =>
        exists issue, In issue (Issues r) /\ Level issue = level in
      (In adviceHighRisk (Advice r) <-> reported LevelError)
      /\ (In adviceMediumRisk (Advice r) <-> reported LevelWarning)
      /\ (In adviceNoRisk (Advice r)
          <-> ~ reported LevelError /\ ~ reported LevelWarning)).
Proof.
  split; [reflexivity|].
  exact (advice_follows_issues asciiToUpper asciiToLower "" EngineMySQL
           scriptTwoSelects None eq_refl).
Defined.

Lemma report_agrees_with_catalogue_witness :
  In firstOfTwoSelects (Issues (analyzeAscii EngineMySQL scriptTwoSelects None))
  /\ listed (snd (RulesForEngine asciiToLower EngineMySQL)) firstOfTwoSelects.
Proof.
  assert (Hin : In firstOfTwoSelects
                  (Issues (fst (AnalyzeByEngine asciiToUpper asciiToLower "" EngineMySQL
                                  scriptTwoSelects None))))
    by (vm_compute; left; reflexivity).
  split; [exact Hin|].
  exact (proj2 (report_agrees_with_catalogue asciiToUpper asciiToLower "" EngineMySQL
                  scriptTwoSelects None firstOfTwoSelects) Hin).
Defined.

Lemma script_never_reports_empty_input_witness :
  isBlank scriptTwoSelects = false
  /\ In firstOfTwoSelects (Issues (analyzeAscii EngineMySQL scriptTwoSelects None))
  /\ Rule firstOfTwoSelects <> "empty_input".
Proof.
  assert (Hin : In firstOfTwoSelects
                  (Issues (fst (AnalyzeByEngine asciiToUpper asciiToLower "" EngineMySQL
                                  scriptTwoSelects None))))
    by (vm_compute; left; reflexivity).
  split; [reflexivity|]. split; [exact Hin|].
  exact (script_never_reports_empty_input asciiToUpper asciiToLower "" EngineMySQL
           scriptTwoSelects None firstOfTwoSelects eq_refl Hin).
Defined.

Lemma response_reports_no_disabled_rule_witness :
  In firstOfCheck
    (Issues (Response (checkAscii EngineMySQL scriptTwoSelects someRulesDisabled)))
  /\ ~ In (Rule firstOfCheck)
         (DisabledRules (checkAscii EngineMySQL scriptTwoSelects someRulesDisabled)).
Proof.
  assert (Hin : In firstOfCheck
                  (Issues (Response (fst (handleCheck asciiToUpper asciiToLower
                                            (elements alwaysEnabledRules) "" EngineMySQL
                                            scriptTwoSelects someRulesDisabled)))))
    by (vm_compute; left; reflexivity).
  split; [exact Hin|].
  exact (response_reports_no_disabled_rule asciiToUpper asciiToLower
           (elements alwaysEnabledRules) "" EngineMySQL scriptTwoSelects
           someRulesDisabled firstOfCheck Hin).
Defined.

Lemma issue_quotes_its_statement_witness :
  In firstOfTwoSelects (Issues (analyzeAscii EngineMySQL scriptTwoSelects None))
  /\ ~ fullwidthRule (Rule firstOfTwoSelects) /\ ~ missingRule (Rule firstOfTwoSelects)
  /\ ((StatementIndex firstOfTwoSelects = 0 /\ Statement firstOfTwoSelects = [])
      \/ exists (k : nat) (text : gostring),
           statementTextsOf asciiToLower EngineMySQL scriptTwoSelects !! k = Some text
           /\ StatementIndex firstOfTwoSelects = Z.of_nat k + 1
           /\ Statement firstOfTwoSelects = text).
Proof.
  assert (Hin : In firstOfTwoSelects
                  (Issues (fst (AnalyzeByEngine asciiToUpper asciiToLower "" EngineMySQL
                                  scriptTwoSelects None))))
    by (vm_compute; left; reflexivity).
  assert (Hfw : ~ fullwidthRule (Rule firstOfTwoSelects))
    by (vm_compute; discriminate).
  assert (Hms : ~ missingRule (Rule firstOfTwoSelects))
    by (vm_compute; intros [E|E]; discriminate E).
  split; [exact Hin|]. split; [exact Hfw|]. split; [exact Hms|].
  exact (issue_quotes_its_statement asciiToUpper asciiToLower "" EngineMySQL
           scriptTwoSelects None firstOfTwoSelects Hin Hfw Hms).
Defined.

Lemma mongo_missing_terminator_raised_witness :
  isBlank scriptTwoOperations = false
  /\ (exists issue,
        In issue (Issues (fst (AnalyzeByEngine asciiToUpper asciiToLower "" EngineMongoDB
                                 scriptTwoOperations None)))
        /\ Rule issue = "mongo_missing_statement_terminator")
  /\ map Index (missingItemsOf asciiToUpper asciiToLower EngineMongoDB scriptTwoOperations)
     = [1].
Proof.
  split; [reflexivity|]. split; [|vm_compute; reflexivity].
  apply (proj1 (mongo_missing_terminator_raised asciiToUpper asciiToLower "" EngineMongoDB
                  scriptTwoOperations None eq_refl eq_refl eq_refl)).
  split; [vm_compute; lia|].
  exists O. eexists. split; [vm_compute; reflexivity|reflexivity].
Defined.

Lemma fullwidth_terminator_raised_witness :
  isBlank scriptTwoSelects = false
  /\ routineExempt asciiToLower EngineMySQL scriptTwoSelects = false
  /\ (exists issue,
        In issue (Issues (fst (AnalyzeByEngine asciiToUpper asciiToLower "" EngineMySQL
                                 scriptTwoSelects None)))
        /\ Rule issue = "fullwidth_statement_terminator").
Proof.
  assert (Hexempt : routineExempt asciiToLower EngineMySQL scriptTwoSelects = false)
    by (vm_compute; reflexivity).
  split; [reflexivity|]. split; [exact Hexempt|].
  apply (proj1 (fullwidth_terminator_raised asciiToUpper asciiToLower "" EngineMySQL
                  scriptTwoSelects None eq_refl eq_refl eq_refl)).
  split; [exact Hexempt|].
  exists 1%nat. eexists. split; vm_compute; reflexivity.
Defined.

Lemma NormalizeEngine_is_canonical_witness :
  (forall r : rune, 97 <= r <= 122 -> asciiToLower r = r)
  /\ NormalizeEngine asciiToLower (runes " PG ") = EnginePostgreSQL
  /\ NormalizeEngine asciiToLower (NormalizeEngine asciiToLower (runes " PG "))
     = NormalizeEngine asciiToLower (runes " PG ").
Proof.
  assert (Hlow : forall r : rune, 97 <= r <= 122 -> asciiToLower r = r).
  { intros r Hr. unfold asciiToLower.
    destruct ((65 <=? r) && (r <=? 90)) eqn:E; [|reflexivity].
    apply andb_true_iff in E as [_ E]. apply Z.leb_le in E. lia. }
  split; [exact Hlow|]. split; [vm_compute; reflexivity|].
  exact (proj1 (proj2 (NormalizeEngine_is_canonical asciiToUpper asciiToLower ""
                         (runes " PG ") [] None Hlow))).
Defined.

Lemma historyPage_bounds_witness :
  historyPage decimalAtoi (runes " 50 ") (runes "10") = (50, 10)
  /\ 1 <= fst (historyPage decimalAtoi (runes "500") (runes "x")) <= 100.
Proof.
  split.
  - apply (proj2 (historyPage_bounds decimalAtoi (runes " 50 ") (runes "10")) 50 10);
      first [reflexivity | lia].
  - exact (proj1 (proj1 (historyPage_bounds decimalAtoi (runes "500") (runes "x")))).
Defined.

Lemma sqlQuote_reads_back_witness :
  sqlQuote (runes "it's") = runes "'it''s'"
  /\ readLiteral (sqlQuote (runes "it's") ++ runes ", 1") = Some (runes "it's", runes ", 1").
Proof.
  split; [reflexivity|].
  apply (sqlQuote_reads_back (runes "it's") (runes ", 1")). cbn. lia.
Defined.

Lemma transaction_issue_raised_witness :
  isBlank scriptTwoWrites = false
  /\ (exists issue,
        In issue (Issues (fst (AnalyzeByEngine asciiToUpper asciiToLower "" EngineMySQL
                                 scriptTwoWrites None)))
        /\ Rule issue = "risky_writes_without_transaction").
Proof.
  split; [reflexivity|].
  apply (proj2 (transaction_issue_raised asciiToUpper asciiToLower "" EngineMySQL
                  scriptTwoWrites None eq_refl eq_refl eq_refl)).
  split; [vm_compute; lia|]. split; [vm_compute; reflexivity|].
  left. vm_compute. reflexivity.
Defined.

Lemma quoted_line_is_copied_witness :
  insideQuotes splitInsideString 39
  /\ items (scanLine (runes "a; b # c") splitInsideString) = []
  /\ builder (scanLine (runes "a; b # c") splitInsideString) = runes "SELECT 'a; b # c".
Proof.
  assert (Hq : insideQuotes splitInsideString 39).
  { split; [reflexivity|]. left. repeat split; reflexivity. }
  assert (Hline : Forall (fun r => r <> 39) (runes "a; b # c")).
  { cbn. repeat (constructor; [lia|]). constructor. }
  split; [exact Hq|].
  rewrite (quoted_line_is_copied (runes "a; b # c") splitInsideString 39 Hq Hline).
  split; reflexivity.
Defined.

Lemma blank_script_has_no_statements_witness :
  isBlank [32; 10; 9] = true
  /\ splitSQLStatements [32; 10; 9] = []
  /\ parseMongoOperations [32; 10; 9] = []
  /\ splitSQLByLineStartHeuristicDetailed [32; 10; 9] = [].
Proof.
  split; [reflexivity|].
  exact (blank_script_has_no_statements [32; 10; 9] eq_refl).
Defined.

Lemma terminated_script_reports_no_missing_terminator_witness :
  forallb (fun st => hasStatementTerminatorSuffix (Text st))
    (splitSQLByLineStartHeuristicDetailed scriptTerminated) = true
  /\ hasStatementTerminatorSuffix (TrimSpace (stripCommentsAndStrings scriptTerminated))
     = true
  /\ In firstOfTerminated (Issues (analyzeAscii EngineMySQL scriptTerminated None))
  /\ Rule firstOfTerminated <> "missing_statement_terminator".
Proof.
  assert (Hall : forallb (fun st => hasStatementTerminatorSuffix (Text st))
                   (splitSQLByLineStartHeuristicDetailed scriptTerminated) = true)
    by (vm_compute; reflexivity).
  assert (Hend : hasStatementTerminatorSuffix
                   (TrimSpace (stripCommentsAndStrings scriptTerminated)) = true)
    by (vm_compute; reflexivity).
  assert (Hin : In firstOfTerminated
                  (Issues (fst (AnalyzeByEngine asciiToUpper asciiToLower "" EngineMySQL
                                  scriptTerminated None))))
    by (vm_compute; left; reflexivity).
  split; [exact Hall|]. split; [exact Hend|]. split; [exact Hin|].
  exact (terminated_script_reports_no_missing_terminator asciiToUpper asciiToLower ""
           EngineMySQL scriptTerminated None firstOfTerminated eq_refl Hall Hend Hin).
Defined.

